(** * Token lifecycle and HTTP execution of the Integra Contador SDK

    A shallow embedding of [src/auth/manager.py] ([AuthManager]),
    [src/http/session.py] ([HTTPSession]) and [src/http/executor.py]
    ([HTTPExecutor]), with the models of [src/types/auth.py] and the
    exceptions of [src/exceptions/errors.py] they use.

    Python code that reads the clock, the disk and the network is written
    in a small monad: a computation takes the mutable state (the manager's
    in-memory cache, the files, the number of clock readings so far) and
    returns a value or a raised exception, the new state, and the list of
    effects it performed, in order.  What the outside world answers (clock
    readings, the identity provider, the business API, whether a path can
    be reached, opened for writing or removed) is an [Env], over which
    every theorem is quantified.

    Timestamps and delays are Python floats; they are rationals here, so
    rounding and the non-finite floats are outside of the model.  What is
    kept of the floats is where [float + int] refuses its int operand:
    [Py.float_of_int]. *)

From Stdlib Require Import ZArith QArith Qabs Qpower Lqa Lia Ascii String List Bool.
From stdpp Require Import gmap strings pretty.
Import ListNotations.

Set Warnings "-register-all".
#[local] Open Scope string_scope.
#[local] Open Scope list_scope.

(** ** JSON values, as [json.load] and [response.json()] return them *)

Inductive json : Type :=
  | JNull
  | JBool (b : bool)
  | JInt (z : Z)
  | JFloat (q : Q)
  | JStr (s : string)
  | JList (l : list json)
  | JDict (d : gmap string json).

(** [module Py]: the few Python operations the code applies to values
    whose type is only known at run time. *)
Module Py.

(** Builtin and library exception classes that can be raised inside the
    modelled functions. *)
Inductive builtin : Type :=
  | TypeError
  | KeyError
  | AttributeError
  | OSError                (* with its subclasses, PermissionError among them *)
  | OverflowError
  | JSONDecodeError        (* json.JSONDecodeError *)
  | ValidationError.       (* pydantic.ValidationError *)

(** [x < y] on floats. *)
Definition ltb (x y : Q) : bool :=
  (Qnum x * QDen y <? Qnum y * QDen x)%Z.

(** [field in v]: key membership for a dict, element membership for a
    list, substring test for a str; anything else is not a container. *)
Definition contains (field : string) (v : json) : builtin + bool :=
  match v with
  | JDict d => inr (bool_decide (is_Some (d !! field)))
  | JList l =>
      inr (existsb (fun x => match x with JStr s => String.eqb s field | _ => false end) l)
  | JStr s => inr (bool_decide (is_Some (String.index 0 field s)))
  | JNull | JBool _ | JInt _ | JFloat _ => inl TypeError
  end.

(** [all(field in v for field in fields)]: stops at the first [False],
    raises at the first [TypeError]. *)
Fixpoint all_in (fields : list string) (v : json) : builtin + bool :=
  match fields with
  | [] => inr true
  | f :: rest =>
      match contains f v with
      | inl e => inl e
      | inr false => inr false
      | inr true => all_in rest v
      end
  end.

(** [v[key]] for a str key. *)
Definition getitem (v : json) (key : string) : builtin + json :=
  match v with
  | JDict d => match d !! key with Some x => inr x | None => inl KeyError end
  | _ => inl TypeError
  end.

(** [d.get(key, default)] on a dict. *)
Definition dict_get (d : gmap string json) (key : string) (default : json) : json :=
  match d !! key with Some x => x | None => default end.

(** [v.get(key, default)]: only a dict has the method. *)
Definition get (v : json) (key : string) (default : json) : builtin + json :=
  match v with
  | JDict d => inr (dict_get d key default)
  | _ => inl AttributeError
  end.

(** The ints a float operation converts are those below [float_limit] in
    absolute value: the limit is halfway between the largest float,
    [2^1024 - 2^971], and [2^1024], and rounds to the latter. *)
Definition float_limit : Z := 2 ^ 1024 - 2 ^ 970.

(** The int operand [n] of [x + n] for a float [x]: an int that is too
    large raises [OverflowError] (int too large to convert to float). *)
Definition float_of_int (n : Z) : builtin + Q :=
  if (Z.abs n <? float_limit)%Z then inr (inject_Z n) else inl OverflowError.

(** [x + n] for a float [x] and an int [n]. *)
Definition float_add_int (x : Q) (n : Z) : builtin + Q :=
  match float_of_int n with
  | inr y => inr (x + y)%Q
  | inl e => inl e
  end.

(** [v + n] for an int [n]: defined on numbers (bool included).  The sum
    of two ints is an int, of any size; a float converts [n]. *)
Definition add_int (v : json) (n : Z) : builtin + Q :=
  match v with
  | JInt z => inr (inject_Z z + inject_Z n)%Q
  | JFloat q => float_add_int q n
  | JBool b => inr (inject_Z (if b then 1 else 0) + inject_Z n)%Q
  | _ => inl TypeError
  end.

(** [s.lower()], on the ASCII letters; bytes of other characters are
    kept, and no other character lowers to an ASCII letter of
    ["bearer"]. *)
Definition lower_ascii (c : ascii) : ascii :=
  let n := Ascii.nat_of_ascii c in
  if (65 <=? n)%nat && (n <=? 90)%nat then Ascii.ascii_of_nat (n + 32) else c.

Fixpoint lower (s : string) : string :=
  match s with
  | EmptyString => EmptyString
  | String c rest => String (lower_ascii c) (lower rest)
  end.

End Py.

Arguments Py.float_limit : simpl never.
Arguments Py.float_of_int : simpl never.
Arguments Py.float_add_int : simpl never.

(** ** pydantic

    Field validation is pydantic's: a value may be converted to the type
    of the field or refused ([None], a [ValidationError]).  Only what it
    does on a value that already has the field's type is fixed here. *)
Class Pydantic : Type := {
  validate_int : json -> option Z;
  validate_str : json -> option string;
  validate_list : json -> option (list json);
  validate_int_int : forall z, validate_int (JInt z) = Some z;
  validate_str_str : forall s, validate_str (JStr s) = Some s;
  validate_list_list : forall l, validate_list (JList l) = Some l;
}.

(** The validation that accepts a value of the field's type and nothing
    else. *)
Definition strict_int (v : json) : option Z :=
  match v with JInt z => Some z | _ => None end.
Definition strict_str (v : json) : option string :=
  match v with JStr s => Some s | _ => None end.
Definition strict_list (v : json) : option (list json) :=
  match v with JList l => Some l | _ => None end.

#[export] Instance strict_pydantic : Pydantic := {|
  validate_int := strict_int;
  validate_str := strict_str;
  validate_list := strict_list;
  validate_int_int := fun _ => eq_refl;
  validate_str_str := fun _ => eq_refl;
  validate_list_list := fun _ => eq_refl;
|}.

(** ** [src/types/auth.py] *)

Record AuthCredentials : Type := {
  consumer_key : string;
  consumer_secret : string;
}.

Record CertificateConfig : Type := {
  path : string;
  password : string;
}.

Record TokenResponse : Type := {
  expires_in : Z;
  scope : string;
  token_type : string;
  access_token : string;
  jwt_token : string;
  jwt_pucomex : option string;
}.

Record AuthErrorResponse : Type := {
  timestamp : string;
  status : Z;
  error : string;
  message : string;
  details : list json;
  trackerId : option string;
  err_path : string;
}.

(** [src/config.py], [Environment]. *)
Inductive Environment : Type := TRIAL | PRODUCTION.

Definition Environment_value (e : Environment) : string :=
  match e with TRIAL => "Trial" | PRODUCTION => "Production" end.

Definition AUTH_URL_TRIAL : string := "https://autenticacao.sapi.serpro.gov.br/authenticate".
Definition AUTH_URL_PRODUCTION : string := "https://autenticacao.sapi.serpro.gov.br/authenticate".

Definition get_auth_url (environment : Environment) : string :=
  match environment with
  | TRIAL => AUTH_URL_TRIAL
  | PRODUCTION => AUTH_URL_PRODUCTION
  end.

Section Models.
Context `{Pydantic}.

(** [str | None] field. *)
Definition validate_opt_str (v : json) : option (option string) :=
  match v with
  | JNull => Some None
  | _ => match validate_str v with Some s => Some (Some s) | None => None end
  end.

(** [TokenResponse.validate_token_type]. *)
Definition validate_token_type (v : string) : option string :=
  if String.eqb (Py.lower v) "bearer" then Some v else None.

(** [TokenResponse] from keyword arguments: every field but [jwt_pucomex] is
    required, unknown keys are ignored; [None] is a
    [pydantic.ValidationError]. *)
Definition TokenResponse_init (kwargs : gmap string json) : option TokenResponse :=
  match kwargs !! "expires_in", kwargs !! "scope", kwargs !! "token_type",
        kwargs !! "access_token", kwargs !! "jwt_token" with
  | Some e, Some s, Some ty, Some a, Some j =>
      match validate_int e, validate_str s,
            validate_str ty ≫= validate_token_type,
            validate_str a, validate_str j,
            validate_opt_str (Py.dict_get kwargs "jwt_pucomex" JNull) with
      | Some e', Some s', Some ty', Some a', Some j', Some p' =>
          Some {| expires_in := e'; scope := s'; token_type := ty';
                  access_token := a'; jwt_token := j'; jwt_pucomex := p' |}
      | _, _, _, _, _, _ => None
      end
  | _, _, _, _, _ => None
  end.

(** [AuthErrorResponse] from keyword arguments. *)
Definition AuthErrorResponse_init (kwargs : gmap string json) : option AuthErrorResponse :=
  match kwargs !! "timestamp", kwargs !! "status", kwargs !! "error",
        kwargs !! "message", kwargs !! "path" with
  | Some t, Some s, Some e, Some m, Some p =>
      match validate_str t, validate_int s, validate_str e, validate_str m,
            validate_list (Py.dict_get kwargs "details" (JList [])),
            validate_opt_str (Py.dict_get kwargs "trackerId" JNull),
            validate_str p with
      | Some t', Some s', Some e', Some m', Some d', Some k', Some p' =>
          Some {| timestamp := t'; status := s'; error := e'; message := m';
                  details := d'; trackerId := k'; err_path := p' |}
      | _, _, _, _, _, _, _ => None
      end
  | _, _, _, _, _ => None
  end.

End Models.

(** ** Responses and exceptions *)

(** A response of [requests] or [httpx]: [json_body] is what
    [response.json()] returns, [None] when it raises. *)
Record Response : Type := {
  status_code : Z;
  text : string;
  json_body : option json;
}.

(** The classes of [httpx] exceptions the code distinguishes.
    [TimeoutException] and [NetworkError] are transport errors;
    [RequestError] stands for every other [httpx.RequestError]. *)
Inductive httpx_class : Type :=
  | TimeoutException
  | NetworkError
  | RequestError
  | HTTPStatusError.

(** A body carried by an error: parsed JSON or raw text. *)
Inductive Body : Type :=
  | BodyJSON (v : json)
  | BodyText (s : string).

(** [src/exceptions/errors.py], with the library exceptions that cross the
    modelled code: [RequestException] of [requests] with the status of its
    [response] attribute when it has one, the exceptions of [httpx], and
    [OtherException] for any other.  [HTTPError] keeps the exception it
    was raised from. *)
Inductive Exn : Type :=
  | Builtin (cls : Py.builtin)
  | RequestException (descr : string) (response_status : option Z)
  | HttpxError (cls : httpx_class) (descr : string) (response : option Response)
  | OtherException (descr : string)
  | HTTPError (status_code : Z) (message : string) (response_body : option Body)
              (cause : option Exn)
  | APIError (message : string) (status_code : Z)
             (response_body : option (gmap string json))
  | AuthError (message : string) (status_code : Z) (details : gmap string string)
  | InvalidCredentialsError (message : string) (status_code : Z)
                            (details : gmap string string)
  | CertificateError (message : string) (status_code : Z)
                     (details : gmap string string).

(** ** The world *)

(** What a file holds, up to [open] and [json.load].  What [json.dump]
    wrote, [json.load] reads back: the values dumped here are dicts with
    str keys of ints, strs, [None] and floats. *)
Inductive FileContent : Type :=
  | Unreadable             (* open or decoding raises *)
  | NotJSON                (* json.load raises JSONDecodeError *)
  | JSONText (v : json).   (* json.load returns v *)

(** The levels the modelled code logs at. *)
Inductive Level : Type := DEBUG | WARNING.

(** A request handed to [AsyncClient.request]. *)
Record Request : Type := {
  method : string;
  url : string;
  headers : gmap string string;
  body : json;
}.

(** Effects, in the order they happen.  A logged message that interpolates
    an exception or a request body is kept up to that point. *)
Inductive Event : Type :=
  | FileExists (p : string)
  | FileRead (p : string)
  | FileWrite (p : string) (v : json)
  | FileUnlink (p : string)
  | AuthPost (auth_url : string)
  | ClientRequest (attempt : Z) (req : Request)
  | Sleep (seconds : Q)
  | Log (level : Level) (msg : string).

(** The mutable state: the two cache attributes of the manager, the files,
    and how many times the clock was read. *)
Record World : Type := {
  _cached_token : option TokenResponse;
  _token_expires_at : option Q;
  files : gmap string FileContent;
  clock_reads : nat;
}.

(** What the outside answers.  [session_post] stands for the whole
    exchange of [get_token]: creating the [requests] session, mounting the
    PKCS12 adapter and posting.  [client_request k] is what the [httpx]
    client does at attempt [k] of a request.

    [can_stat p] is false when [stat] of [p] is refused, so that
    [Path.exists()] raises: a directory on the way to [p] cannot be
    searched ([PermissionError]).  Such a path can be neither opened for
    writing nor removed, which is what the two laws say. *)
Record Env : Type := {
  time_time : nat -> Q;
  session_post : Exn + Response;
  client_request : Z -> Exn + Response;
  can_stat : string -> bool;
  can_write : string -> bool;
  can_unlink : string -> bool;
  str_exn : Exn -> string;
  debug_enabled : bool;
  can_write_stat : forall p, can_write p = true -> can_stat p = true;
  can_unlink_stat : forall p, can_unlink p = true -> can_stat p = true;
}.

(** ** The monad *)

Inductive Outcome (A : Type) : Type :=
  | Returned (a : A)
  | Raised (e : Exn).
Arguments Returned {A} a.
Arguments Raised {A} e.

Definition M (A : Type) : Type := World -> Outcome A * World * list Event.

Definition ret {A} (a : A) : M A := fun w => (Returned a, w, []).

Definition bind {A B} (m : M A) (k : A -> M B) : M B := fun w =>
  match m w with
  | (Returned a, w1, ev1) =>
      match k a w1 with (r, w2, ev2) => (r, w2, ev1 ++ ev2) end
  | (Raised e, w1, ev1) => (Raised e, w1, ev1)
  end.

Definition raise {A} (e : Exn) : M A := fun w => (Raised e, w, []).

(** [try: m  except ... as e: handler e]; a handler that does not catch
    [e] raises it again. *)
Definition try_except {A} (m : M A) (handler : Exn -> M A) : M A := fun w =>
  match m w with
  | (Returned a, w1, ev1) => (Returned a, w1, ev1)
  | (Raised e, w1, ev1) =>
      match handler e w1 with (r, w2, ev2) => (r, w2, ev1 ++ ev2) end
  end.

Notation "x <- c1 ;; c2" := (bind c1 (fun x => c2))
  (at level 100, c1 at next level, right associativity).
Notation "c1 ;; c2" := (bind c1 (fun _ => c2))
  (at level 100, right associativity).

Definition lift {A} (r : Py.builtin + A) : M A :=
  match r with inl cls => raise (Builtin cls) | inr a => ret a end.

Definition get_world : M World := fun w => (Returned w, w, []).

Definition emit (ev : Event) : M unit := fun w => (Returned tt, w, [ev]).

Definition log (level : Level) (msg : string) : M unit := emit (Log level msg).

(** Attribute and file updates. *)
Definition with_cached_token (t : option TokenResponse) (w : World) : World :=
  {| _cached_token := t; _token_expires_at := _token_expires_at w;
     files := files w; clock_reads := clock_reads w |}.

Definition with_token_expires_at (e : option Q) (w : World) : World :=
  {| _cached_token := _cached_token w; _token_expires_at := e;
     files := files w; clock_reads := clock_reads w |}.

Definition with_files (fs : gmap string FileContent) (w : World) : World :=
  {| _cached_token := _cached_token w; _token_expires_at := _token_expires_at w;
     files := fs; clock_reads := clock_reads w |}.

Definition tick (w : World) : World :=
  {| _cached_token := _cached_token w; _token_expires_at := _token_expires_at w;
     files := files w; clock_reads := S (clock_reads w) |}.

Definition modify (f : World -> World) : M unit := fun w => (Returned tt, f w, []).

Section Effects.
Context (env : Env).

(** [time.time()]. *)
Definition now : M Q := fun w =>
  (Returned (time_time env (clock_reads w)), tick w, []).

(** [Path.exists()]: an [OSError] of [stat] other than the file not being
    there is raised again. *)
Definition path_exists (p : string) : M bool :=
  emit (FileExists p);;
  if can_stat env p then
    w <- get_world;;
    ret (bool_decide (is_Some (files w !! p)))
  else raise (Builtin Py.OSError).

(** [with open(p, "r", encoding="utf-8") as f: json.load(f)]. *)
Definition read_json (p : string) : M json :=
  emit (FileRead p);;
  w <- get_world;;
  match files w !! p with
  | Some (JSONText v) => ret v
  | Some NotJSON => raise (Builtin Py.JSONDecodeError)
  | Some Unreadable | None => raise (Builtin Py.OSError)
  end.

(** [with open(p, "w", encoding="utf-8") as f: json.dump(v, f, indent=2)]. *)
Definition write_json (p : string) (v : json) : M unit :=
  if can_write env p then
    emit (FileWrite p v);;
    w <- get_world;;
    modify (with_files (<[p := JSONText v]> (files w)))
  else raise (Builtin Py.OSError).

(** [Path.unlink()]. *)
Definition unlink (p : string) : M unit :=
  w <- get_world;;
  if can_unlink env p && bool_decide (is_Some (files w !! p)) then
    emit (FileUnlink p);;
    modify (with_files (delete p (files w)))
  else raise (Builtin Py.OSError).

End Effects.

(** ** [src/auth/manager.py] *)

(** The attributes [__init__] sets once; the two cache attributes are in
    the [World]. *)
Record AuthManager : Type := {
  credentials : AuthCredentials;
  certificate : CertificateConfig;
  environment : Environment;
  token_storage_dir : string;
}.

Definition auth_url (self : AuthManager) : string :=
  get_auth_url (environment self).

Definition token_file_path (self : AuthManager) : string :=
  token_storage_dir self +:+ "/token.json".

Definition config_file_path (self : AuthManager) : string :=
  token_storage_dir self +:+ "/config.json".

(** Calling a pydantic model with the keyword arguments [data], which
    has to be a mapping. *)
Definition from_kwargs {A} (init : gmap string json -> option A) (data : json) : M A :=
  match data with
  | JDict d =>
      match init d with
      | Some a => ret a
      | None => raise (Builtin Py.ValidationError)
      end
  | _ => raise (Builtin Py.TypeError)
  end.

Definition json_of_opt_str (o : option string) : json :=
  match o with Some s => JStr s | None => JNull end.

(** The dict [_save_token_to_file] dumps. *)
Definition token_data (token_response : TokenResponse) (saved_at : Q)
  : gmap string json :=
  <["expires_in" := JInt (expires_in token_response)]>
  (<["scope" := JStr (scope token_response)]>
  (<["token_type" := JStr (token_type token_response)]>
  (<["access_token" := JStr (access_token token_response)]>
  (<["jwt_token" := JStr (jwt_token token_response)]>
  (<["jwt_pucomex" := json_of_opt_str (jwt_pucomex token_response)]>
  (<["saved_at" := JFloat saved_at]> ∅)))))).

(** The dict [save_config] dumps. *)
Definition config_data (self : AuthManager) (saved_at : Q) : gmap string json :=
  <["consumer_key" := JStr (consumer_key (credentials self))]>
  (<["consumer_secret" := JStr (consumer_secret (credentials self))]>
  (<["certificate_path" := JStr (path (certificate self))]>
  (<["certificate_password" := JStr (password (certificate self))]>
  (<["environment" := JStr (Environment_value (environment self))]>
  (<["saved_at" := JFloat saved_at]> ∅))))).

(** [x if x is not None else y]. *)
Definition or_else {A} (x y : option A) : option A :=
  match x with Some a => Some a | None => y end.

Section AuthManager.
Context `{Pydantic} (env : Env) (self : AuthManager).

Definition _is_token_valid (token : option TokenResponse) (expires_at : option Q)
  : M bool :=
  w <- get_world;;
  let token_to_check := or_else token (_cached_token w) in
  let expires_at_to_check := or_else expires_at (_token_expires_at w) in
  match token_to_check, expires_at_to_check with
  | Some _, Some e =>
      (* Add a 60 second buffer before expiration *)
      let buffer_seconds : Q := 60%Q in
      t <- now env;;
      ret (Py.ltb t (e - buffer_seconds))
  | _, _ => ret false
  end.

Definition _save_token_to_file (token_response : TokenResponse) : M unit :=
  try_except
    (saved_at <- now env;;
     write_json env (token_file_path self)
       (JDict (token_data token_response saved_at));;
     log DEBUG ("Token saved to " +:+ token_file_path self))
    (fun e => log WARNING "Failed to save token to file").

Definition required_fields : list string :=
  ["expires_in"; "access_token"; "jwt_token"; "token_type"].

Definition _load_token_from_file : M (option TokenResponse * option Q) :=
  found <- path_exists env (token_file_path self);;
  if negb found then
    log DEBUG "No token file found";;
    ret (None, None)
  else
    try_except
      (token_data <- read_json (token_file_path self);;
       (* Validate required fields *)
       complete <- lift (Py.all_in required_fields token_data);;
       if negb complete then
         log WARNING "Token file missing required fields";;
         ret (None, None)
       else
         (* Recreate TokenResponse *)
         v_expires_in <- lift (Py.getitem token_data "expires_in");;
         v_scope <- lift (Py.get token_data "scope" (JStr "default"));;
         v_token_type <- lift (Py.getitem token_data "token_type");;
         v_access_token <- lift (Py.getitem token_data "access_token");;
         v_jwt_token <- lift (Py.getitem token_data "jwt_token");;
         v_jwt_pucomex <- lift (Py.get token_data "jwt_pucomex" JNull);;
         let kwargs : gmap string json :=
           <["expires_in" := v_expires_in]>
           (<["scope" := v_scope]>
           (<["token_type" := v_token_type]>
           (<["access_token" := v_access_token]>
           (<["jwt_token" := v_jwt_token]>
           (<["jwt_pucomex" := v_jwt_pucomex]> ∅))))) in
         token_response <- from_kwargs TokenResponse_init (JDict kwargs);;
         (* Calculate expiration time *)
         t <- now env;;
         saved_at <- lift (Py.get token_data "saved_at" (JFloat t));;
         expires_at <- lift (Py.add_int saved_at (expires_in token_response));;
         log DEBUG ("Token loaded from " +:+ token_file_path self);;
         ret (Some token_response, Some expires_at))
      (fun e =>
         match e with
         | Builtin Py.JSONDecodeError =>
             log WARNING "Invalid JSON in token file";;
             ret (None, None)
         | _ =>
             log WARNING "Failed to load token from file";;
             ret (None, None)
         end).

Definition save_config : M unit :=
  try_except
    (saved_at <- now env;;
     write_json env (config_file_path self) (JDict (config_data self saved_at));;
     log DEBUG ("Auth config saved to " +:+ config_file_path self))
    (fun e => log WARNING "Failed to save auth config to file").

(** [response.json()] of [requests]: its decoding error is a
    [RequestException]. *)
Definition requests_json (response : Response) : M json :=
  match json_body response with
  | Some v => ret v
  | None => raise (RequestException "JSONDecodeError" None)
  end.

(** The message of an error response: the provider's, or [fallback] when
    the body is not an [AuthErrorResponse] (the same [try] block in the
    three error branches of [get_token]). *)
Definition error_message (response : Response) (fallback : string) : M string :=
  try_except
    (error_data <- requests_json response;;
     error_response <- from_kwargs AuthErrorResponse_init error_data;;
     ret (message error_response))
    (fun _ => ret fallback).

(** [session = requests.Session(); session.mount(...); session.post(...)].
    The headers and the form body come from [_build_auth_headers] and
    [_build_auth_body], which cannot fail; what the provider makes of them
    is in [session_post]. *)
Definition post_auth_request : M Response :=
  emit (AuthPost (auth_url self));;
  match session_post env with
  | inr response => ret response
  | inl e => raise e
  end.

(** [get_token], "Handle response": what is done with the identity
    provider's response. *)
Definition handle_auth_response (response : Response) : M TokenResponse :=
  if (status_code response =? 200)%Z then
    (* Parse successful response *)
    response_data <- requests_json response;;
    token_response <- from_kwargs TokenResponse_init response_data;;
    (* Cache token in memory *)
    modify (with_cached_token (Some token_response));;
    t <- now env;;
    expires_at <- lift (Py.float_add_int t (expires_in token_response));;
    modify (with_token_expires_at (Some expires_at));;
    (* Save token to file *)
    _save_token_to_file token_response;;
    (* Ensure config is saved (in case it wasn't saved during init) *)
    match environment self with
    | PRODUCTION => save_config
    | TRIAL => ret tt
    end;;
    ret token_response
  else if (status_code response =? 400)%Z then
    (* Certificate error *)
    message <- error_message response
                 "Não foi possível identificar um certificado digital válido.";;
    raise (CertificateError message 400 {["response" := text response]})
  else if (status_code response =? 401)%Z || (status_code response =? 403)%Z then
    (* Invalid credentials *)
    message <- error_message response "Credenciais inválidas.";;
    raise (InvalidCredentialsError message (status_code response)
             {["response" := text response]})
  else
    (* Other errors *)
    message <- error_message response
                 ("Authentication failed with status " +:+ pretty (status_code response));;
    raise (AuthError message (status_code response)
             {["response" := text response]}).

(** [get_token], the [except] clauses around the exchange. *)
Definition wrap_auth_failure (e : Exn) : M TokenResponse :=
  match e with
  | InvalidCredentialsError _ _ _ | CertificateError _ _ _ | AuthError _ _ _ =>
      (* Re-raise auth-specific errors *)
      raise e
  | RequestException _ response_status =>
      (* Wrap HTTP errors from requests *)
      let status_code := match response_status with Some c => c | None => 0%Z end in
      raise (HTTPError status_code
               ("HTTP error during authentication: " +:+ str_exn env e)
               None (Some e))
  | _ =>
      (* Wrap any other errors *)
      raise (HTTPError 0
               ("Unexpected error during authentication: " +:+ str_exn env e)
               None (Some e))
  end.

(** The last part of [get_token], from "Fetching new token from API" on:
    one exchange with the identity provider. *)
Definition fetch_new_token : M TokenResponse :=
  log DEBUG "Fetching new token from API";;
  try_except
    (response <- post_auth_request;;
     handle_auth_response response)
    wrap_auth_failure.

(** [get_token] after the in-memory check: the file, then the identity
    provider. *)
Definition get_token_from_file_or_api : M TokenResponse :=
  (* Try to load from file *)
  loaded <- _load_token_from_file;;
  let file_token := fst loaded in
  let file_expires_at := snd loaded in
  file_valid <- match file_token with
                | Some _ => _is_token_valid file_token file_expires_at
                | None => ret false
                end;;
  match (if file_valid then file_token else None) with
  | Some file_token =>
      log DEBUG "Using token from file";;
      (* Update cache *)
      modify (with_cached_token (Some file_token));;
      modify (with_token_expires_at file_expires_at);;
      ret file_token
  | None =>
      (* Token not valid in cache or file, fetch new one *)
      fetch_new_token
  end.

Definition get_token : M TokenResponse :=
  (* Check in-memory cache first *)
  valid <- _is_token_valid None None;;
  w <- get_world;;
  match (if valid then _cached_token w else None) with
  | Some cached =>
      log DEBUG "Using cached token from memory";;
      ret cached
  | None => get_token_from_file_or_api
  end.

Definition clear_cache : M unit :=
  modify (with_cached_token None);;
  modify (with_token_expires_at None).

Definition clear_stored_token : M unit :=
  clear_cache;;
  try_except
    (found <- path_exists env (token_file_path self);;
     if found then
       unlink env (token_file_path self);;
       log DEBUG ("Token file deleted: " +:+ token_file_path self)
     else ret tt)
    (fun e => log WARNING "Failed to delete token file").

End AuthManager.

(** ** [src/http/session.py] *)

Record HTTPSession : Type := {
  timeout : Q;
  max_retries : Z;
  retry_backoff : Q;
}.

(** [range(n)]. *)
Definition range (n : Z) : list Z := map Z.of_nat (seq 0 (Z.to_nat n)).

(** What one turn of the retry loop decides: return the response, or go
    on with the remembered exception and the next delay. *)
Inductive Turn : Type :=
  | Done (response : Response)
  | Again (last_exception : Exn) (backoff : Q).

Section HTTPSession.
Context (env : Env) (self : HTTPSession).

(** [await self.client.request(...)]. *)
Definition send (attempt : Z) (req : Request) : M Response :=
  emit (ClientRequest attempt req);;
  match client_request env attempt with
  | inr response => ret response
  | inl e => raise e
  end.

(** The body of [for attempt in range(self.max_retries + 1)], over the
    attempts still to make. *)
Fixpoint request_loop (attempts : list Z) (req : Request)
    (last_exception : option Exn) (backoff : Q) : M (option Response) :=
  match attempts with
  | [] =>
      match last_exception with
      | Some e => raise e
      | None => ret None
      end
  | attempt :: rest =>
      turn <- try_except
                (response <- send attempt req;;
                 ret (Done response))
                (fun e =>
                   match e with
                   | HttpxError TimeoutException _ _ | HttpxError NetworkError _ _ =>
                       if (attempt <? max_retries self)%Z then
                         emit (Sleep backoff);;
                         ret (Again e (backoff * 2)%Q)
                       else raise e
                   | _ =>
                       (* Don't retry on HTTP errors (4xx, 5xx) *)
                       raise e
                   end);;
      match turn with
      | Done response => ret (Some response)
      | Again e backoff' => request_loop rest req (Some e) backoff'
      end
  end.

Definition request (req : Request) : M (option Response) :=
  request_loop (range (max_retries self + 1)) req None (retry_backoff self).

End HTTPSession.

(** ** [src/http/executor.py] *)

(** [IntegraConfig] of [src/config.py], the fields [execute] reads. *)
Record IntegraConfig : Type := {
  config_environment : Environment;
  token : string;
  base_url : option string;
  auth_manager : option AuthManager;
}.

Definition api_base_url (config : IntegraConfig) : string :=
  match base_url config with
  | Some (String c rest) => String c rest
  | _ =>
      match config_environment config with
      | TRIAL => "https://gateway.apiserpro.serpro.gov.br/integra-contador-trial"
      | PRODUCTION => "https://gateway.apiserpro.serpro.gov.br/integra-contador"
      end
  end.

Section HTTPExecutor.
Context `{Pydantic} (env : Env) (config : IntegraConfig) (session : HTTPSession).

(** [response.json()] of [httpx]. *)
Definition httpx_json (response : Response) : M json :=
  match json_body response with
  | Some v => ret v
  | None => raise (Builtin Py.JSONDecodeError)
  end.

(** [execute], "Get token from auth_manager if available, otherwise use
    config token": the bearer token and the [jwt_token]. *)
Definition bearer_tokens : M (string * option string) :=
  match auth_manager config with
  | Some manager =>
      token_response <- get_token env manager;;
      ret (access_token token_response, Some (jwt_token token_response))
  | None =>
      (* In production with static token, jwt_token might not be available *)
      ret (token config, None)
  end.

Definition request_headers (token : string) (jwt_token : option string)
  : gmap string string :=
  let headers : gmap string string :=
    <["accept" := "text/plain"]>
    (<["Authorization" := "Bearer " +:+ token]>
    (<["Content-Type" := "application/json"]> ∅)) in
  (* Add jwt_token header in production when available *)
  match jwt_token, config_environment config with
  | Some (String c rest), PRODUCTION => <["jwt_token" := String c rest]> headers
  | _, _ => headers
  end.

(** [execute], from "Check for HTTP errors" to the end of the [try]
    block. *)
Definition handle_api_response (response : Response) : M json :=
  (* Check for HTTP errors *)
  if (400 <=? status_code response)%Z then
    error_body <- try_except
                    (v <- httpx_json response;; ret (BodyJSON v))
                    (fun _ => ret (BodyText (text response)));;
    if (500 <=? status_code response)%Z then
      raise (HTTPError (status_code response)
               ("Server error: " +:+ pretty (status_code response))
               (Some error_body) None)
    else
      raise (APIError ("API error: " +:+ pretty (status_code response))
               (status_code response)
               (match error_body with
                | BodyJSON (JDict d) => Some d
                | _ => None
                end))
  else
    (* Parse response *)
    try_except
      (httpx_json response)
      (fun _ => ret (JDict {["text" := JStr (text response)]})).

(** [execute], the [except] clauses. *)
Definition wrap_request_failure (e : Exn) : M json :=
  match e with
  | HttpxError HTTPStatusError _ (Some response) =>
      raise (HTTPError (status_code response) (str_exn env e)
               (Some (BodyText (text response))) None)
  | HttpxError HTTPStatusError _ None =>
      raise (Builtin Py.AttributeError)
  | HttpxError _ _ _ =>
      raise (HTTPError 0 ("Request failed: " +:+ str_exn env e) None None)
  | _ => raise e
  end.

Definition api_request (endpoint : string) (body : json)
    (tokens : string * option string) : Request :=
  {| method := "POST";
     url := api_base_url config +:+ "/v1/" +:+ endpoint;
     headers := request_headers (fst tokens) (snd tokens);
     body := body |}.

Definition execute (endpoint : string) (body : json) : M json :=
  tokens <- bearer_tokens;;
  (if debug_enabled env then
     log DEBUG ("Request URL: " +:+ api_base_url config +:+ "/v1/" +:+ endpoint);;
     log DEBUG "Request body: "
   else ret tt);;
  try_except
    (response <- request env session (api_request endpoint body tokens);;
     match response with
     | None => raise (Builtin Py.AttributeError)
     | Some response => handle_api_response response
     end)
    wrap_request_failure.

End HTTPExecutor.

(** * Observing a run *)

Definition result {A} (r : Outcome A * World * list Event) : Outcome A := fst (fst r).
Definition final {A} (r : Outcome A * World * list Event) : World := snd (fst r).
Definition events {A} (r : Outcome A * World * list Event) : list Event := snd r.

Definition is_post (ev : Event) : bool :=
  match ev with AuthPost _ => true | _ => false end.

Definition touches_disk (ev : Event) : bool :=
  match ev with
  | FileExists _ | FileRead _ | FileWrite _ _ | FileUnlink _ => true
  | _ => false
  end.

Definition is_attempt (ev : Event) : bool :=
  match ev with ClientRequest _ _ => true | _ => false end.

(** Requests sent to the identity provider. *)
Definition network_requests (evs : list Event) : nat :=
  length (List.filter is_post evs).

Definition disk_accesses (evs : list Event) : nat :=
  length (List.filter touches_disk evs).

(** Attempts of [HTTPSession.request], and the delays slept, in order. *)
Definition attempts (evs : list Event) : nat :=
  length (List.filter is_attempt evs).

Fixpoint delays (evs : list Event) : list Q :=
  match evs with
  | [] => []
  | Sleep d :: rest => d :: delays rest
  | _ :: rest => delays rest
  end.

(** Same cache and same files; the clock may have been read. *)
Definition same_store (w w' : World) : Prop :=
  _cached_token w' = _cached_token w /\
  _token_expires_at w' = _token_expires_at w /\
  files w' = files w /\
  (clock_reads w <= clock_reads w')%nat.

(** No constraint on the final state. *)
Definition any_store (w w' : World) : Prop := True.

(** [m] sends nothing to the identity provider, and relates the state it
    starts from to the one it ends in by [R]. *)
Definition obeys (R : World -> World -> Prop) {A} (m : M A) : Prop :=
  forall w, R w (final (m w)) /\ network_requests (events (m w)) = 0%nat.

Definition quiet {A} (m : M A) : Prop := obeys same_store m.
Definition silent {A} (m : M A) : Prop := obeys any_store m.

(** [m] never raises. *)
Definition returns {A} (m : M A) : Prop :=
  forall w, exists a, result (m w) = Returned a.

(** The value and the final state of [_is_token_valid], in closed form. *)
Definition valid_now (env : Env) (w : World) (token : option TokenResponse)
    (expires_at : option Q) : bool :=
  match or_else token (_cached_token w), or_else expires_at (_token_expires_at w) with
  | Some _, Some e => Py.ltb (time_time env (clock_reads w)) (e - 60)
  | _, _ => false
  end.

Definition after_check (w : World) (token : option TokenResponse)
    (expires_at : option Q) : World :=
  match or_else token (_cached_token w), or_else expires_at (_token_expires_at w) with
  | Some _, Some _ => tick w
  | _, _ => w
  end.

(** What [fetch_new_token] does first. *)
Definition fetch_prefix (self : AuthManager) : list Event :=
  [Log DEBUG "Fetching new token from API"; AuthPost (auth_url self)].

(** The message of an authentication error: the provider's when the body
    is an error response, the fallback otherwise. *)
Definition provider_message `{Pydantic} (response : Response) (fallback : string)
  : string :=
  match json_body response with
  | Some (JDict d) =>
      match AuthErrorResponse_init d with
      | Some error_response => message error_response
      | None => fallback
      end
  | _ => fallback
  end.

(** The fallback message of each error branch of [get_token]. *)
Definition fallback_message (status_code : Z) : string :=
  if (status_code =? 400)%Z
  then "Não foi possível identificar um certificado digital válido."
  else if (status_code =? 401)%Z || (status_code =? 403)%Z
  then "Credenciais inválidas."
  else "Authentication failed with status " +:+ pretty status_code.

(** The error [get_token] raises for a response whose status is not 200. *)
Definition auth_error `{Pydantic} (response : Response) : Exn :=
  let msg := provider_message response (fallback_message (status_code response)) in
  let details : gmap string string := {["response" := text response]} in
  if (status_code response =? 400)%Z
  then CertificateError msg 400 details
  else if (status_code response =? 401)%Z || (status_code response =? 403)%Z
  then InvalidCredentialsError msg (status_code response) details
  else AuthError msg (status_code response) details.



(** The invariant of a [TokenResponse]: it passed [validate_token_type]. *)
Definition bearer (t : TokenResponse) : Prop :=
  String.eqb (Py.lower (token_type t)) "bearer" = true.

(** [httpx.TimeoutException] and [httpx.NetworkError]. *)
Definition is_transport_error (e : Exn) : bool :=
  match e with
  | HttpxError TimeoutException _ _ | HttpxError NetworkError _ _ => true
  | _ => false
  end.

(** The trace of [retries + 1] failed attempts from [attempt] on: a sleep
    between two attempts, the delay doubling. *)
Fixpoint failing_trace (req : Request) (attempt : Z) (backoff : Q) (retries : nat)
  : list Event :=
  match retries with
  | O => [ClientRequest attempt req]
  | S n =>
      ClientRequest attempt req :: Sleep backoff
        :: failing_trace req (attempt + 1) (backoff * 2)%Q n
  end.

(** [base, 2 base, 4 base, ...]: [n] delays. *)
Definition backoff_delays (base : Q) (n : nat) : list Q :=
  map (fun k => (base * 2 ^ Z.of_nat k)%Q) (seq 0 n).

(** The body the specification gives both business errors: the parsed JSON
    when the response body is JSON, its raw text otherwise. *)
Definition body_of_response (response : Response) : Body :=
  match json_body response with
  | Some v => BodyJSON v
  | None => BodyText (text response)
  end.

(** The body an [HTTPError] or an [APIError] carries. *)
Definition carried_body (e : Exn) : option Body :=
  match e with
  | HTTPError _ _ response_body _ => response_body
  | APIError _ _ (Some d) => Some (BodyJSON (JDict d))
  | _ => None
  end.

(** ** Sample data *)

Definition sample_token : TokenResponse :=
  {| expires_in := 2000; scope := "default"; token_type := "Bearer";
     access_token := "tok1"; jwt_token := "jwt1"; jwt_pucomex := None |}.

(** A token that only the disk holds. *)
Definition disk_token : TokenResponse :=
  {| expires_in := 3000; scope := "default"; token_type := "bearer";
     access_token := "tok-disk"; jwt_token := "jwt-disk"; jwt_pucomex := None |}.

(** A token whose [expires_in] no float holds. *)
Definition eternal_token : TokenResponse :=
  {| expires_in := Py.float_limit; scope := "default"; token_type := "Bearer";
     access_token := "tok9"; jwt_token := "jwt9"; jwt_pucomex := None |}.

Definition eternal_token_json : gmap string json :=
  <["expires_in" := JInt Py.float_limit]>
  (<["scope" := JStr "default"]>
  (<["token_type" := JStr "Bearer"]>
  (<["access_token" := JStr "tok9"]>
  (<["jwt_token" := JStr "jwt9"]> ∅)))).

Definition sample_token_json : gmap string json :=
  <["expires_in" := JInt 2000]>
  (<["scope" := JStr "default"]>
  (<["token_type" := JStr "Bearer"]>
  (<["access_token" := JStr "tok1"]>
  (<["jwt_token" := JStr "jwt1"]> ∅)))).

Definition sample_manager : AuthManager :=
  {| credentials := {| consumer_key := "key"; consumer_secret := "secret" |};
     certificate := {| path := "/certs/client.p12"; password := "changeit" |};
     environment := PRODUCTION;
     token_storage_dir := "/var/integra/.auth" |}.

Definition sample_response (code : Z) (raw : string) (parsed : option json) : Response :=
  {| status_code := code; text := raw; json_body := parsed |}.

Definition timed_out : Exn := HttpxError TimeoutException "timed out" None.

(** A clock that advances one second per reading from 1000, the given
    identity provider and business API, and a disk whose paths can be
    reached and that accepts writes and removals or refuses them. *)
Definition sample_env (post : Exn + Response) (client : Z -> Exn + Response)
    (writable removable : bool) : Env :=
  {| time_time := fun n => inject_Z (1000 + Z.of_nat n);
     session_post := post;
     client_request := client;
     can_stat := fun _ => true;
     can_write := fun _ => writable;
     can_unlink := fun _ => removable;
     str_exn := fun _ => "";
     debug_enabled := false;
     can_write_stat := fun _ _ => eq_refl;
     can_unlink_stat := fun _ _ => eq_refl |}.

(** An identity provider that answers [post]. *)
Definition provider_env (post : Exn + Response) : Env :=
  sample_env post (fun _ => inl timed_out) true true.

Definition token_env : Env :=
  provider_env (inr (sample_response 200 "{}" (Some (JDict sample_token_json)))).

(** The same with a clock stopped at 1000. *)
Definition frozen_env : Env :=
  {| time_time := fun _ => 1000%Q;
     session_post := inr (sample_response 200 "{}" (Some (JDict sample_token_json)));
     client_request := fun _ => inl timed_out;
     can_stat := fun _ => true;
     can_write := fun _ => true;
     can_unlink := fun _ => true;
     str_exn := fun _ => "";
     debug_enabled := false;
     can_write_stat := fun _ _ => eq_refl;
     can_unlink_stat := fun _ _ => eq_refl |}.

(** The storage directory cannot be searched: no path can be reached,
    written or removed.  The identity provider answers [post]. *)
Definition locked_env (post : Exn + Response) : Env :=
  {| time_time := fun n => inject_Z (1000 + Z.of_nat n);
     session_post := post;
     client_request := fun _ => inl timed_out;
     can_stat := fun _ => false;
     can_write := fun _ => false;
     can_unlink := fun _ => false;
     str_exn := fun _ => "";
     debug_enabled := false;
     can_write_stat := fun _ H => H;
     can_unlink_stat := fun _ H => H |}.

Definition empty_world : World :=
  {| _cached_token := None; _token_expires_at := None; files := ∅; clock_reads := 0 |}.

(** A manager that holds [sample_token] until [expires_at]. *)
Definition cached_world (expires_at : Q) : World :=
  {| _cached_token := Some sample_token; _token_expires_at := Some expires_at;
     files := ∅; clock_reads := 0 |}.

(** A disk whose token file holds [c]. *)
Definition file_world (c : FileContent) : World :=
  {| _cached_token := None; _token_expires_at := None;
     files := {[token_file_path sample_manager := c]}; clock_reads := 0 |}.

Definition sample_session (retries : Z) : HTTPSession :=
  {| timeout := 30; max_retries := retries; retry_backoff := 1 |}.

Definition sample_config : IntegraConfig :=
  {| config_environment := TRIAL; token := "static-token";
     base_url := None; auth_manager := None |}.

Definition sample_request : Request :=
  {| method := "POST"; url := "https://example.test/v1/Consultar";
     headers := ∅; body := JDict ∅ |}.

Definition not_found : Response := sample_response 404 "Not Found" None.

(** * More of the SDK

    What follows adds to the embedding: observations of the runs of
    [HTTPSession.request], [HTTPExecutor.execute] and [get_token] that
    the later properties are stated with; [SavedAuthConfig] and
    [AuthManager.load_config]; the Basic header of the request for a
    token, with [base64.b64encode]; [ResponseBuilder.build] of
    [src/builder/response_builder.py]; the client an [HTTPSession]
    holds, with the defaults of [HTTPExecutor.__init__]; and the
    template registry with [load_template]. *)

(** ** [HTTPSession.request] *)

(** What attempt [a] of the retry loop settles, if anything: a response is
    returned; an exception is raised again, unless it is a transport error
    and retries are left. *)
Definition settles (env : Env) (self : HTTPSession) (a : Z)
  : option (Outcome (option Response)) :=
  match client_request env a with
  | inr response => Some (Returned (Some response))
  | inl e =>
      if is_transport_error e && (a <? max_retries self)%Z then None
      else Some (Raised e)
  end.

(** The attempts before attempt [k] fail with a transport error. *)
Definition transient_before (env : Env) (k : Z) : Prop :=
  forall j, (0 <= j < k)%Z ->
    exists e, client_request env j = inl e /\ is_transport_error e = true.

(** The time a run spends in [asyncio.sleep]. *)
Definition total_sleep (evs : list Event) : Q := fold_right Qplus 0%Q (delays evs).

(** An event of the retry loop: an attempt or a sleep. *)
Definition is_session_event (ev : Event) : bool :=
  match ev with ClientRequest _ _ | Sleep _ => true | _ => false end.

(** A client that times out before attempt [k] and gives [outcome] from
    then on. *)
Definition flaky_client (k : Z) (outcome : Exn + Response) : Z -> Exn + Response :=
  fun attempt => if (attempt <? k)%Z then inl timed_out else outcome.

(** The sample environment with the business API behind [client]. *)
Definition api_env (client : Z -> Exn + Response) : Env :=
  sample_env (inl timed_out) client true true.

(** ** Events of a computation *)

(** Every event of [m] satisfies [P]. *)
Definition only (P : Event -> bool) {A} (m : M A) : Prop :=
  forall w, forallb P (events (m w)) = true.

(** An event of the manager: anything but an attempt or a sleep of the
    retry loop. *)
Definition is_manager_event (ev : Event) : bool := negb (is_session_event ev).

(** An event that leaves the disk alone. *)
Definition off_disk (ev : Event) : bool := negb (touches_disk ev).

(** ** [HTTPExecutor.execute] *)

(** What [execute] logs before it sends the request. *)
Definition request_log (env : Env) (config : IntegraConfig) (endpoint : string)
  : list Event :=
  if debug_enabled env then
    [Log DEBUG ("Request URL: " +:+ api_base_url config +:+ "/v1/" +:+ endpoint);
     Log DEBUG "Request body: "]
  else [].

(** What [handle_api_response] makes of a response, in closed form. *)
Definition api_outcome (response : Response) : Outcome json :=
  if (400 <=? status_code response)%Z then
    Raised
      (if (500 <=? status_code response)%Z
       then HTTPError (status_code response)
              ("Server error: " +:+ pretty (status_code response))
              (Some (body_of_response response)) None
       else APIError ("API error: " +:+ pretty (status_code response))
              (status_code response)
              (match json_body response with
               | Some (JDict d) => Some d
               | _ => None
               end))
  else
    Returned (match json_body response with
              | Some v => v
              | None => JDict {["text" := JStr (text response)]}
              end).

(** What [wrap_request_failure] raises, in closed form. *)
Definition request_failure (env : Env) (e : Exn) : Exn :=
  match e with
  | HttpxError HTTPStatusError _ (Some response) =>
      HTTPError (status_code response) (str_exn env e)
        (Some (BodyText (text response))) None
  | HttpxError HTTPStatusError _ None => Builtin Py.AttributeError
  | HttpxError _ _ _ => HTTPError 0 ("Request failed: " +:+ str_exn env e) None None
  | _ => e
  end.

(** [execute] gets a token: the configuration has no manager, or the
    manager's [get_token] returns. *)
Definition token_available `{Pydantic} (env : Env) (config : IntegraConfig) (w : World)
  : Prop :=
  match auth_manager config with
  | Some manager => exists t, result (get_token env manager w) = Returned t
  | None => True
  end.

(** The [jwt_token] header of a request made with the token response [t]. *)
Definition jwt_header (config : IntegraConfig) (t : TokenResponse) : option string :=
  match config_environment config with
  | PRODUCTION => if String.eqb (jwt_token t) "" then None else Some (jwt_token t)
  | TRIAL => None
  end.

(** A production configuration whose tokens come from [sample_manager]. *)
Definition manager_config : IntegraConfig :=
  {| config_environment := PRODUCTION; token := "";
     base_url := None; auth_manager := Some sample_manager |}.

Definition ok_response : Response :=
  sample_response 200 "{}" (Some (JDict ∅)).

(** The sample environment with an identity provider that answers with
    [sample_token] and a business API that answers [ok_response]. *)
Definition full_env : Env :=
  sample_env (inr (sample_response 200 "{}" (Some (JDict sample_token_json))))
    (fun _ => inr ok_response) true true.

(** ** [AuthManager] *)

(** Whatever [m] returns satisfies [Q]. *)
Definition ensures {A} (Q : A -> Prop) (m : M A) : Prop :=
  forall w a w' evs, m w = (Returned a, w', evs) -> Q a.

(** What [_load_token_from_file] may return: nothing, or a token that
    passed validation together with its expiry. *)
Definition loaded_pair (loaded : option TokenResponse * option Q) : Prop :=
  match loaded with
  | (Some t, Some _) => bearer t
  | (None, None) => True
  | _ => False
  end.

(** The in-memory token, when there is one, passed validation. *)
Definition cache_ok (w : World) : Prop :=
  forall cached, _cached_token w = Some cached -> bearer cached.

(** The errors of [src/exceptions/errors.py] that [get_token] documents. *)
Definition is_sdk_error (e : Exn) : bool :=
  match e with
  | HTTPError _ _ _ _ | AuthError _ _ _ | InvalidCredentialsError _ _ _
  | CertificateError _ _ _ => true
  | _ => false
  end.

(** The JSON object [d] holds the fields of [t] as [_load_token_from_file]
    reads them: [scope] may be left to its default, [jwt_pucomex] may be
    absent. *)
Definition holds_token (d : gmap string json) (t : TokenResponse) : Prop :=
  d !! "expires_in" = Some (JInt (expires_in t)) /\
  d !! "token_type" = Some (JStr (token_type t)) /\
  d !! "access_token" = Some (JStr (access_token t)) /\
  d !! "jwt_token" = Some (JStr (jwt_token t)) /\
  Py.dict_get d "scope" (JStr "default") = JStr (scope t) /\
  Py.dict_get d "jwt_pucomex" JNull = json_of_opt_str (jwt_pucomex t).

(** A token that lives thirty seconds. *)
Definition brief_token : TokenResponse :=
  {| expires_in := 30; scope := "default"; token_type := "Bearer";
     access_token := "tok2"; jwt_token := "jwt2"; jwt_pucomex := None |}.

Definition brief_token_json : gmap string json :=
  <["expires_in" := JInt 30]>
  (<["scope" := JStr "default"]>
  (<["token_type" := JStr "Bearer"]>
  (<["access_token" := JStr "tok2"]>
  (<["jwt_token" := JStr "jwt2"]> ∅)))).

(** ** [src/types/auth.py], [SavedAuthConfig] *)

(** Validation of a [float] field, pydantic's as for the other fields:
    only what it does on a float is fixed. *)
Class PydanticFloat : Type := {
  validate_float : json -> option Q;
  validate_float_float : forall q, validate_float (JFloat q) = Some q;
}.

Definition strict_float (v : json) : option Q :=
  match v with JFloat q => Some q | _ => None end.

#[export] Instance strict_pydantic_float : PydanticFloat := {|
  validate_float := strict_float;
  validate_float_float := fun _ => eq_refl;
|}.

Module Saved.

Record SavedAuthConfig : Type := {
  consumer_key : string;
  consumer_secret : string;
  certificate_path : string;
  certificate_password : string;
  environment : string;
  saved_at : option Q;
}.

End Saved.

Section SavedModel.
Context `{Pydantic} `{PydanticFloat}.

(** [float | None] field. *)
Definition validate_opt_float (v : json) : option (option Q) :=
  match v with
  | JNull => Some None
  | _ => match validate_float v with Some q => Some (Some q) | None => None end
  end.

(** [SavedAuthConfig] from keyword arguments: every field but [saved_at]
    is required, unknown keys are ignored. *)
Definition SavedAuthConfig_init (kwargs : gmap string json)
  : option Saved.SavedAuthConfig :=
  match kwargs !! "consumer_key", kwargs !! "consumer_secret",
        kwargs !! "certificate_path", kwargs !! "certificate_password",
        kwargs !! "environment" with
  | Some k, Some s, Some p, Some pw, Some e =>
      match validate_str k, validate_str s, validate_str p, validate_str pw,
            validate_str e,
            validate_opt_float (Py.dict_get kwargs "saved_at" JNull) with
      | Some k', Some s', Some p', Some pw', Some e', Some at' =>
          Some {| Saved.consumer_key := k'; Saved.consumer_secret := s';
                  Saved.certificate_path := p'; Saved.certificate_password := pw';
                  Saved.environment := e'; Saved.saved_at := at' |}
      | _, _, _, _, _, _ => None
      end
  | _, _, _, _, _ => None
  end.

End SavedModel.

(** [src/config.py]: [Environment(value)], the member with that value;
    [None] is the [ValueError] of a value that no member has. *)
Definition Environment_of_value (value : string) : option Environment :=
  if String.eqb value "Trial" then Some TRIAL
  else if String.eqb value "Production" then Some PRODUCTION
  else None.

(** ** [AuthManager.load_config] *)

(** Where the package is installed: [sdk_root] is
    [Path(__file__).parent.parent.parent], [home] is [Path.home()].  A
    directory is a path of [files] that cannot be opened. *)
Record Install : Type := {
  sdk_root : string;
  home : string;
}.

Definition config_required_fields : list string :=
  ["consumer_key"; "consumer_secret"; "certificate_path"; "certificate_password";
   "environment"].

Section LoadConfig.
Context `{Pydantic} `{PydanticFloat} (env : Env) (install : Install).

(** "Determine config file path": the directory of the token storage. *)
Definition config_dir_of (token_storage_path : option string) : M string :=
  match token_storage_path with
  | None =>
      (* Default to .auth/ in SDK package directory *)
      in_source_tree <- path_exists env (sdk_root install +:+ "/src");;
      if in_source_tree then ret (sdk_root install +:+ "/.auth")
      else ret (home install +:+ "/.integra_sdk/.auth")
  | Some p => ret p
  end.

Definition load_config (token_storage_path : option string)
  : M (option Saved.SavedAuthConfig) :=
  config_dir <- config_dir_of token_storage_path;;
  let config_file_path := config_dir +:+ "/config.json" in
  found <- path_exists env config_file_path;;
  if negb found then
    log DEBUG "No auth config file found";;
    ret None
  else
    try_except
      (config_data <- read_json config_file_path;;
       (* Validate required fields *)
       complete <- lift (Py.all_in config_required_fields config_data);;
       if negb complete then
         log WARNING "Config file missing required fields";;
         ret None
       else
         (* Recreate SavedAuthConfig *)
         saved_config <- from_kwargs SavedAuthConfig_init config_data;;
         log DEBUG ("Auth config loaded from " +:+ config_file_path);;
         ret (Some saved_config))
      (fun e =>
         match e with
         | Builtin Py.JSONDecodeError =>
             log WARNING "Invalid JSON in config file";;
             ret None
         | _ =>
             log WARNING "Failed to load auth config from file";;
             ret None
         end).

End LoadConfig.

(** A configuration file that holds no configuration: it cannot be read,
    is not JSON, is not a JSON object, or is an object without one of
    [config_required_fields]. *)
Definition no_saved_config (c : FileContent) : Prop :=
  match c with
  | Unreadable | NotJSON => True
  | JSONText (JDict d) => exists f, In f config_required_fields /\ d !! f = None
  | JSONText _ => True
  end.

Definition sample_install : Install :=
  {| sdk_root := "/opt/sdk"; home := "/home/user" |}.

(** ** [base64.b64encode]

    The standard alphabet with padding (RFC 4648), on the bytes of a
    string: three bytes give four characters, a last group of one or two
    bytes is padded with [=]. *)
Module Base64.

Definition alphabet : string :=
  "ABCDEFGHIJKLMNOPQRSTUVWXYZabcdefghijklmnopqrstuvwxyz0123456789+/".

(** The character of a 6-bit value. *)
Definition char (i : N) : ascii :=
  match String.get (N.to_nat i) alphabet with
  | Some c => c
  | None => "="%char
  end.

Definition byte (c : ascii) : N := N_of_ascii c.

Fixpoint b64encode (s : string) : string :=
  match s with
  | EmptyString => EmptyString
  | String a EmptyString =>
      let n := (byte a * 16)%N in
      String (char (n / 64)) (String (char (n mod 64)) "==")
  | String a (String b EmptyString) =>
      let n := ((byte a * 256 + byte b) * 4)%N in
      String (char (n / 4096))
        (String (char ((n / 64) mod 64)) (String (char (n mod 64)) "="))
  | String a (String b (String c rest)) =>
      let n := (byte a * 65536 + byte b * 256 + byte c)%N in
      String (char (n / 262144))
        (String (char ((n / 4096) mod 64))
           (String (char ((n / 64) mod 64))
              (String (char (n mod 64)) (b64encode rest))))
  end.

(** The 6-bit value of a character of the alphabet; 64 for any other. *)
Fixpoint find (c : ascii) (s : string) (i : N) : N :=
  match s with
  | EmptyString => 64%N
  | String c' rest => if Ascii.eqb c c' then i else find c rest (N.succ i)
  end.

Definition index (c : ascii) : N := find c alphabet 0.

(** The inverse transformation, on groups of four characters. *)
Fixpoint decode (s : string) : string :=
  match s with
  | String c1 (String c2 (String c3 (String c4 rest))) =>
      let n := (index c1 * 262144 + index c2 * 4096
                + (if Ascii.eqb c3 "=" then 0 else index c3) * 64
                + (if Ascii.eqb c4 "=" then 0 else index c4))%N in
      let b1 := ascii_of_N (n / 65536) in
      let b2 := ascii_of_N ((n / 256) mod 256) in
      let b3 := ascii_of_N (n mod 256) in
      if Ascii.eqb c3 "=" then String b1 EmptyString
      else if Ascii.eqb c4 "=" then String b1 (String b2 EmptyString)
      else String b1 (String b2 (String b3 (decode rest)))
  | _ => EmptyString
  end.

End Base64.

(** ** [AuthManager], the request to the identity provider *)

Definition ROLE_TYPE : string := "TERCEIROS".

Definition _get_basic_auth_header (self : AuthManager) : string :=
  let credentials' :=
    consumer_key (credentials self) +:+ ":" +:+ consumer_secret (credentials self) in
  let encoded := Base64.b64encode credentials' in
  "Basic " +:+ encoded.

Definition _build_auth_headers (self : AuthManager) : gmap string string :=
  <["Authorization" := _get_basic_auth_header self]>
  (<["Role-Type" := ROLE_TYPE]>
  (<["Content-Type" := "application/x-www-form-urlencoded"]> ∅)).

Definition _build_auth_body : gmap string string :=
  {["grant_type" := "client_credentials"]}.

(** No [:] in [s]. *)
Fixpoint colon_free (s : string) : bool :=
  match s with
  | EmptyString => true
  | String c rest => negb (Ascii.eqb c ":") && colon_free rest
  end.

(** ** [src/builder/response_builder.py] *)

(** The two library functions [ResponseBuilder.build] calls: what
    [json.loads] gives for a string (the parsed value, or the exception it
    raises), and [str.strip].  They are left open: what is proved of
    [build] holds whatever they are. *)
Record PyLib : Type := {
  json_loads : string -> Exn + json;
  str_strip : string -> string;
}.

Module ResponseBuilder.

(** [build]: the ids are kept for compatibility and not used.  A value
    that is not a dict has no [copy] or no [get]. *)
Definition build (lib : PyLib) (id_sistema id_servico : string) (raw_response : json)
  : Exn + json :=
  match raw_response with
  | JDict d =>
      (* Return response as-is, only parse 'dados' if it's a JSON string *)
      let parsed := d in
      let dados_value := Py.dict_get parsed "dados" JNull in
      match dados_value with
      | JStr s =>
          if negb (String.eqb (str_strip lib s) "") then
            match json_loads lib s with
            | inr v => inr (JDict (<["dados" := v]> parsed))
            | inl (Builtin Py.JSONDecodeError) | inl (Builtin Py.TypeError) =>
                (* If parsing fails, keep as string *)
                inr (JDict (<["dados" := dados_value]> parsed))
            | inl e => inl e
            end
          else inr (JDict parsed)
      | _ =>
          (* If dados is already a dict/list or None, keep it as-is *)
          inr (JDict parsed)
      end
  | _ => inl (Builtin Py.AttributeError)
  end.

End ResponseBuilder.

(** A library whose [json.loads] knows two strings, and whose [strip]
    finds no whitespace. *)
Definition sample_lib : PyLib :=
  {| json_loads := fun s =>
       if String.eqb s "{}" then inr (JDict ∅)
       else if String.eqb s "[]" then inr (JList [])
       else inl (Builtin Py.JSONDecodeError);
     str_strip := fun s => s |}.

(** ** [HTTPSession], the client it holds

    The [httpx.AsyncClient] objects a session creates are told apart by
    the order of their creation: [created] counts them, and is not an
    attribute of the session. *)
Module Lifecycle.

Inductive Event : Type :=
  | Create (client : nat)      (* httpx.AsyncClient(timeout=self.timeout) *)
  | AClose (client : nat).     (* await client.aclose() *)

Record State : Type := {
  _client : option nat;
  created : nat;
}.

(** [__init__]. *)
Definition init : State := {| _client := None; created := 0 |}.

(** [self._client = httpx.AsyncClient(timeout=self.timeout)]. *)
Definition new_client (s : State) : nat * State * list Event :=
  (created s, {| _client := Some (created s); created := S (created s) |},
   [Create (created s)]).

Definition __aenter__ (s : State) : State * list Event :=
  let '(_, s', evs) := new_client s in (s', evs).

Definition __aexit__ (s : State) : State * list Event :=
  match _client s with
  | Some c => ({| _client := None; created := created s |}, [AClose c])
  | None => (s, [])
  end.

(** The property [client]. *)
Definition client (s : State) : nat * State * list Event :=
  match _client s with
  | None => new_client s
  | Some c => (c, s, [])
  end.

Definition close (s : State) : State * list Event :=
  match _client s with
  | Some c => ({| _client := None; created := created s |}, [AClose c])
  | None => (s, [])
  end.

(** A use of the session: one of its four entry points. *)
Inductive Call : Type := Enter | Exit | Client | Close.

Definition step (call : Call) (s : State) : State * list Event :=
  match call with
  | Enter => __aenter__ s
  | Exit => __aexit__ s
  | Client => let '(_, s', evs) := client s in (s', evs)
  | Close => close s
  end.

Fixpoint run (calls : list Call) (s : State) : State * list Event :=
  match calls with
  | [] => (s, [])
  | call :: rest =>
      let '(s1, evs1) := step call s in
      let '(s2, evs2) := run rest s1 in
      (s2, evs1 ++ evs2)
  end.

(** The clients that are open after [evs], given those open before. *)
Fixpoint live (evs : list Event) (open : list nat) : list nat :=
  match evs with
  | [] => open
  | Create c :: rest => live rest (open ++ [c])
  | AClose c :: rest => live rest (List.filter (fun c' => negb (Nat.eqb c' c)) open)
  end.

(** [__aenter__] is never called on a session that holds a client. *)
Fixpoint enters_fresh (calls : list Call) (s : State) : bool :=
  match calls with
  | [] => true
  | call :: rest =>
      match call, _client s with
      | Enter, Some _ => false
      | _, _ => enters_fresh rest (fst (step call s))
      end
  end.

(** The client the session holds, as a list. *)
Definition held (s : State) : list nat :=
  match _client s with Some c => [c] | None => [] end.

End Lifecycle.

(** ** [HTTPExecutor.__init__] *)

(** [HTTPSession()]: the defaults of [HTTPSession.__init__]. *)
Definition HTTPSession_default : HTTPSession :=
  {| timeout := 30; max_retries := 3; retry_backoff := 1 |}.

(** [self.session = session or HTTPSession()]. *)
Definition HTTPExecutor_session (session : option HTTPSession) : HTTPSession :=
  match session with
  | Some s => s
  | None => HTTPSession_default
  end.

(** ** [src/templates/registry.py] and [src/loader]

    The registry is the class attribute [_registry], a dict from pairs of
    upper-cased ids to template classes; it is passed along here.  A
    template class is what builds a template when called.  [str.upper] is
    the library's, and left open. *)
Module TemplateRegistry.

Section Registry.
Context (upper : string -> string) {Template : Type}.

Definition Registry : Type := gmap (string * string) (unit -> Template).

Definition register (_registry : Registry) (id_sistema id_servico : string)
    (template_class : unit -> Template) : Registry :=
  let key := (upper id_sistema, upper id_servico) in
  <[key := template_class]> _registry.

Definition get (_registry : Registry) (id_sistema id_servico : string)
  : option (unit -> Template) :=
  let key := (upper id_sistema, upper id_servico) in
  _registry !! key.

Definition is_registered (_registry : Registry) (id_sistema id_servico : string) : bool :=
  let key := (upper id_sistema, upper id_servico) in
  bool_decide (is_Some (_registry !! key)).

Definition clear (_registry : Registry) : Registry := ∅.

End Registry.

End TemplateRegistry.

(** [src/exceptions/errors.py], [RequestNotFoundError]. *)
Inductive LoaderError : Type :=
  | RequestNotFoundError (id_sistema id_servico : string).

Section Loader.
Context (upper : string -> string) {Template : Type}.

(** [src/loader/index.py]. *)
Definition get_template_class (_registry : TemplateRegistry.Registry)
    (id_sistema id_servico : string) : option (unit -> Template) :=
  TemplateRegistry.get upper _registry id_sistema id_servico.

Definition is_template_available (_registry : TemplateRegistry.Registry (Template := Template))
    (id_sistema id_servico : string) : bool :=
  TemplateRegistry.is_registered upper _registry id_sistema id_servico.

(** [src/loader/template_loader.py]. *)
Definition load_template (_registry : TemplateRegistry.Registry)
    (id_sistema id_servico : string) : LoaderError + Template :=
  let template_class := get_template_class _registry id_sistema id_servico in
  match template_class with
  | None => inl (RequestNotFoundError id_sistema id_servico)
  | Some template_class => inr (template_class tt)
  end.

(** The registry after the registrations [regs], made in order. *)
Definition registered (regs : list (string * string * (unit -> Template)))
    (_registry : TemplateRegistry.Registry) : TemplateRegistry.Registry :=
  fold_left
    (fun r reg => TemplateRegistry.register upper r (fst (fst reg)) (snd (fst reg)) (snd reg))
    regs _registry.

(** The registration is for the ids [id_sistema] and [id_servico], up to
    [upper]. *)
Definition registers (id_sistema id_servico : string)
    (reg : string * string * (unit -> Template)) : bool :=
  String.eqb (upper (fst (fst reg))) (upper id_sistema)
  && String.eqb (upper (snd (fst reg))) (upper id_servico).

End Loader.

(** [str.upper] on the ASCII letters. *)
Definition upper_ascii (c : ascii) : ascii :=
  let n := Ascii.nat_of_ascii c in
  if (97 <=? n)%nat && (n <=? 122)%nat then Ascii.ascii_of_nat (n - 32) else c.

Fixpoint ascii_upper (s : string) : string :=
  match s with
  | EmptyString => EmptyString
  | String c rest => String (upper_ascii c) (ascii_upper rest)
  end.

(** Two registrations of the same service, written in different case. *)
Definition sample_registrations : list (string * string * (unit -> string)) :=
  [("pgmei", "gerardas21", fun _ => "first");
   ("PGMEI", "GERARDAS21", fun _ => "second")].

(** * Facts *)

(** ** Comparisons and traces *)

Lemma ltb_lt x y : Py.ltb x y = true <-> (x < y)%Q.
Proof. unfold Py.ltb, Qlt. apply Z.ltb_lt. Qed.

Lemma ltb_ge x y : Py.ltb x y = false <-> (y <= x)%Q.
Proof. unfold Py.ltb, Qle. apply Z.ltb_ge. Qed.

Lemma network_requests_app e1 e2 :
  network_requests (e1 ++ e2) = (network_requests e1 + network_requests e2)%nat.
Proof. unfold network_requests. now rewrite List.filter_app, length_app. Qed.

Lemma network_requests_cons ev evs :
  network_requests (ev :: evs) =
    ((if is_post ev then 1 else 0) + network_requests evs)%nat.
Proof. unfold network_requests. simpl. now destruct (is_post ev). Qed.

Lemma posted_counts url evs : In (AuthPost url) evs -> network_requests evs <> 0%nat.
Proof.
  induction evs as [|ev evs IH]; intros Hin; [destruct Hin|].
  rewrite network_requests_cons. destruct Hin as [->|Hin]; simpl; [lia|].
  specialize (IH Hin). lia.
Qed.

#[export] Instance same_store_preorder : PreOrder same_store.
Proof.
  split.
  - intros w. repeat split. lia.
  - intros w1 w2 w3 (C1 & X1 & F1 & K1) (C2 & X2 & F2 & K2).
    repeat split; try congruence. lia.
Qed.

#[export] Instance any_store_preorder : PreOrder any_store.
Proof. split; repeat intro; exact I. Qed.

Lemma same_store_tick w : same_store w (tick w).
Proof. repeat split. simpl. lia. Qed.

Lemma after_check_same_store w token expires_at :
  same_store w (after_check w token expires_at).
Proof.
  unfold after_check.
  destruct (or_else token (_cached_token w)), (or_else expires_at (_token_expires_at w));
    (reflexivity || apply same_store_tick).
Qed.

(** ** The monad *)

Lemma bind_returned {A B} (m : M A) (k : A -> M B) w a w1 ev1 :
  m w = (Returned a, w1, ev1) ->
  bind m k w = (let '(r, w2, ev2) := k a w1 in (r, w2, ev1 ++ ev2)).
Proof. intros E. unfold bind. rewrite E. reflexivity. Qed.

Lemma bind_pure {A B} (m : M A) (k : A -> M B) w a w1 :
  m w = (Returned a, w1, []) -> bind m k w = k a w1.
Proof.
  intros E. unfold bind. rewrite E. now destruct (k a w1) as [[r w2] ev2].
Qed.

Lemma bind_raised {A B} (m : M A) (k : A -> M B) w e w1 ev1 :
  m w = (Raised e, w1, ev1) -> bind m k w = (Raised e, w1, ev1).
Proof. intros E. unfold bind. rewrite E. reflexivity. Qed.

Lemma try_returned {A} (m : M A) h w a w1 ev1 :
  m w = (Returned a, w1, ev1) -> try_except m h w = (Returned a, w1, ev1).
Proof. intros E. unfold try_except. now rewrite E. Qed.

Lemma try_raised {A} (m : M A) h w e w1 ev1 :
  m w = (Raised e, w1, ev1) ->
  try_except m h w = (let '(r, w2, ev2) := h e w1 in (r, w2, ev1 ++ ev2)).
Proof. intros E. unfold try_except. now rewrite E. Qed.

Section Obeys.
Context (R : World -> World -> Prop) `{!PreOrder R}.

Lemma obeys_ret {A} (a : A) : obeys R (ret a).
Proof. intros w. split; reflexivity. Qed.

Lemma obeys_raise {A} e : obeys R (@raise A e).
Proof. intros w. split; reflexivity. Qed.

Lemma obeys_bind {A B} (m : M A) (k : A -> M B) :
  obeys R m -> (forall a, obeys R (k a)) -> obeys R (bind m k).
Proof.
  intros Hm Hk w. unfold bind. specialize (Hm w). unfold final, events in *.
  destruct (m w) as [[[a|e] w1] ev1]; simpl in *; [|exact Hm].
  specialize (Hk a w1). unfold final, events in *.
  destruct (k a w1) as [[r w2] ev2]; simpl in *.
  destruct Hm as [S1 N1], Hk as [S2 N2]. split.
  - etransitivity; eassumption.
  - rewrite network_requests_app. lia.
Qed.

Lemma obeys_try_except {A} (m : M A) (h : Exn -> M A) :
  obeys R m -> (forall e, obeys R (h e)) -> obeys R (try_except m h).
Proof.
  intros Hm Hh w. unfold try_except. specialize (Hm w). unfold final, events in *.
  destruct (m w) as [[[a|e] w1] ev1]; simpl in *; [exact Hm|].
  specialize (Hh e w1). unfold final, events in *.
  destruct (h e w1) as [[r w2] ev2]; simpl in *.
  destruct Hm as [S1 N1], Hh as [S2 N2]. split.
  - etransitivity; eassumption.
  - rewrite network_requests_app. lia.
Qed.

Lemma obeys_lift {A} (r : Py.builtin + A) : obeys R (lift r).
Proof. destruct r; [apply obeys_raise | apply obeys_ret]. Qed.

Lemma obeys_get_world : obeys R get_world.
Proof. intros w. split; reflexivity. Qed.

Lemma obeys_log l s : obeys R (log l s).
Proof. intros w. split; reflexivity. Qed.

Lemma obeys_path_exists env p : obeys R (path_exists env p).
Proof.
  intros w. unfold path_exists, bind, emit. simpl.
  destruct (can_stat env p); (split; reflexivity).
Qed.

Lemma obeys_read_json p : obeys R (read_json p).
Proof.
  intros w. unfold read_json, bind, emit, get_world. simpl.
  destruct (files w !! p) as [[| |v]|]; simpl; (split; reflexivity).
Qed.

Lemma obeys_from_kwargs {A} (init : gmap string json -> option A) data :
  obeys R (from_kwargs init data).
Proof.
  unfold from_kwargs. destruct data; try apply obeys_raise.
  destruct (init d); [apply obeys_ret | apply obeys_raise].
Qed.

End Obeys.

Lemma quiet_silent {A} (m : M A) : quiet m -> silent m.
Proof. intros Hq w. destruct (Hq w). split; [exact I | assumption]. Qed.

Lemma quiet_now env : quiet (now env).
Proof. intros w. split; [apply same_store_tick | reflexivity]. Qed.

Lemma silent_now env : silent (now env).
Proof. intros w. split; [exact I | reflexivity]. Qed.

Lemma silent_modify f : silent (modify f).
Proof. intros w. split; [exact I | reflexivity]. Qed.

Lemma silent_write_json env p v : silent (write_json env p v).
Proof.
  intros w. unfold write_json. destruct (can_write env p); (split; [exact I | reflexivity]).
Qed.

(** One step of a proof that a computation [obeys] a relation. *)
Ltac obeys_step :=
  match goal with
  | |- quiet _ => unfold quiet
  | |- silent _ => unfold silent
  | |- obeys _ (bind _ _) => apply obeys_bind; [typeclasses eauto | | intros ?]
  | |- obeys _ (try_except _ _) => apply obeys_try_except; [typeclasses eauto | | intros ?]
  | |- obeys _ (ret _) => apply obeys_ret; typeclasses eauto
  | |- obeys _ (raise _) => apply obeys_raise; typeclasses eauto
  | |- obeys _ (lift _) => apply obeys_lift; typeclasses eauto
  | |- obeys _ get_world => apply obeys_get_world; typeclasses eauto
  | |- obeys _ (log _ _) => apply obeys_log; typeclasses eauto
  | |- obeys _ (path_exists _ _) => apply obeys_path_exists; typeclasses eauto
  | |- obeys _ (read_json _) => apply obeys_read_json; typeclasses eauto
  | |- obeys _ (from_kwargs _ _) => apply obeys_from_kwargs; typeclasses eauto
  | |- obeys same_store (now _) => apply quiet_now
  | |- obeys any_store (now _) => apply silent_now
  | |- obeys any_store (modify _) => apply silent_modify
  | |- obeys any_store (write_json _ _ _) => apply silent_write_json
  | |- obeys _ (if ?b then _ else _) => destruct b
  | |- obeys _ (match ?x with _ => _ end) => destruct x
  end.

Lemma returns_ret {A} (a : A) : returns (ret a).
Proof. intros w. now exists a. Qed.

Lemma returns_bind {A B} (m : M A) (k : A -> M B) :
  returns m -> (forall a, returns (k a)) -> returns (bind m k).
Proof.
  intros Hm Hk w. destruct (Hm w) as [a Ha]. unfold bind, result in *.
  destruct (m w) as [[r w1] ev1]; simpl in *. subst r.
  destruct (Hk a w1) as [b Hb]. unfold result in Hb.
  destruct (k a w1) as [[r w2] ev2]; simpl in *. eauto.
Qed.

Lemma returns_try_except {A} (m : M A) (h : Exn -> M A) :
  (forall e, returns (h e)) -> returns (try_except m h).
Proof.
  intros Hh w. unfold try_except, result.
  destruct (m w) as [[[a|e] w1] ev1]; simpl; [eauto|].
  destruct (Hh e w1) as [b Hb]. unfold result in Hb.
  destruct (h e w1) as [[r w2] ev2]; simpl in *. eauto.
Qed.

Lemma returns_log l s : returns (log l s).
Proof. intros w. now exists tt. Qed.

Lemma path_exists_run env p w :
  can_stat env p = true ->
  path_exists env p w =
    (Returned (bool_decide (is_Some (files w !! p))), w, [FileExists p]).
Proof. intros Hs. unfold path_exists, bind, emit. simpl. now rewrite Hs. Qed.

Lemma path_exists_refused env p w :
  can_stat env p = false ->
  path_exists env p w = (Raised (Builtin Py.OSError), w, [FileExists p]).
Proof. intros Hs. unfold path_exists, bind, emit. simpl. now rewrite Hs. Qed.

Lemma returns_path_exists env p :
  can_stat env p = true -> returns (path_exists env p).
Proof. intros Hs w. rewrite (path_exists_run env p w Hs). unfold result. simpl. eauto. Qed.

(** ** Ints as floats *)

Lemma float_of_int_fits n :
  (Z.abs n < Py.float_limit)%Z -> Py.float_of_int n = inr (inject_Z n).
Proof.
  intros Hn. unfold Py.float_of_int. now rewrite (proj2 (Z.ltb_lt _ _) Hn).
Qed.

Lemma float_of_int_overflow n :
  (Py.float_limit <= Z.abs n)%Z -> Py.float_of_int n = inl Py.OverflowError.
Proof.
  intros Hn. unfold Py.float_of_int. now rewrite (proj2 (Z.ltb_ge _ _) Hn).
Qed.

Lemma float_add_int_fits x n :
  (Z.abs n < Py.float_limit)%Z -> Py.float_add_int x n = inr (x + inject_Z n)%Q.
Proof. intros Hn. unfold Py.float_add_int. now rewrite float_of_int_fits. Qed.

Lemma float_add_int_overflow x n :
  (Py.float_limit <= Z.abs n)%Z -> Py.float_add_int x n = inl Py.OverflowError.
Proof. intros Hn. unfold Py.float_add_int. now rewrite float_of_int_overflow. Qed.

Lemma float_add_int_cases x n :
  (Z.abs n < Py.float_limit)%Z /\ Py.float_add_int x n = inr (x + inject_Z n)%Q \/
  (Py.float_limit <= Z.abs n)%Z /\ Py.float_add_int x n = inl Py.OverflowError.
Proof.
  destruct (Z.lt_ge_cases (Z.abs n) Py.float_limit) as [Hn|Hn].
  - left. split; [exact Hn | now apply float_add_int_fits].
  - right. split; [exact Hn | now apply float_add_int_overflow].
Qed.

Lemma float_add_int_inv x n e :
  Py.float_add_int x n = inr e ->
  (Z.abs n < Py.float_limit)%Z /\ e = (x + inject_Z n)%Q.
Proof.
  destruct (float_add_int_cases x n) as [[Hn ->]|[Hn ->]]; [|discriminate].
  intros [= <-]. split; [exact Hn | reflexivity].
Qed.

(** A lifetime of seconds is far below the limit. *)
Lemma float_limit_large : (2 ^ 64 < Py.float_limit)%Z.
Proof. reflexivity. Qed.

Lemma read_json_run p w :
  read_json p w =
    (match files w !! p with
     | Some (JSONText v) => Returned v
     | Some NotJSON => Raised (Builtin Py.JSONDecodeError)
     | Some Unreadable | None => Raised (Builtin Py.OSError)
     end, w, [FileRead p]).
Proof.
  unfold read_json, bind, emit, get_world. simpl.
  destruct (files w !! p) as [[| |v]|]; reflexivity.
Qed.

(** ** Python operations *)

Lemma all_in_missing fields d f :
  In f fields -> d !! f = None -> Py.all_in fields (JDict d) = inr false.
Proof.
  induction fields as [|g rest IH]; intros Hin Hf; [destruct Hin|].
  simpl. destruct (d !! g) as [x|] eqn:Hg.
  - rewrite bool_decide_eq_true_2 by eauto.
    destruct Hin as [->|Hin]; [congruence | auto].
  - rewrite bool_decide_eq_false_2; [reflexivity|]. intros [x Hx]. discriminate.
Qed.


Lemma append_inj_r (d x y : string) : d +:+ x = d +:+ y -> x = y.
Proof. induction d as [|c d IH]; simpl; intros E; [exact E | injection E; auto]. Qed.

Lemma token_config_paths_differ self : token_file_path self <> config_file_path self.
Proof.
  unfold token_file_path, config_file_path. intros E.
  apply append_inj_r in E. discriminate E.
Qed.

Lemma token_data_complete t s :
  Py.all_in required_fields (JDict (token_data t s)) = inr true.
Proof. reflexivity. Qed.

Lemma token_data_fields t s :
  Py.getitem (JDict (token_data t s)) "expires_in" = inr (JInt (expires_in t)) /\
  Py.get (JDict (token_data t s)) "scope" (JStr "default") = inr (JStr (scope t)) /\
  Py.getitem (JDict (token_data t s)) "token_type" = inr (JStr (token_type t)) /\
  Py.getitem (JDict (token_data t s)) "access_token" = inr (JStr (access_token t)) /\
  Py.getitem (JDict (token_data t s)) "jwt_token" = inr (JStr (jwt_token t)) /\
  Py.get (JDict (token_data t s)) "jwt_pucomex" JNull =
    inr (json_of_opt_str (jwt_pucomex t)) /\
  (forall t0, Py.get (JDict (token_data t s)) "saved_at" (JFloat t0) = inr (JFloat s)).
Proof. repeat split. Qed.

Lemma kwargs_lookups (a b c d e f : json) :
  let m : gmap string json :=
    <["expires_in" := a]> (<["scope" := b]> (<["token_type" := c]>
    (<["access_token" := d]> (<["jwt_token" := e]> (<["jwt_pucomex" := f]> ∅))))) in
  m !! "expires_in" = Some a /\ m !! "scope" = Some b /\ m !! "token_type" = Some c /\
  m !! "access_token" = Some d /\ m !! "jwt_token" = Some e /\
  Py.dict_get m "jwt_pucomex" JNull = f.
Proof. repeat split. Qed.

(** ** [AuthManager] *)

Section AuthManagerFacts.
Context `{Pydantic} (env : Env) (self : AuthManager).

Lemma is_token_valid_run token expires_at w :
  _is_token_valid env token expires_at w =
    (Returned (valid_now env w token expires_at), after_check w token expires_at, []).
Proof.
  unfold _is_token_valid, valid_now, after_check, bind, get_world. simpl.
  destruct (or_else token (_cached_token w)), (or_else expires_at (_token_expires_at w));
    reflexivity.
Qed.

Lemma quiet_load : quiet (_load_token_from_file env self).
Proof. unfold _load_token_from_file. repeat obeys_step. Qed.

Lemma silent_save_token t : silent (_save_token_to_file env self t).
Proof. unfold _save_token_to_file. repeat obeys_step. Qed.

Lemma silent_save_config : silent (save_config env self).
Proof. unfold save_config. repeat obeys_step. Qed.

Lemma quiet_error_message r fb : quiet (error_message r fb).
Proof. unfold error_message, requests_json. repeat obeys_step. Qed.

Lemma silent_handle response : silent (handle_auth_response env self response).
Proof.
  unfold handle_auth_response, requests_json.
  repeat (obeys_step
          || apply silent_save_token || apply silent_save_config
          || (apply quiet_silent, quiet_error_message)).
Qed.

Lemma load_returns :
  can_stat env (token_file_path self) = true ->
  returns (_load_token_from_file env self).
Proof.
  intros Hs. unfold _load_token_from_file.
  apply returns_bind; [now apply returns_path_exists|]. intros found.
  destruct found; simpl.
  - apply returns_try_except. intros e.
    destruct e as [[]| | | | | | | |];
      (apply returns_bind; [apply returns_log | intros; apply returns_ret]).
  - apply returns_bind; [apply returns_log | intros; apply returns_ret].
Qed.

(** What the [except] clauses of [_load_token_from_file] do. *)
Lemma load_handler_run e w :
  exists l,
    match e with
    | Builtin Py.JSONDecodeError =>
        log WARNING "Invalid JSON in token file";; ret (None, None)
    | _ => log WARNING "Failed to load token from file";; ret (None, None)
    end w = (Returned (@None TokenResponse, @None Q), w, [l]) /\ is_post l = false.
Proof. destruct e as [[]| | | | | | | |]; eexists; split; reflexivity. Qed.

(** When [stat] of the token file is refused, [exists()] raises before the
    [try]. *)
Lemma load_refused w :
  can_stat env (token_file_path self) = false ->
  _load_token_from_file env self w =
    (Raised (Builtin Py.OSError), w, [FileExists (token_file_path self)]).
Proof.
  intros Hs. unfold _load_token_from_file.
  now rewrite (bind_raised _ _ _ _ _ _ (path_exists_refused env _ w Hs)).
Qed.


Lemma load_absent w :
  can_stat env (token_file_path self) = true ->
  files w !! token_file_path self = None ->
  _load_token_from_file env self w =
    (Returned (None, None), w,
     [FileExists (token_file_path self); Log DEBUG "No token file found"]).
Proof.
  intros Hs Hf. unfold _load_token_from_file.
  rewrite (bind_returned _ _ _ _ _ _ (path_exists_run env _ w Hs)), Hf.
  rewrite bool_decide_eq_false_2; [reflexivity|]. intros [x Hx]. discriminate.
Qed.


Lemma token_response_rebuilt t :
  bearer t ->
  TokenResponse_init
    (<["expires_in" := JInt (expires_in t)]>
     (<["scope" := JStr (scope t)]>
     (<["token_type" := JStr (token_type t)]>
     (<["access_token" := JStr (access_token t)]>
     (<["jwt_token" := JStr (jwt_token t)]>
     (<["jwt_pucomex" := json_of_opt_str (jwt_pucomex t)]> ∅)))))) = Some t.
Proof.
  intros Hb. unfold TokenResponse_init.
  destruct (kwargs_lookups (JInt (expires_in t)) (JStr (scope t)) (JStr (token_type t))
              (JStr (access_token t)) (JStr (jwt_token t))
              (json_of_opt_str (jwt_pucomex t))) as (L1 & L2 & L3 & L4 & L5 & L6).
  cbv zeta in *. rewrite L1, L2, L3, L4, L5, L6.
  rewrite validate_int_int, !validate_str_str. cbn [mbind option_bind].
  unfold validate_token_type. unfold bearer in Hb. rewrite Hb.
  destruct t as [e s ty a j [p|]]; cbn [json_of_opt_str validate_opt_str jwt_pucomex].
  - now rewrite validate_str_str.
  - reflexivity.
Qed.

Lemma load_saved w t saved_at :
  can_stat env (token_file_path self) = true ->
  bearer t ->
  (Z.abs (expires_in t) < Py.float_limit)%Z ->
  files w !! token_file_path self = Some (JSONText (JDict (token_data t saved_at))) ->
  exists evs,
    _load_token_from_file env self w =
      (Returned (Some t, Some (saved_at + inject_Z (expires_in t))%Q), tick w, evs) /\
    network_requests evs = 0%nat.
Proof.
  intros Hs Hb Hfit Hf. unfold _load_token_from_file.
  rewrite (bind_returned _ _ _ _ _ _ (path_exists_run env _ w Hs)), Hf.
  rewrite bool_decide_eq_true_2 by eauto. cbn [negb].
  pose proof (read_json_run (token_file_path self) w) as Hr. rewrite Hf in Hr.
  destruct (token_data_fields t saved_at) as (F1 & F2 & F3 & F4 & F5 & F6 & F7).
  erewrite try_returned.
  2: { rewrite (bind_returned _ _ _ _ _ _ Hr), token_data_complete.
    rewrite (bind_returned _ _ w true w [] eq_refl). cbn [negb].
    rewrite F1, (bind_returned _ _ w _ w [] eq_refl).
    rewrite F2, (bind_returned _ _ w _ w [] eq_refl).
    rewrite F3, (bind_returned _ _ w _ w [] eq_refl).
    rewrite F4, (bind_returned _ _ w _ w [] eq_refl).
    rewrite F5, (bind_returned _ _ w _ w [] eq_refl).
    rewrite F6, (bind_returned _ _ w _ w [] eq_refl).
    unfold from_kwargs at 1. rewrite (token_response_rebuilt t Hb).
    rewrite (bind_returned _ _ w t w [] eq_refl).
    rewrite (bind_returned _ _ w _ (tick w) [] eq_refl).
    rewrite F7, (bind_returned _ _ (tick w) _ (tick w) [] eq_refl).
    cbn [Py.add_int]. rewrite (float_add_int_fits _ _ Hfit).
    rewrite (bind_returned _ _ (tick w) _ (tick w) [] eq_refl).
    reflexivity. }
  eexists. split; reflexivity.
Qed.

Lemma error_message_run response fallback w :
  error_message response fallback w =
    (Returned (provider_message response fallback), w, []).
Proof.
  unfold error_message, try_except, bind, requests_json, from_kwargs, provider_message.
  destruct (json_body response) as [[]|]; simpl; try reflexivity.
  destruct (AuthErrorResponse_init d); reflexivity.
Qed.

Lemma save_token_run t w :
  exists evs,
    _save_token_to_file env self t w =
      (Returned tt,
       (if can_write env (token_file_path self)
        then with_files (<[token_file_path self :=
                            JSONText (JDict (token_data t (time_time env (clock_reads w))))]>
                           (files w)) (tick w)
        else tick w),
       evs) /\ network_requests evs = 0%nat.
Proof.
  unfold _save_token_to_file, try_except, bind, now, write_json. simpl.
  destruct (can_write env (token_file_path self)); simpl; eauto.
Qed.

Lemma save_config_run w :
  exists evs,
    save_config env self w =
      (Returned tt,
       (if can_write env (config_file_path self)
        then with_files (<[config_file_path self :=
                            JSONText (JDict (config_data self (time_time env (clock_reads w))))]>
                           (files w)) (tick w)
        else tick w),
       evs) /\ network_requests evs = 0%nat.
Proof.
  unfold save_config, try_except, bind, now, write_json. simpl.
  destruct (can_write env (config_file_path self)); simpl; eauto.
Qed.

(** The 200 branch once the body is accepted: the token is in the cache
    and the clock was read. *)
Lemma handle_200_unfold w response d t :
  status_code response = 200%Z ->
  json_body response = Some (JDict d) ->
  TokenResponse_init d = Some t ->
  handle_auth_response env self response w =
    (expires_at <- lift (Py.float_add_int (time_time env (clock_reads w)) (expires_in t));;
     modify (with_token_expires_at (Some expires_at));;
     _save_token_to_file env self t;;
     match environment self with
     | PRODUCTION => save_config env self
     | TRIAL => ret tt
     end;;
     ret t) (tick (with_cached_token (Some t) w)).
Proof.
  intros Hs Hj Ht. unfold handle_auth_response. rewrite Hs, Z.eqb_refl. cbv iota.
  rewrite (bind_pure _ _ w (JDict d) w) by (unfold requests_json; now rewrite Hj).
  rewrite (bind_pure _ _ w t w) by (unfold from_kwargs; now rewrite Ht).
  rewrite (bind_pure _ _ w tt (with_cached_token (Some t) w)) by reflexivity.
  rewrite (bind_pure _ _ _ (time_time env (clock_reads w))
             (tick (with_cached_token (Some t) w))) by reflexivity.
  reflexivity.
Qed.

Lemma handle_200_run w response d t :
  status_code response = 200%Z ->
  json_body response = Some (JDict d) ->
  TokenResponse_init d = Some t ->
  (Z.abs (expires_in t) < Py.float_limit)%Z ->
  exists w' evs,
    handle_auth_response env self response w = (Returned t, w', evs) /\
    network_requests evs = 0%nat /\
    _cached_token w' = Some t /\
    _token_expires_at w' =
      Some (time_time env (clock_reads w) + inject_Z (expires_in t))%Q /\
    (clock_reads w < clock_reads w')%nat /\
    files w' !! token_file_path self =
      (if can_write env (token_file_path self)
       then Some (JSONText (JDict (token_data t (time_time env (S (clock_reads w))))))
       else files w !! token_file_path self).
Proof.
  intros Hs Hj Ht Hfit. rewrite (handle_200_unfold w response d t Hs Hj Ht).
  rewrite (float_add_int_fits _ _ Hfit).
  rewrite (bind_pure _ _ _ _ _ eq_refl).
  rewrite (bind_pure _ _ _ tt _ eq_refl).
  set (w3 := with_token_expires_at _ _).
  destruct (save_token_run t w3) as (evs1 & E1 & N1).
  rewrite (bind_returned _ _ _ _ _ _ E1).
  set (w4 := if can_write env (token_file_path self) then _ else _) in *.
  assert (C4 : _cached_token w4 = Some t /\
               _token_expires_at w4 =
                 Some (time_time env (clock_reads w) + inject_Z (expires_in t))%Q /\
               clock_reads w4 = S (S (clock_reads w)) /\
               files w4 !! token_file_path self =
                 (if can_write env (token_file_path self)
                  then Some (JSONText (JDict (token_data t (time_time env (S (clock_reads w))))))
                  else files w !! token_file_path self)).
  { subst w4 w3. destruct (can_write env (token_file_path self)); simpl;
      repeat split; try reflexivity. apply lookup_insert_eq. }
  clearbody w4. clear E1. destruct C4 as (C & X & K & F).
  destruct (environment self).
  - simpl. do 2 eexists. split; [reflexivity|].
    rewrite !network_requests_app, N1. repeat split; try assumption; simpl; lia.
  - destruct (save_config_run w4) as (evs2 & E2 & N2).
    rewrite (bind_returned _ _ _ _ _ _ E2). simpl.
    do 2 eexists. split; [reflexivity|].
    rewrite !network_requests_app, N1, N2.
    destruct (can_write env (config_file_path self)); simpl;
      repeat split; try assumption; try lia.
    rewrite lookup_insert_ne; [assumption|].
    intros E. symmetry in E. revert E. apply token_config_paths_differ.
Qed.

(** An [expires_in] that no float holds: the sum raises after the token
    was put in the cache, and before anything else. *)
Lemma handle_200_overflow w response d t :
  status_code response = 200%Z ->
  json_body response = Some (JDict d) ->
  TokenResponse_init d = Some t ->
  (Py.float_limit <= Z.abs (expires_in t))%Z ->
  handle_auth_response env self response w =
    (Raised (Builtin Py.OverflowError), tick (with_cached_token (Some t) w), []).
Proof.
  intros Hs Hj Ht Hbig. rewrite (handle_200_unfold w response d t Hs Hj Ht).
  rewrite (float_add_int_overflow _ _ Hbig). reflexivity.
Qed.

(** A 200 whose body [handle_auth_response] does not accept. *)
Lemma handle_200_invalid w response :
  status_code response = 200%Z ->
  (forall d, json_body response = Some (JDict d) -> TokenResponse_init d = None) ->
  exists cause,
    handle_auth_response env self response w = (Raised cause, w, []).
Proof.
  intros Hs Hbad. unfold handle_auth_response. rewrite Hs, Z.eqb_refl. cbv iota.
  destruct (json_body response) as [v|] eqn:Hj.
  - rewrite (bind_pure _ _ w v w) by (unfold requests_json; now rewrite Hj).
    destruct v; try (eexists; reflexivity).
    eexists. apply bind_raised. unfold from_kwargs. now rewrite (Hbad d eq_refl).
  - eexists. apply bind_raised. unfold requests_json. now rewrite Hj.
Qed.

Lemma wrap_run e w :
  exists e', wrap_auth_failure env e w = (Raised e', w, []).
Proof. unfold wrap_auth_failure. destruct e; simpl; eauto. Qed.

Lemma raise_after_message {A} response fallback (k : string -> Exn) w :
  (message <- error_message response fallback;; @raise A (k message)) w =
    (Raised (k (provider_message response fallback)), w, []).
Proof.
  rewrite (bind_returned _ _ _ _ _ _ (error_message_run response fallback w)).
  reflexivity.
Qed.

Lemma handle_error_run w response :
  status_code response <> 200%Z ->
  handle_auth_response env self response w = (Raised (auth_error response), w, []).
Proof.
  intros Hs. unfold handle_auth_response, auth_error, fallback_message.
  destruct (Z.eqb_spec (status_code response) 200%Z); [contradiction|].
  destruct (status_code response =? 400)%Z.
  - apply (raise_after_message response _
             (fun m => CertificateError m 400 {["response" := text response]})).
  - destruct ((status_code response =? 401)%Z || (status_code response =? 403)%Z).
    + apply (raise_after_message response _
               (fun m => InvalidCredentialsError m (status_code response)
                           {["response" := text response]})).
    + apply (raise_after_message response _
               (fun m => AuthError m (status_code response)
                           {["response" := text response]})).
Qed.

(** The body of a 200 is a token, or it is not. *)
Lemma token_body_cases response :
  (exists d t, json_body response = Some (JDict d) /\ TokenResponse_init d = Some t) \/
  (forall d, json_body response = Some (JDict d) -> TokenResponse_init d = None).
Proof.
  destruct (json_body response) as [[]|]; try (right; intros; discriminate).
  destruct (TokenResponse_init d) as [t|] eqn:Ht.
  - left. eauto.
  - right. now intros d' [= <-].
Qed.

Lemma handle_returned_inv w response t w' evs :
  handle_auth_response env self response w = (Returned t, w', evs) ->
  status_code response = 200%Z /\
  (Z.abs (expires_in t) < Py.float_limit)%Z /\
  exists d, json_body response = Some (JDict d) /\ TokenResponse_init d = Some t.
Proof.
  intros E. destruct (Z.eq_dec (status_code response) 200%Z) as [Hs|Hs].
  - split; [assumption|].
    destruct (token_body_cases response) as [(d & t' & Hj & Ht)|Hbad].
    + destruct (Z.lt_ge_cases (Z.abs (expires_in t')) Py.float_limit) as [Hfit|Hbig].
      * destruct (handle_200_run w response d t' Hs Hj Ht Hfit) as (w2 & evs2 & E2 & _).
        rewrite E2 in E. injection E as <- _ _. eauto.
      * rewrite (handle_200_overflow w response d t' Hs Hj Ht Hbig) in E. discriminate.
    + destruct (handle_200_invalid w response Hs Hbad) as (cause & E2).
      rewrite E2 in E. discriminate.
  - rewrite (handle_error_run w response Hs) in E. discriminate.
Qed.

Lemma auth_error_wrapped response w :
  wrap_auth_failure env (auth_error response) w = (Raised (auth_error response), w, []).
Proof.
  unfold auth_error. destruct (status_code response =? 400)%Z; [reflexivity|].
  destruct ((status_code response =? 401)%Z || (status_code response =? 403)%Z);
    reflexivity.
Qed.

Lemma fetch_unfold w :
  fetch_new_token env self w =
    match session_post env with
    | inr response =>
        match handle_auth_response env self response w with
        | (Returned t, w1, evs) => (Returned t, w1, fetch_prefix self ++ evs)
        | (Raised e, w1, evs) =>
            match wrap_auth_failure env e w1 with
            | (r, w2, evs') => (r, w2, fetch_prefix self ++ evs ++ evs')
            end
        end
    | inl e =>
        match wrap_auth_failure env e w with
        | (r, w2, evs') => (r, w2, fetch_prefix self ++ evs')
        end
    end.
Proof.
  unfold fetch_new_token, bind, try_except, post_auth_request, log, emit. simpl.
  destruct (session_post env) as [e|response]; simpl.
  - destruct (wrap_auth_failure env e w) as [[r w2] evs']. reflexivity.
  - destruct (handle_auth_response env self response w) as [[[t|e] w1] evs]; simpl.
    + reflexivity.
    + destruct (wrap_auth_failure env e w1) as [[r w2] evs']. reflexivity.
Qed.

Lemma fetch_posts_once w : network_requests (events (fetch_new_token env self w)) = 1%nat.
Proof.
  rewrite fetch_unfold.
  destruct (session_post env) as [e|response].
  - destruct (wrap_run e w) as [e' ->]. reflexivity.
  - pose proof (silent_handle response w) as [_ N]. unfold events in *.
    destruct (handle_auth_response env self response w) as [[[t|e] w1] evs]; simpl in *.
    + rewrite !network_requests_cons, N. reflexivity.
    + destruct (wrap_run e w1) as [e' ->]. simpl.
      rewrite app_nil_r, !network_requests_cons, N. reflexivity.
Qed.

Lemma fetch_success w response d t :
  session_post env = inr response ->
  status_code response = 200%Z ->
  json_body response = Some (JDict d) ->
  TokenResponse_init d = Some t ->
  (Z.abs (expires_in t) < Py.float_limit)%Z ->
  exists w' evs,
    fetch_new_token env self w = (Returned t, w', evs) /\
    _cached_token w' = Some t /\
    _token_expires_at w' =
      Some (time_time env (clock_reads w) + inject_Z (expires_in t))%Q /\
    (clock_reads w < clock_reads w')%nat /\
    files w' !! token_file_path self =
      (if can_write env (token_file_path self)
       then Some (JSONText (JDict (token_data t (time_time env (S (clock_reads w))))))
       else files w !! token_file_path self).
Proof.
  intros Hp Hs Hj Ht Hfit. rewrite fetch_unfold, Hp.
  destruct (handle_200_run w response d t Hs Hj Ht Hfit) as (w' & evs & -> & _ & Hc).
  eauto.
Qed.

(** The provider's token has an [expires_in] that no float holds: the
    exchange fails with the token left in the cache. *)
Lemma fetch_overflow w response d t :
  session_post env = inr response ->
  status_code response = 200%Z ->
  json_body response = Some (JDict d) ->
  TokenResponse_init d = Some t ->
  (Py.float_limit <= Z.abs (expires_in t))%Z ->
  fetch_new_token env self w =
    (Raised (HTTPError 0
               ("Unexpected error during authentication: "
                  +:+ str_exn env (Builtin Py.OverflowError))
               None (Some (Builtin Py.OverflowError))),
     tick (with_cached_token (Some t) w), fetch_prefix self).
Proof.
  intros Hp Hs Hj Ht Hbig. rewrite fetch_unfold, Hp.
  now rewrite (handle_200_overflow w response d t Hs Hj Ht Hbig).
Qed.

Lemma fetch_returned_inv w t w' evs :
  fetch_new_token env self w = (Returned t, w', evs) ->
  (Z.abs (expires_in t) < Py.float_limit)%Z /\
  exists response d,
    session_post env = inr response /\ status_code response = 200%Z /\
    json_body response = Some (JDict d) /\ TokenResponse_init d = Some t.
Proof.
  rewrite fetch_unfold. destruct (session_post env) as [e|response].
  - destruct (wrap_run e w) as [e' ->]. discriminate.
  - destruct (handle_auth_response env self response w) as [[[t'|e] w1] evs1] eqn:E.
    + intros [= -> _ _]. apply handle_returned_inv in E as (Hs & Hfit & d & Hj & Ht).
      eauto 8.
    + destruct (wrap_run e w1) as [e' ->]. discriminate.
Qed.

Lemma fetch_error w response :
  session_post env = inr response ->
  status_code response <> 200%Z ->
  fetch_new_token env self w = (Raised (auth_error response), w, fetch_prefix self).
Proof.
  intros Hp Hs. rewrite fetch_unfold, Hp, (handle_error_run w response Hs).
  now rewrite auth_error_wrapped.
Qed.

Lemma fetch_transport_failure w descr response_status :
  session_post env = inl (RequestException descr response_status) ->
  fetch_new_token env self w =
    (Raised
       (HTTPError (match response_status with Some c => c | None => 0%Z end)
          ("HTTP error during authentication: "
             +:+ str_exn env (RequestException descr response_status))
          None (Some (RequestException descr response_status))),
     w, fetch_prefix self).
Proof. intros Hp. rewrite fetch_unfold, Hp. reflexivity. Qed.

(** After the in-memory check, when [stat] of the token file is refused:
    the exception of [exists()] leaves [get_token]. *)
Lemma from_file_refused w1 :
  can_stat env (token_file_path self) = false ->
  get_token_from_file_or_api env self w1 =
    (Raised (Builtin Py.OSError), w1, [FileExists (token_file_path self)]).
Proof.
  intros Hs. unfold get_token_from_file_or_api.
  now rewrite (bind_raised _ _ _ _ _ _ (load_refused w1 Hs)).
Qed.

(** After the in-memory check: the file's token, or the provider's. *)
Lemma from_file_or_api_cases w1 :
  can_stat env (token_file_path self) = true ->
  exists loaded w2 evs2,
    _load_token_from_file env self w1 = (Returned loaded, w2, evs2) /\
    same_store w1 w2 /\ network_requests evs2 = 0%nat /\
    ((exists ft,
        fst loaded = Some ft /\ valid_now env w2 (Some ft) (snd loaded) = true /\
        get_token_from_file_or_api env self w1 =
          (Returned ft,
           with_token_expires_at (snd loaded)
             (with_cached_token (Some ft) (after_check w2 (Some ft) (snd loaded))),
           evs2 ++ [Log DEBUG "Using token from file"]))
     \/
     ((forall ft, fst loaded = Some ft -> valid_now env w2 (Some ft) (snd loaded) = false) /\
      exists w3,
        same_store w1 w3 /\ (clock_reads w2 <= clock_reads w3)%nat /\
        get_token_from_file_or_api env self w1 =
          (let '(r, w', evs') := fetch_new_token env self w3 in (r, w', evs2 ++ evs')))).
Proof.
  intros Hstat. destruct (load_returns Hstat w1) as [loaded Hl].
  pose proof (quiet_load w1) as [S2 N2].
  unfold result, final, events in *.
  destruct (_load_token_from_file env self w1) as [[r w2] evs2] eqn:E. simpl in *.
  subst r. exists loaded, w2, evs2. split; [reflexivity|]. split; [exact S2|].
  split; [exact N2|].
  unfold get_token_from_file_or_api. rewrite (bind_returned _ _ _ _ _ _ E).
  destruct loaded as [[ft|] fe]; simpl.
  - rewrite (bind_returned _ _ _ _ _ _ (is_token_valid_run (Some ft) fe w2)).
    destruct (valid_now env w2 (Some ft) fe) eqn:V2.
    + left. exists ft. repeat split; assumption.
    + right. split; [intros ft' [= <-]; assumption|].
      exists (after_check w2 (Some ft) fe). split; [|split].
      * etransitivity; [exact S2|]. apply after_check_same_store.
      * apply after_check_same_store.
      * simpl. destruct (fetch_new_token env self _) as [[r w'] evs']. reflexivity.
  - right. split; [discriminate|].
    exists w2. split; [exact S2|]. split; [lia|].
    unfold bind at 1. simpl.
    destruct (fetch_new_token env self w2) as [[r w'] evs']. reflexivity.
Qed.

Lemma get_token_memory w :
  valid_now env w None None = true ->
  exists t,
    _cached_token w = Some t /\
    get_token env self w =
      (Returned t, tick w, [Log DEBUG "Using cached token from memory"]).
Proof.
  intros V. unfold get_token.
  rewrite (bind_returned _ _ _ _ _ _ (is_token_valid_run None None w)).
  unfold bind at 1. simpl. rewrite V.
  destruct (after_check_same_store w None None) as (Hc & _). rewrite Hc.
  unfold valid_now, after_check in *. simpl in *.
  destruct (_cached_token w) as [t|]; [|discriminate].
  destruct (_token_expires_at w); [|discriminate].
  exists t. split; reflexivity.
Qed.

Lemma get_token_miss w :
  valid_now env w None None = false ->
  get_token env self w = get_token_from_file_or_api env self (after_check w None None).
Proof.
  intros V. unfold get_token.
  rewrite (bind_returned _ _ _ _ _ _ (is_token_valid_run None None w)).
  unfold bind at 1. simpl. rewrite V.
  destruct (get_token_from_file_or_api env self _) as [[r w'] evs']. reflexivity.
Qed.

(** A run of [get_token] that contacts the identity provider is a run of
    [fetch_new_token] from a state with the same cache and files. *)
Lemma get_token_posted w :
  network_requests (events (get_token env self w)) <> 0%nat ->
  exists w3 evs0,
    same_store w w3 /\ network_requests evs0 = 0%nat /\
    get_token env self w =
      (let '(r, w', evs') := fetch_new_token env self w3 in (r, w', evs0 ++ evs')).
Proof.
  intros Hn. destruct (valid_now env w None None) eqn:V.
  - destruct (get_token_memory w V) as (t & _ & E). rewrite E in Hn.
    now destruct Hn.
  - rewrite (get_token_miss w V) in *.
    destruct (can_stat env (token_file_path self)) eqn:Hstat.
    2: { rewrite (from_file_refused _ Hstat) in Hn. now destruct Hn. }
    destruct (from_file_or_api_cases (after_check w None None) Hstat)
      as (loaded & w2 & evs2 & El & S2 & N2 & [(ft & _ & _ & E)|(_ & w3 & S3 & _ & E)]).
    + rewrite E in Hn. unfold events in Hn. simpl in Hn.
      rewrite network_requests_app, N2 in Hn. now destruct Hn.
    + exists w3, evs2. split; [|split; assumption].
      etransitivity; [apply after_check_same_store | exact S3].
Qed.

End AuthManagerFacts.

(** ** [HTTPSession] *)

Section HTTPSessionFacts.
Context (env : Env) (self : HTTPSession).

Lemma request_loop_cons a rest req last b w :
  request_loop env self (a :: rest) req last b w =
    match client_request env a with
    | inr response => (Returned (Some response), w, [ClientRequest a req])
    | inl e =>
        if is_transport_error e && (a <? max_retries self)%Z then
          match request_loop env self rest req (Some e) (b * 2)%Q w with
          | (r, w', evs) => (r, w', ClientRequest a req :: Sleep b :: evs)
          end
        else (Raised e, w, [ClientRequest a req])
    end.
Proof.
  cbn [request_loop]. unfold bind at 1, try_except, send, bind, emit. simpl.
  destruct (client_request env a) as [e|response]; simpl; [|reflexivity].
  destruct e as [| |[]| | | | | |]; simpl; try reflexivity;
    (destruct (a <? max_retries self)%Z; simpl; [|reflexivity]);
    destruct (request_loop env self rest req _ _ w) as [[r w'] evs]; reflexivity.
Qed.

Lemma range_retries :
  (0 <= max_retries self)%Z ->
  range (max_retries self + 1) = map Z.of_nat (seq 0 (S (Z.to_nat (max_retries self)))).
Proof.
  intros HN. unfold range. do 2 f_equal. lia.
Qed.

Lemma request_loop_failing n : forall k last b w req,
  (Z.of_nat (k + n) = max_retries self) ->
  (forall j, (Z.of_nat k <= j <= max_retries self)%Z ->
     exists e, client_request env j = inl e /\ is_transport_error e = true) ->
  exists e,
    client_request env (max_retries self) = inl e /\
    request_loop env self (map Z.of_nat (seq k (S n))) req last b w =
      (Raised e, w, failing_trace req (Z.of_nat k) b n).
Proof.
  induction n as [|n IH]; intros k last b w req HN Hfail.
  - destruct (Hfail (Z.of_nat k)) as (e & He & Ht); [lia|].
    assert (Hk : Z.of_nat k = max_retries self) by lia.
    exists e. rewrite <- Hk at 1. split; [assumption|].
    cbn [seq map]. rewrite request_loop_cons, He, Ht.
    rewrite (proj2 (Z.ltb_ge _ _)) by lia. reflexivity.
  - destruct (Hfail (Z.of_nat k)) as (e & He & Ht); [lia|].
    destruct (IH (S k) (Some e) (b * 2)%Q w req) as (e' & He' & Hrun).
    + lia.
    + intros j Hj. apply Hfail. lia.
    + exists e'. split; [assumption|].
      change (map Z.of_nat (seq k (S (S n))))
        with (Z.of_nat k :: map Z.of_nat (seq (S k) (S n))).
      rewrite request_loop_cons, He, Ht.
      rewrite (proj2 (Z.ltb_lt _ _)) by lia. cbn [andb].
      rewrite Hrun. cbn [failing_trace].
      replace (Z.of_nat k + 1)%Z with (Z.of_nat (S k)) by lia. reflexivity.
Qed.

Lemma failing_trace_attempts req a b n : attempts (failing_trace req a b n) = S n.
Proof.
  revert a b. induction n as [|n IH]; intros a b; [reflexivity|].
  unfold attempts in *. cbn [failing_trace List.filter is_attempt length].
  now rewrite IH.
Qed.

Lemma Forall2_Qeq_map_ext (l1 : list Q) (f g : nat -> Q) (l : list nat) :
  (forall k, f k == g k) -> Forall2 Qeq l1 (map f l) -> Forall2 Qeq l1 (map g l).
Proof.
  intros Hfg. revert l1. induction l as [|x l IH]; intros l1 HF; simpl in *.
  - exact HF.
  - inversion HF as [|q y l1' l' Hq Hrest]; subst. constructor.
    + now rewrite Hq.
    + now apply IH.
Qed.

Lemma failing_trace_delays req a b n :
  Forall2 Qeq (delays (failing_trace req a b n)) (backoff_delays b n).
Proof.
  unfold backoff_delays. revert a b. induction n as [|n IH]; intros a b; [constructor|].
  cbn [failing_trace delays seq map]. constructor.
  - simpl. ring.
  - rewrite <- seq_shift, map_map.
    apply Forall2_Qeq_map_ext with (f := fun k => (b * 2 * 2 ^ Z.of_nat k)%Q);
      [|apply IH].
    intros k. rewrite Nat2Z.inj_succ, <- Z.add_1_r, Qpower_plus by discriminate.
    simpl. ring.
Qed.

Lemma failing_trace_ends req a b n :
  head (failing_trace req a b n) = Some (ClientRequest a req) /\
  last (failing_trace req a b n) = Some (ClientRequest (a + Z.of_nat n) req).
Proof.
  split; [now destruct n|].
  revert a b. induction n as [|n IH]; intros a b.
  - simpl. now rewrite Z.add_0_r.
  - cbn [failing_trace].
    assert (Hne : failing_trace req (a + 1) (b * 2)%Q n <> []) by now destruct n.
    specialize (IH (a + 1)%Z (b * 2)%Q).
    destruct (failing_trace req (a + 1) (b * 2)%Q n) as [|ev l]; [contradiction|].
    cbn [last] in *. rewrite IH. do 2 f_equal. lia.
Qed.

(** The loop never touches the state, tries the attempts in order, goes on
    to a next attempt only after a transport error, and returns the first
    response it receives. *)
Lemma request_loop_sound n : forall k last b w req r w' evs,
  request_loop env self (map Z.of_nat (seq k n)) req last b w = (r, w', evs) ->
  w' = w /\
  forall a req', In (ClientRequest a req') evs ->
    req' = req /\ (Z.of_nat k <= a)%Z /\
    (forall j, (Z.of_nat k <= j < a)%Z ->
       exists e, client_request env j = inl e /\ is_transport_error e = true) /\
    (forall response, client_request env a = inr response ->
       r = Returned (Some response) /\
       forall a' req'', In (ClientRequest a' req'') evs -> (a' <= a)%Z).
Proof.
  induction n as [|n IH]; intros k last b w req r w' evs Hrun.
  - simpl in Hrun. destruct last; injection Hrun as <- <- <-; (split; [reflexivity|]);
      intros a req' [].
  - change (map Z.of_nat (seq k (S n)))
      with (Z.of_nat k :: map Z.of_nat (seq (S k) n)) in Hrun.
    rewrite request_loop_cons in Hrun.
    assert (Hfirst : forall rr a req',
               In (ClientRequest a req') [ClientRequest (Z.of_nat k) req] ->
               (forall rsp, client_request env (Z.of_nat k) = inr rsp ->
                  rr = Returned (Some rsp)) ->
               req' = req /\ (Z.of_nat k <= a)%Z /\
               (forall j, (Z.of_nat k <= j < a)%Z ->
                  exists e, client_request env j = inl e /\ is_transport_error e = true) /\
               (forall rsp, client_request env a = inr rsp ->
                  rr = Returned (Some rsp) /\
                  forall a' req'', In (ClientRequest a' req'')
                                     [ClientRequest (Z.of_nat k) req] -> (a' <= a)%Z)).
    { intros rr a req' [Hin|[]] Hrr. injection Hin as <- <-.
      split; [reflexivity|]. split; [lia|]. split; [intros j Hj; lia|].
      intros rsp Hrsp. split; [now apply Hrr|].
      intros a' req'' [Hin'|[]]. injection Hin' as <- <-. lia. }
    destruct (client_request env (Z.of_nat k)) as [e|response] eqn:Hk.
    + destruct (is_transport_error e && (Z.of_nat k <? max_retries self)%Z) eqn:Hre.
      * destruct (request_loop env self (map Z.of_nat (seq (S k) n)) req (Some e)
                    (b * 2)%Q w) as [[r1 w1] evs1] eqn:Hrest.
        injection Hrun as <- <- <-. apply IH in Hrest as [-> Hrest].
        apply andb_prop in Hre as [Hte _].
        split; [reflexivity|]. intros a req' [Hin|[Hin|Hin]].
        -- injection Hin as <- <-.
           split; [reflexivity|]. split; [lia|]. split; [intros j Hj; lia|].
           intros rsp Hrsp. congruence.
        -- discriminate.
        -- destruct (Hrest a req' Hin) as (-> & Hle & Hbefore & Hresp).
           split; [reflexivity|]. split; [lia|]. split.
           ++ intros j Hj. destruct (Z.eq_dec j (Z.of_nat k)) as [->|Hne]; [eauto|].
              apply Hbefore. lia.
           ++ intros rsp Hrsp. destruct (Hresp rsp Hrsp) as [Hr Hmax].
              split; [assumption|].
              intros a' req'' [Hin'|[Hin'|Hin']].
              ** injection Hin' as <- <-. lia.
              ** discriminate.
              ** eapply Hmax; eassumption.
      * injection Hrun as <- <- <-. split; [reflexivity|].
        intros a req' Hin. apply Hfirst; [assumption|]. intros rsp Hrsp. discriminate.
    + injection Hrun as <- <- <-. split; [reflexivity|].
      intros a req' Hin. apply Hfirst; [assumption|]. intros rsp Hrsp. congruence.
Qed.

End HTTPSessionFacts.

(** ** [HTTPExecutor] *)

Section HTTPExecutorFacts.
Context `{Pydantic} (env : Env) (config : IntegraConfig) (session : HTTPSession).

Lemma error_body_run response w :
  try_except (v <- httpx_json response;; ret (BodyJSON v))
    (fun _ => ret (BodyText (text response))) w =
  (Returned (body_of_response response), w, []).
Proof.
  unfold try_except, bind, httpx_json, body_of_response.
  destruct (json_body response); reflexivity.
Qed.

Lemma handle_api_error_run response w :
  (400 <= status_code response)%Z ->
  handle_api_response response w =
    (Raised
       (if (500 <=? status_code response)%Z
        then HTTPError (status_code response)
               ("Server error: " +:+ pretty (status_code response))
               (Some (body_of_response response)) None
        else APIError ("API error: " +:+ pretty (status_code response))
               (status_code response)
               (match json_body response with
                | Some (JDict d) => Some d
                | _ => None
                end)),
     w, []).
Proof.
  intros Hs. unfold handle_api_response.
  rewrite (proj2 (Z.leb_le _ _) Hs).
  rewrite (bind_returned _ _ _ _ _ _ (error_body_run response w)).
  destruct (500 <=? status_code response)%Z; [reflexivity|].
  unfold body_of_response. destruct (json_body response) as [[]|]; reflexivity.
Qed.

Lemma execute_on_response endpoint body w tokens w1 evs1 response w2 evs2 :
  bearer_tokens env config w = (Returned tokens, w1, evs1) ->
  request env session (api_request config endpoint body tokens) w1 =
    (Returned (Some response), w2, evs2) ->
  exists evs,
    execute env config session endpoint body w =
      (let '(r, w3, evs3) := handle_api_response response w2 in
       match r with
       | Returned v => (Returned v, w3, evs ++ evs3)
       | Raised e =>
           let '(r', w4, evs4) := wrap_request_failure env e w3 in
           (r', w4, evs ++ evs3 ++ evs4)
       end).
Proof.
  intros Ht Hr. unfold execute.
  rewrite (bind_returned _ _ _ _ _ _ Ht).
  assert (Hlog : exists l,
             (if debug_enabled env
              then log DEBUG ("Request URL: " +:+ api_base_url config +:+ "/v1/" +:+ endpoint);;
                   log DEBUG "Request body: "
              else ret tt) w1 = (Returned tt, w1, l)).
  { destruct (debug_enabled env); eexists; reflexivity. }
  destruct Hlog as [l Hlog]. rewrite (bind_returned _ _ _ _ _ _ Hlog).
  unfold try_except. rewrite (bind_returned _ _ _ _ _ _ Hr).
  exists (evs1 ++ l ++ evs2).
  destruct (handle_api_response response w2) as [[[v|e] w3] evs3].
  - now rewrite <- !app_assoc.
  - destruct (wrap_request_failure env e w3) as [[r' w4] evs4].
    now rewrite <- !app_assoc.
Qed.

End HTTPExecutorFacts.

(** ** Clearing *)

Section ClearFacts.
Context (env : Env) (self : AuthManager).

Lemma clear_cache_run w :
  clear_cache w =
    (Returned tt, with_token_expires_at None (with_cached_token None w), []).
Proof. reflexivity. Qed.

Lemma clear_stored_token_run w :
  let w0 := with_token_expires_at None (with_cached_token None w) in
  let p := token_file_path self in
  clear_stored_token env self w =
    if can_stat env p then
      match files w !! p with
      | None => (Returned tt, w0, [FileExists p])
      | Some _ =>
          if can_unlink env p
          then (Returned tt, with_files (delete p (files w)) w0,
                [FileExists p; FileUnlink p; Log DEBUG ("Token file deleted: " +:+ p)])
          else (Returned tt, w0,
                [FileExists p; Log WARNING "Failed to delete token file"])
      end
    else (Returned tt, w0, [FileExists p; Log WARNING "Failed to delete token file"]).
Proof.
  intros w0 p. unfold clear_stored_token.
  rewrite (bind_returned _ _ _ _ _ _ (clear_cache_run w)). fold w0.
  unfold try_except. fold p. destruct (can_stat env p) eqn:Hs.
  - rewrite (bind_returned _ _ _ _ _ _ (path_exists_run env p w0 Hs)).
    change (files w0) with (files w).
    destruct (files w !! p) as [c|] eqn:Hf.
    + rewrite bool_decide_eq_true_2 by eauto.
      unfold unlink, bind, get_world. simpl. change (files w0) with (files w).
      fold p. rewrite Hf. rewrite bool_decide_eq_true_2 by eauto.
      destruct (can_unlink env p); reflexivity.
    + rewrite bool_decide_eq_false_2; [reflexivity|]. intros [x Hx]. discriminate.
  - rewrite (bind_raised _ _ _ _ _ _ (path_exists_refused env p w0 Hs)). reflexivity.
Qed.

End ClearFacts.

(** * Further facts *)

(** ** [HTTPSession.request], whatever the transport does *)

Section RequestFacts.
Context (env : Env) (self : HTTPSession).

Lemma request_loop_settles n : forall k m last b w req r,
  (forall j, (Z.of_nat k <= j < Z.of_nat (k + n))%Z -> settles env self j = None) ->
  settles env self (Z.of_nat (k + n)) = Some r ->
  request_loop env self (map Z.of_nat (seq k (S n + m))) req last b w =
    (r, w, failing_trace req (Z.of_nat k) b n).
Proof.
  induction n as [|n IH]; intros k m last b w req r Hnone Hsome.
  - rewrite Nat.add_0_r in Hsome.
    change (map Z.of_nat (seq k (1 + m)))
      with (Z.of_nat k :: map Z.of_nat (seq (S k) m)).
    rewrite request_loop_cons. unfold settles in Hsome.
    destruct (client_request env (Z.of_nat k)) as [e|response].
    + destruct (is_transport_error e && (Z.of_nat k <? max_retries self)%Z);
        [discriminate|]. now injection Hsome as <-.
    + now injection Hsome as <-.
  - change (map Z.of_nat (seq k (S (S n) + m)))
      with (Z.of_nat k :: map Z.of_nat (seq (S k) (S n + m))).
    rewrite request_loop_cons.
    assert (Hk : settles env self (Z.of_nat k) = None) by (apply Hnone; lia).
    unfold settles in Hk.
    destruct (client_request env (Z.of_nat k)) as [e|response]; [|discriminate].
    destruct (is_transport_error e && (Z.of_nat k <? max_retries self)%Z);
      [|discriminate].
    rewrite (IH (S k) m (Some e) (b * 2)%Q w req r).
    + cbn [failing_trace]. replace (Z.of_nat k + 1)%Z with (Z.of_nat (S k)) by lia.
      reflexivity.
    + intros j Hj. apply Hnone. lia.
    + replace (S k + n)%nat with (k + S n)%nat by lia. exact Hsome.
Qed.

Lemma request_settles n req w r :
  (Z.of_nat n <= max_retries self)%Z ->
  (forall j, (0 <= j < Z.of_nat n)%Z -> settles env self j = None) ->
  settles env self (Z.of_nat n) = Some r ->
  request env self req w = (r, w, failing_trace req 0 (retry_backoff self) n).
Proof.
  intros Hn Hnone Hsome. unfold request. rewrite range_retries by lia.
  replace (S (Z.to_nat (max_retries self)))
    with (S n + (Z.to_nat (max_retries self) - n))%nat by lia.
  apply (request_loop_settles n 0); [intros j Hj; apply Hnone; lia | exact Hsome].
Qed.

(** The last attempt always settles. *)
Lemma settles_last : exists r, settles env self (max_retries self) = Some r.
Proof.
  unfold settles. destruct (client_request env (max_retries self)) as [e|response];
    [|eauto].
  rewrite Z.ltb_irrefl, andb_false_r. eauto.
Qed.

Lemma settles_scan (bound : nat) :
  (forall j, (0 <= j < Z.of_nat bound)%Z -> settles env self j = None) \/
  exists n r, (n < bound)%nat /\
    (forall j, (0 <= j < Z.of_nat n)%Z -> settles env self j = None) /\
    settles env self (Z.of_nat n) = Some r.
Proof.
  induction bound as [|bound [Hall|(n & r & Hn & Hnone & Hsome)]].
  - left. intros j Hj. lia.
  - destruct (settles env self (Z.of_nat bound)) as [r|] eqn:Hb.
    + right. exists bound, r. split; [lia|]. split; assumption.
    + left. intros j Hj. destruct (Z.eq_dec j (Z.of_nat bound)) as [->|Hne];
        [assumption | apply Hall; lia].
  - right. exists n, r. split; [lia|]. split; assumption.
Qed.

(** Some attempt up to the last is the first to settle. *)
Lemma first_settled :
  (0 <= max_retries self)%Z ->
  exists n r, (Z.of_nat n <= max_retries self)%Z /\
    (forall j, (0 <= j < Z.of_nat n)%Z -> settles env self j = None) /\
    settles env self (Z.of_nat n) = Some r.
Proof.
  intros HN. destruct settles_last as [r Hr].
  destruct (settles_scan (Z.to_nat (max_retries self)))
    as [Hall|(n & r' & Hn & Hnone & Hsome)].
  - exists (Z.to_nat (max_retries self)), r. rewrite Z2Nat.id in * by assumption.
    split; [lia|]. split; assumption.
  - exists n, r'. split; [lia|]. split; assumption.
Qed.

(** Every run of [request] with retries allowed is a run of failed attempts
    up to the first that settles. *)
Lemma request_run :
  (0 <= max_retries self)%Z ->
  forall req w, exists n r,
    (Z.of_nat n <= max_retries self)%Z /\
    (forall j, (0 <= j < Z.of_nat n)%Z -> settles env self j = None) /\
    settles env self (Z.of_nat n) = Some r /\
    request env self req w = (r, w, failing_trace req 0 (retry_backoff self) n).
Proof.
  intros HN req w. destruct (first_settled HN) as (n & r & Hn & Hnone & Hsome).
  exists n, r. repeat split; try assumption. now apply request_settles.
Qed.

Lemma transient_settles_none k j :
  transient_before env k -> (k <= max_retries self)%Z -> (0 <= j < k)%Z ->
  settles env self j = None.
Proof.
  intros Ht Hk Hj. destruct (Ht j Hj) as (e & He & Hte). unfold settles.
  rewrite He, Hte. now rewrite (proj2 (Z.ltb_lt _ _)) by lia.
Qed.

(** No retries allowed at all: the loop body never runs. *)
Lemma request_without_attempts req w :
  (max_retries self < 0)%Z -> request env self req w = (Returned None, w, []).
Proof.
  intros HN. unfold request, range.
  replace (Z.to_nat (max_retries self + 1)) with 0%nat by lia. reflexivity.
Qed.

End RequestFacts.

(** *** Traces of failed attempts *)

Lemma failing_trace_session_events req a b n :
  forallb is_session_event (failing_trace req a b n) = true.
Proof. revert a b. induction n as [|n IH]; intros a b; simpl; auto. Qed.

Lemma failing_trace_no_post req a b n : network_requests (failing_trace req a b n) = 0%nat.
Proof.
  revert a b. induction n as [|n IH]; intros a b; [reflexivity|].
  cbn [failing_trace]. rewrite !network_requests_cons. simpl. apply IH.
Qed.

Lemma failing_trace_no_disk req a b n : disk_accesses (failing_trace req a b n) = 0%nat.
Proof.
  revert a b. induction n as [|n IH]; intros a b; [reflexivity|].
  unfold disk_accesses in *. cbn [failing_trace List.filter touches_disk]. apply IH.
Qed.

Lemma failing_trace_requests req a b n a' req' :
  In (ClientRequest a' req') (failing_trace req a b n) -> req' = req.
Proof.
  revert a b. induction n as [|n IH]; intros a b Hin.
  - destruct Hin as [[= _ <-]|[]]. reflexivity.
  - destruct Hin as [[= _ <-]|[Hin|Hin]]; [reflexivity | discriminate | eauto].
Qed.

Lemma Qpower_2_pos (n : nat) : (0 < 2 ^ Z.of_nat n)%Q.
Proof. apply Qpower_0_lt. reflexivity. Qed.

Lemma Qpower_2_succ (n : nat) : (2 ^ Z.of_nat (S n) == 2 * 2 ^ Z.of_nat n)%Q.
Proof.
  rewrite Nat2Z.inj_succ, <- Z.add_1_r, Qpower_plus by discriminate. simpl. ring.
Qed.

Lemma Qpower_2_mono (n m : nat) : (n <= m)%nat -> (2 ^ Z.of_nat n <= 2 ^ Z.of_nat m)%Q.
Proof.
  induction 1 as [|m Hle IH]; [apply Qle_refl|].
  rewrite Qpower_2_succ. pose proof (Qpower_2_pos m). lra.
Qed.

Lemma failing_trace_total_sleep req a b n :
  (total_sleep (failing_trace req a b n) == b * (2 ^ Z.of_nat n - 1))%Q.
Proof.
  unfold total_sleep. revert a b. induction n as [|n IH]; intros a b.
  - simpl. ring.
  - cbn [failing_trace delays fold_right]. rewrite IH, Qpower_2_succ. ring.
Qed.

(** The outcome of [request] when attempt [k] is the first that does not
    fail with a transport error while retries are left. *)
Lemma request_settled_at env self req w k r :
  (0 <= k <= max_retries self)%Z ->
  transient_before env k ->
  settles env self k = Some r ->
  request env self req w =
    (r, w, failing_trace req 0 (retry_backoff self) (Z.to_nat k)).
Proof.
  intros Hk Ht Hr. apply request_settles.
  - lia.
  - intros j Hj. apply (transient_settles_none env self k); [assumption | lia | lia].
  - now rewrite Z2Nat.id by lia.
Qed.

Lemma settles_response env self k response :
  client_request env k = inr response ->
  settles env self k = Some (Returned (Some response)).
Proof. intros Hr. unfold settles. now rewrite Hr. Qed.

Lemma settles_exhausted env self :
  transient_before env (max_retries self + 1) ->
  (0 <= max_retries self)%Z ->
  exists e, client_request env (max_retries self) = inl e /\
            is_transport_error e = true /\
            settles env self (max_retries self) = Some (Raised e).
Proof.
  intros Ht HN. destruct (Ht (max_retries self)) as (e & He & Hte); [lia|].
  exists e. split; [assumption|]. split; [assumption|].
  unfold settles. now rewrite He, Z.ltb_irrefl, andb_false_r.
Qed.

(** ** Events *)

Section Only.
Context (P : Event -> bool).

Lemma only_ret {A} (a : A) : only P (ret a).
Proof. intros w. reflexivity. Qed.

Lemma only_raise {A} e : only P (@raise A e).
Proof. intros w. reflexivity. Qed.

Lemma only_bind {A B} (m : M A) (k : A -> M B) :
  only P m -> (forall a, only P (k a)) -> only P (bind m k).
Proof.
  intros Hm Hk w. unfold bind. specialize (Hm w). unfold events in *.
  destruct (m w) as [[[a|e] w1] ev1]; simpl in *; [|exact Hm].
  specialize (Hk a w1). unfold events in *.
  destruct (k a w1) as [[r w2] ev2]; simpl in *.
  rewrite forallb_app, Hm, Hk. reflexivity.
Qed.

Lemma only_try_except {A} (m : M A) (h : Exn -> M A) :
  only P m -> (forall e, only P (h e)) -> only P (try_except m h).
Proof.
  intros Hm Hh w. unfold try_except. specialize (Hm w). unfold events in *.
  destruct (m w) as [[[a|e] w1] ev1]; simpl in *; [exact Hm|].
  specialize (Hh e w1). unfold events in *.
  destruct (h e w1) as [[r w2] ev2]; simpl in *.
  rewrite forallb_app, Hm, Hh. reflexivity.
Qed.

Lemma only_lift {A} (r : Py.builtin + A) : only P (lift r).
Proof. destruct r; [apply only_raise | apply only_ret]. Qed.

Lemma only_get_world : only P get_world.
Proof. intros w. reflexivity. Qed.

Lemma only_modify f : only P (modify f).
Proof. intros w. reflexivity. Qed.

Lemma only_now env : only P (now env).
Proof. intros w. reflexivity. Qed.

Lemma only_emit ev : P ev = true -> only P (emit ev).
Proof. intros HP w. simpl. now rewrite HP. Qed.

Lemma only_log l s : P (Log l s) = true -> only P (log l s).
Proof. apply only_emit. Qed.

Lemma only_path_exists env p :
  P (FileExists p) = true -> only P (path_exists env p).
Proof.
  intros HP w. unfold path_exists, bind, emit. simpl.
  destruct (can_stat env p); simpl; now rewrite HP.
Qed.

Lemma only_read_json p : P (FileRead p) = true -> only P (read_json p).
Proof.
  intros HP w. rewrite read_json_run. unfold events. simpl. now rewrite HP.
Qed.

Lemma only_write_json env p v : P (FileWrite p v) = true -> only P (write_json env p v).
Proof.
  intros HP w. unfold write_json. destruct (can_write env p); [|reflexivity].
  simpl. now rewrite HP.
Qed.

Lemma only_from_kwargs {A} (init : gmap string json -> option A) data :
  only P (from_kwargs init data).
Proof.
  unfold from_kwargs. destruct data; try apply only_raise.
  destruct (init d); [apply only_ret | apply only_raise].
Qed.

End Only.

(** One step of a proof that a computation emits [only] some events. *)
Ltac only_step :=
  match goal with
  | |- only _ (bind _ _) => apply only_bind; [|intros ?]
  | |- only _ (try_except _ _) => apply only_try_except; [|intros ?]
  | |- only _ (ret _) => apply only_ret
  | |- only _ (raise _) => apply only_raise
  | |- only _ (lift _) => apply only_lift
  | |- only _ get_world => apply only_get_world
  | |- only _ (modify _) => apply only_modify
  | |- only _ (now _) => apply only_now
  | |- only _ (emit _) => apply only_emit; reflexivity
  | |- only _ (log _ _) => apply only_log; reflexivity
  | |- only _ (path_exists _ _) => apply only_path_exists; reflexivity
  | |- only _ (read_json _) => apply only_read_json; reflexivity
  | |- only _ (write_json _ _ _) => apply only_write_json; reflexivity
  | |- only _ (from_kwargs _ _) => apply only_from_kwargs
  | |- only _ (if ?b then _ else _) => destruct b
  | |- only _ (match ?x with _ => _ end) => destruct x
  end.

Lemma get_token_manager_events `{Pydantic} env self :
  only is_manager_event (get_token env self).
Proof.
  unfold get_token, get_token_from_file_or_api, fetch_new_token, post_auth_request,
    handle_auth_response, wrap_auth_failure, error_message, requests_json,
    _save_token_to_file, save_config, _load_token_from_file, _is_token_valid.
  repeat only_step.
Qed.

Lemma no_attempt_among_manager_events evs :
  forallb is_manager_event evs = true ->
  attempts evs = 0%nat /\ forall a req, ~ In (ClientRequest a req) evs.
Proof.
  induction evs as [|ev evs IH]; [split; [reflexivity | intros a req []]|].
  simpl. intros Hall. apply andb_prop in Hall as [Hev Hall].
  destruct (IH Hall) as [IHa IHn]. split.
  - unfold attempts in *. simpl. destruct ev; try assumption. discriminate.
  - intros a req [->|Hin]; [discriminate | now apply (IHn a req)].
Qed.

(** ** [execute], step by step *)

Section ExecuteFacts.
Context `{Pydantic} (env : Env) (config : IntegraConfig) (session : HTTPSession).

Lemma handle_api_response_run response w :
  handle_api_response response w = (api_outcome response, w, []).
Proof.
  unfold api_outcome. destruct (400 <=? status_code response)%Z eqn:Hs.
  - apply Z.leb_le in Hs. now rewrite (handle_api_error_run response w Hs).
  - unfold handle_api_response. rewrite Hs. unfold try_except, httpx_json.
    destruct (json_body response); reflexivity.
Qed.

Lemma wrap_request_failure_run e w :
  wrap_request_failure env e w = (Raised (request_failure env e), w, []).
Proof.
  destruct e as [| |[] ? [?|]| | | | | |]; reflexivity.
Qed.

Lemma api_outcome_raised response e :
  api_outcome response = Raised e -> request_failure env e = e.
Proof.
  unfold api_outcome. destruct (400 <=? status_code response)%Z; [|discriminate].
  destruct (500 <=? status_code response)%Z; intros [= <-]; reflexivity.
Qed.

Lemma debug_log_run endpoint w :
  (if debug_enabled env
   then log DEBUG ("Request URL: " +:+ api_base_url config +:+ "/v1/" +:+ endpoint);;
        log DEBUG "Request body: "
   else ret tt) w = (Returned tt, w, request_log env config endpoint).
Proof. unfold request_log. destruct (debug_enabled env); reflexivity. Qed.

Lemma bearer_tokens_static w :
  auth_manager config = None ->
  bearer_tokens env config w = (Returned (token config, None), w, []).
Proof. intros Hm. unfold bearer_tokens. now rewrite Hm. Qed.

Lemma bearer_tokens_manager manager w :
  auth_manager config = Some manager ->
  bearer_tokens env config w =
    match get_token env manager w with
    | (Returned t, w1, evs1) =>
        (Returned (access_token t, Some (jwt_token t)), w1, evs1)
    | (Raised e, w1, evs1) => (Raised e, w1, evs1)
    end.
Proof.
  intros Hm. unfold bearer_tokens. rewrite Hm. unfold bind.
  destruct (get_token env manager w) as [[[t|e] w1] evs1]; [|reflexivity].
  simpl. now rewrite app_nil_r.
Qed.

Lemma execute_unfold endpoint payload w :
  execute env config session endpoint payload w =
    match bearer_tokens env config w with
    | (Raised e, w1, evs1) => (Raised e, w1, evs1)
    | (Returned tokens, w1, evs1) =>
        match request env session (api_request config endpoint payload tokens) w1 with
        | (r, w2, evs2) =>
            (match r with
             | Returned (Some response) => api_outcome response
             | Returned None => Raised (Builtin Py.AttributeError)
             | Raised e => Raised (request_failure env e)
             end, w2, evs1 ++ request_log env config endpoint ++ evs2)
        end
    end.
Proof.
  unfold execute.
  destruct (bearer_tokens env config w) as [[[tokens|e] w1] evs1] eqn:Ht.
  - rewrite (bind_returned _ _ _ _ _ _ Ht).
    rewrite (bind_returned _ _ _ _ _ _ (debug_log_run endpoint w1)).
    destruct (request env session (api_request config endpoint payload tokens) w1)
      as [[[[response|]|e] w2] evs2] eqn:Hr.
    + unfold try_except. rewrite (bind_returned _ _ _ _ _ _ Hr).
      rewrite handle_api_response_run.
      destruct (api_outcome response) as [v|e] eqn:Ho.
      * now rewrite !app_nil_r.
      * rewrite wrap_request_failure_run, (api_outcome_raised response e Ho).
        now rewrite !app_nil_r.
    + unfold try_except. rewrite (bind_returned _ _ _ _ _ _ Hr).
      unfold raise at 1. rewrite wrap_request_failure_run. now rewrite !app_nil_r.
    + unfold try_except. rewrite (bind_raised _ _ _ _ _ _ Hr).
      rewrite wrap_request_failure_run. now rewrite !app_nil_r.
  - now rewrite (bind_raised _ _ _ _ _ _ Ht).
Qed.

Lemma request_log_manager_events endpoint :
  forallb is_manager_event (request_log env config endpoint) = true.
Proof. unfold request_log. now destruct (debug_enabled env). Qed.

Lemma request_log_quiet endpoint :
  network_requests (request_log env config endpoint) = 0%nat /\
  disk_accesses (request_log env config endpoint) = 0%nat.
Proof. unfold request_log. now destruct (debug_enabled env). Qed.

End ExecuteFacts.

(** The requests [request] sends are the one it was given; it leaves the
    state alone and sends nothing elsewhere. *)
Lemma request_events env self req w :
  final (request env self req w) = w /\
  forallb is_session_event (events (request env self req w)) = true /\
  forall a req', In (ClientRequest a req') (events (request env self req w)) -> req' = req.
Proof.
  destruct (Z_lt_le_dec (max_retries self) 0) as [Hneg|HN].
  - rewrite (request_without_attempts env self req w Hneg).
    split; [reflexivity|]. split; [reflexivity|]. intros a req' [].
  - destruct (request_run env self HN req w) as (n & r & _ & _ & _ & ->).
    split; [reflexivity|]. split; [apply failing_trace_session_events|].
    intros a req'. apply failing_trace_requests.
Qed.

Lemma session_events_quiet evs :
  forallb is_session_event evs = true ->
  network_requests evs = 0%nat /\ disk_accesses evs = 0%nat.
Proof.
  induction evs as [|ev evs IH]; [split; reflexivity|].
  simpl. intros Hall. apply andb_prop in Hall as [Hev Hall].
  destruct (IH Hall) as [IHn IHd]. split.
  - rewrite network_requests_cons, IHn. now destruct ev.
  - unfold disk_accesses in *. simpl. now destruct ev.
Qed.

Lemma attempts_app e1 e2 : attempts (e1 ++ e2) = (attempts e1 + attempts e2)%nat.
Proof. unfold attempts. now rewrite List.filter_app, length_app. Qed.

Lemma disk_accesses_app e1 e2 :
  disk_accesses (e1 ++ e2) = (disk_accesses e1 + disk_accesses e2)%nat.
Proof. unfold disk_accesses. now rewrite List.filter_app, length_app. Qed.

(** ** What a computation returns *)

Lemma ensures_ret {A} (Q : A -> Prop) a : Q a -> ensures Q (ret a).
Proof. intros HQ w a' w' evs [= <- _ _]. exact HQ. Qed.

Lemma ensures_raise {A} (Q : A -> Prop) e : ensures Q (raise e).
Proof. intros w a w' evs. discriminate. Qed.

Lemma ensures_bind {A B} (P : A -> Prop) (Q : B -> Prop) (m : M A) (k : A -> M B) :
  ensures P m -> (forall a, P a -> ensures Q (k a)) -> ensures Q (bind m k).
Proof.
  intros Hm Hk w b w' evs. unfold bind.
  destruct (m w) as [[[a|e] w1] ev1] eqn:E; [|discriminate].
  destruct (k a w1) as [[r w2] ev2] eqn:E2. intros [= -> <- _].
  exact (Hk a (Hm _ _ _ _ E) _ _ _ _ E2).
Qed.

Lemma ensures_try_except {A} (Q : A -> Prop) (m : M A) (h : Exn -> M A) :
  ensures Q m -> (forall e, ensures Q (h e)) -> ensures Q (try_except m h).
Proof.
  intros Hm Hh w a w' evs. unfold try_except.
  destruct (m w) as [[[a0|e] w1] ev1] eqn:E.
  - intros [= <- <- _]. exact (Hm _ _ _ _ E).
  - destruct (h e w1) as [[r w2] ev2] eqn:E2. intros [= -> <- _].
    exact (Hh e _ _ _ _ E2).
Qed.

Lemma ensures_any {A} (m : M A) : ensures (fun _ => True) m.
Proof. intros w a w' evs _. exact I. Qed.

(** ** Tokens that passed validation *)

Section TokenFacts.
Context `{Pydantic}.

Lemma token_init_bearer d t : TokenResponse_init d = Some t -> bearer t.
Proof.
  unfold TokenResponse_init. intros Hinit.
  destruct (d !! "expires_in") as [e|]; [|discriminate].
  destruct (d !! "scope") as [s|]; [|discriminate].
  destruct (d !! "token_type") as [ty|]; [|discriminate].
  destruct (d !! "access_token") as [a|]; [|discriminate].
  destruct (d !! "jwt_token") as [j|]; [|discriminate].
  destruct (validate_int e) as [e'|]; [|discriminate].
  destruct (validate_str s) as [s'|] eqn:Hs; [|discriminate].
  destruct (validate_str ty ≫= validate_token_type) as [ty'|] eqn:Hty; [|discriminate].
  destruct (validate_str a) as [a'|] eqn:Ha; [|discriminate].
  destruct (validate_str j) as [j'|] eqn:Hj; [|discriminate].
  destruct (validate_opt_str _) as [p'|]; [|discriminate].
  injection Hinit as <-. unfold bearer. cbn [token_type].
  destruct (validate_str ty) as [x|]; [|discriminate]. cbn in Hty.
  unfold validate_token_type in Hty.
  destruct (String.eqb (Py.lower x) "bearer") eqn:Hb; [|discriminate].
  now injection Hty as <-.
Qed.

Lemma ensures_token_init data :
  ensures bearer (from_kwargs TokenResponse_init data).
Proof.
  intros w t w' evs. unfold from_kwargs. destruct data; try discriminate.
  destruct (TokenResponse_init d) as [t'|] eqn:Ht; [|discriminate].
  intros [= <- _ _]. exact (token_init_bearer d t' Ht).
Qed.

End TokenFacts.

(** One step of a proof of what a computation [ensures]. *)
Ltac ensures_step :=
  match goal with
  | |- ensures _ (bind (from_kwargs TokenResponse_init _) _) =>
      apply (ensures_bind bearer); [apply ensures_token_init | intros ? ?]
  | |- ensures _ (bind _ _) =>
      apply (ensures_bind (fun _ => True)); [apply ensures_any | intros ? _]
  | |- ensures _ (try_except _ _) => apply ensures_try_except; [|intros ?]
  | |- ensures _ (ret _) => apply ensures_ret
  | |- ensures _ (raise _) => apply ensures_raise
  | |- ensures _ (if ?b then _ else _) => destruct b
  | |- ensures _ (match ?x with _ => _ end) => destruct x
  end.

Section MoreAuthManagerFacts.
Context `{Pydantic} (env : Env) (self : AuthManager).

Lemma load_ensures_pair : ensures loaded_pair (_load_token_from_file env self).
Proof.
  unfold _load_token_from_file. repeat ensures_step; simpl; auto.
Qed.

(** [handle_auth_response] raises before it changes anything, unless it
    is the sum of the clock reading and [expires_in] that raises: the
    token is then in the cache. *)
Lemma handle_raised_cases response w e w' evs :
  handle_auth_response env self response w = (Raised e, w', evs) ->
  evs = [] /\
  (w' = w \/
   exists d t,
     status_code response = 200%Z /\
     json_body response = Some (JDict d) /\ TokenResponse_init d = Some t /\
     (Py.float_limit <= Z.abs (expires_in t))%Z /\
     e = Builtin Py.OverflowError /\
     w' = tick (with_cached_token (Some t) w)).
Proof.
  destruct (Z.eq_dec (status_code response) 200%Z) as [Hs|Hs].
  - destruct (token_body_cases response) as [(d & t & Hj & Ht)|Hbad].
    + destruct (Z.lt_ge_cases (Z.abs (expires_in t)) Py.float_limit) as [Hfit|Hbig].
      * destruct (handle_200_run env self w response d t Hs Hj Ht Hfit)
          as (w2 & evs2 & -> & _). discriminate.
      * rewrite (handle_200_overflow env self w response d t Hs Hj Ht Hbig).
        intros [= <- <- <-]. split; [reflexivity|]. right. exists d, t.
        repeat split; assumption.
    + destruct (handle_200_invalid env self w response Hs Hbad) as (cause & ->).
      intros [= _ <- <-]. split; [reflexivity | now left].
  - rewrite (handle_error_run env self w response Hs).
    intros [= _ <- <-]. split; [reflexivity | now left].
Qed.

Lemma wrap_raises_sdk_error e w :
  exists e', wrap_auth_failure env e w = (Raised e', w, []) /\ is_sdk_error e' = true.
Proof. unfold wrap_auth_failure. destruct e; simpl; eauto. Qed.

(** A failed exchange with the identity provider raises an error of the
    SDK, and changes nothing unless the provider's token has an
    [expires_in] that no float holds. *)
Lemma fetch_raised w e w' evs :
  fetch_new_token env self w = (Raised e, w', evs) ->
  is_sdk_error e = true /\
  (w' = w \/
   exists response d t msg,
     session_post env = inr response /\ status_code response = 200%Z /\
     json_body response = Some (JDict d) /\ TokenResponse_init d = Some t /\
     (Py.float_limit <= Z.abs (expires_in t))%Z /\
     e = HTTPError 0 msg None (Some (Builtin Py.OverflowError)) /\
     w' = tick (with_cached_token (Some t) w)).
Proof.
  rewrite fetch_unfold. destruct (session_post env) as [e0|response] eqn:Hp.
  - destruct (wrap_raises_sdk_error e0 w) as (e' & -> & Hsdk).
    intros [= <- <- _]. split; [assumption | now left].
  - destruct (handle_auth_response env self response w) as [[[t|e1] w1] evs1] eqn:E;
      [discriminate|].
    apply handle_raised_cases in E as [-> [->|(d & t & Hs & Hj & Ht & Hbig & -> & ->)]].
    + destruct (wrap_raises_sdk_error e1 w) as (e' & -> & Hsdk).
      intros [= <- <- _]. split; [assumption | now left].
    + cbn [wrap_auth_failure raise]. intros [= <- <- _]. split; [reflexivity|].
      right. exists response, d, t. eexists. repeat split; assumption.
Qed.

(** The four ways [get_token] runs. *)
Lemma get_token_cases w :
  (exists cached,
     valid_now env w None None = true /\ _cached_token w = Some cached /\
     get_token env self w =
       (Returned cached, tick w, [Log DEBUG "Using cached token from memory"]))
  \/
  (exists ft fe w2 evs2,
     valid_now env w None None = false /\
     _load_token_from_file env self (after_check w None None)
       = (Returned (Some ft, Some fe), w2, evs2) /\
     bearer ft /\ same_store w w2 /\ network_requests evs2 = 0%nat /\
     valid_now env w2 (Some ft) (Some fe) = true /\
     get_token env self w =
       (Returned ft,
        with_token_expires_at (Some fe)
          (with_cached_token (Some ft) (after_check w2 (Some ft) (Some fe))),
        evs2 ++ [Log DEBUG "Using token from file"]))
  \/
  (exists w3 evs2,
     valid_now env w None None = false /\
     same_store w w3 /\ network_requests evs2 = 0%nat /\
     get_token env self w =
       (let '(r, w', evs') := fetch_new_token env self w3 in (r, w', evs2 ++ evs')))
  \/
  (valid_now env w None None = false /\
   can_stat env (token_file_path self) = false /\
   get_token env self w =
     (Raised (Builtin Py.OSError), after_check w None None,
      [FileExists (token_file_path self)])).
Proof.
  destruct (valid_now env w None None) eqn:V.
  - left. destruct (get_token_memory env self w V) as (t & Hc & E). eauto.
  - right. rewrite (get_token_miss env self w V).
    pose proof (after_check_same_store w None None) as S1.
    destruct (can_stat env (token_file_path self)) eqn:Hstat.
    2: { right. right. rewrite (from_file_refused env self _ Hstat). auto. }
    destruct (from_file_or_api_cases env self (after_check w None None) Hstat)
      as (loaded & w2 & evs2 & El & S2 & N2 & [(ft & Hft & Hv & E)|(_ & w3 & S3 & _ & E)]).
    + left. pose proof (load_ensures_pair _ _ _ _ El) as Hp.
      destruct loaded as [[ft'|] [fe|]]; cbn [fst snd] in *; try discriminate;
        try contradiction.
      injection Hft as ->. exists ft, fe, w2, evs2.
      split; [reflexivity|]. split; [exact El|]. split; [exact Hp|].
      split; [etransitivity; [exact S1 | exact S2]|].
      split; [exact N2|]. split; [exact Hv | exact E].
    + right. left. exists w3, evs2. split; [reflexivity|].
      split; [etransitivity; [exact S1 | exact S3]|]. split; assumption.
Qed.

End MoreAuthManagerFacts.

Lemma token_data_holds t saved_at : holds_token (token_data t saved_at) t.
Proof. repeat split. Qed.

Lemma all_in_present fields d :
  (forall f, In f fields -> is_Some (d !! f)) -> Py.all_in fields (JDict d) = inr true.
Proof.
  induction fields as [|g rest IH]; intros Hall; [reflexivity|].
  simpl. rewrite bool_decide_eq_true_2 by (apply Hall; now left).
  apply IH. intros f Hf. apply Hall. now right.
Qed.

Section AuthManagerRuns.
Context `{Pydantic} (env : Env) (self : AuthManager).

(** What [get_token] returns is in the cache afterwards, and passed
    validation when the cache was in order. *)
Lemma get_token_returned w t w' evs :
  get_token env self w = (Returned t, w', evs) ->
  _cached_token w' = Some t /\
  is_Some (_token_expires_at w') /\
  (cache_ok w -> bearer t).
Proof.
  destruct (get_token_cases env self w)
    as [(cached & V & Hc & ->)
       |[(ft & fe & w2 & evs2 & V & El & Hb & S2 & N2 & Hv & ->)
        |[(w3 & evs2 & V & S3 & N2 & ->)|(V & Hstat & ->)]]]; [| | |discriminate].
  - intros [= <- <- _]. split; [exact Hc|]. split.
    + unfold valid_now in V. rewrite Hc in V. cbn [or_else] in V.
      cbn [tick _token_expires_at].
      destruct (_token_expires_at w); [eauto | discriminate].
    + intros Hok. now apply Hok.
  - intros [= <- <- _]. split; [reflexivity|]. split; [eexists; reflexivity|].
    intros _. exact Hb.
  - destruct (fetch_new_token env self w3) as [[r w4] evs4] eqn:Ef.
    intros [= -> <- _].
    destruct (fetch_returned_inv env self w3 t w4 evs4 Ef)
      as (Hfit & response & d & Hp & Hs & Hj & Ht).
    destruct (fetch_success env self w3 response d t Hp Hs Hj Ht Hfit)
      as (w5 & evs5 & Ef' & Hc & Hx & _).
    rewrite Ef in Ef'. injection Ef' as <- _.
    split; [exact Hc|]. split; [rewrite Hx; eauto|].
    intros _. exact (token_init_bearer d t Ht).
Qed.

(** A [get_token] that raises: the OSError of [exists()] when [stat] of
    the token file is refused, and an error of the SDK otherwise; the
    cache is as it was unless the provider's token has an [expires_in]
    that no float holds. *)
Lemma get_token_raised w e w' evs :
  get_token env self w = (Raised e, w', evs) ->
  _token_expires_at w' = _token_expires_at w /\
  files w' = files w /\
  (is_sdk_error e = true \/
   e = Builtin Py.OSError /\ can_stat env (token_file_path self) = false /\
   network_requests evs = 0%nat) /\
  (_cached_token w' = _cached_token w \/
   exists response d t msg,
     session_post env = inr response /\ status_code response = 200%Z /\
     json_body response = Some (JDict d) /\ TokenResponse_init d = Some t /\
     (Py.float_limit <= Z.abs (expires_in t))%Z /\
     e = HTTPError 0 msg None (Some (Builtin Py.OverflowError)) /\
     _cached_token w' = Some t).
Proof.
  destruct (get_token_cases env self w)
    as [(cached & V & Hc & ->)
       |[(ft & fe & w2 & evs2 & V & El & Hb & S2 & N2 & Hv & ->)
        |[(w3 & evs2 & V & S3 & N2 & ->)|(V & Hstat & ->)]]]; try discriminate.
  - destruct (fetch_new_token env self w3) as [[r w4] evs4] eqn:Ef.
    intros [= -> <- _]. destruct S3 as (C3 & X3 & F3 & _).
    apply fetch_raised in Ef
      as [Hsdk [->|(response & d & t & msg & Hp & Hs & Hj & Ht & Hbig & -> & ->)]].
    + repeat split; auto.
    + split; [exact X3|]. split; [exact F3|]. split; [now left|].
      right. exists response, d, t, msg. repeat split; assumption.
  - intros [= <- <- <-].
    destruct (after_check_same_store w None None) as (C1 & X1 & F1 & _).
    split; [exact X1|]. split; [exact F1|]. split; [|now left].
    right. repeat split. exact Hstat.
Qed.

(** A token file that holds the fields of a token. *)
Lemma load_holding w d t saved e :
  can_stat env (token_file_path self) = true ->
  files w !! token_file_path self = Some (JSONText (JDict d)) ->
  holds_token d t ->
  bearer t ->
  Py.dict_get d "saved_at" (JFloat (time_time env (clock_reads w))) = saved ->
  Py.add_int saved (expires_in t) = inr e ->
  exists evs,
    _load_token_from_file env self w = (Returned (Some t, Some e), tick w, evs) /\
    network_requests evs = 0%nat /\
    In (FileRead (token_file_path self)) evs.
Proof.
  intros Hstat Hf (H1 & H2 & H3 & H4 & H5 & H6) Hb Hsaved Hadd.
  unfold _load_token_from_file.
  rewrite (bind_returned _ _ _ _ _ _ (path_exists_run env _ w Hstat)), Hf.
  rewrite bool_decide_eq_true_2 by eauto. cbn [negb].
  pose proof (read_json_run (token_file_path self) w) as Hr. rewrite Hf in Hr.
  assert (Hall : Py.all_in required_fields (JDict d) = inr true).
  { apply all_in_present. intros f [<-|[<-|[<-|[<-|[]]]]]; eauto. }
  erewrite try_returned.
  2: { rewrite (bind_returned _ _ _ _ _ _ Hr), Hall.
    rewrite (bind_returned _ _ w true w [] eq_refl). cbn [negb].
    unfold Py.getitem, Py.get. rewrite H1, H2, H3, H4, H5, H6.
    rewrite (bind_returned _ _ w _ w [] eq_refl).
    rewrite (bind_returned _ _ w _ w [] eq_refl).
    rewrite (bind_returned _ _ w _ w [] eq_refl).
    rewrite (bind_returned _ _ w _ w [] eq_refl).
    rewrite (bind_returned _ _ w _ w [] eq_refl).
    rewrite (bind_returned _ _ w _ w [] eq_refl).
    unfold from_kwargs at 1. rewrite (token_response_rebuilt t Hb).
    rewrite (bind_returned _ _ w t w [] eq_refl).
    rewrite (bind_returned _ _ w _ (tick w) [] eq_refl).
    rewrite Hsaved, (bind_returned _ _ (tick w) _ (tick w) [] eq_refl).
    rewrite Hadd. rewrite (bind_returned _ _ (tick w) _ (tick w) [] eq_refl).
    reflexivity. }
  eexists. split; [reflexivity|]. split; [reflexivity|]. simpl. auto.
Qed.

(** A token file that holds the fields of a token, with a [saved_at] to
    which [expires_in] cannot be added: the [except] clause makes it no
    token. *)
Lemma load_holding_raises w d t saved cls :
  can_stat env (token_file_path self) = true ->
  files w !! token_file_path self = Some (JSONText (JDict d)) ->
  holds_token d t ->
  bearer t ->
  Py.dict_get d "saved_at" (JFloat (time_time env (clock_reads w))) = saved ->
  Py.add_int saved (expires_in t) = inl cls ->
  exists evs,
    _load_token_from_file env self w = (Returned (None, None), tick w, evs) /\
    network_requests evs = 0%nat.
Proof.
  intros Hstat Hf (H1 & H2 & H3 & H4 & H5 & H6) Hb Hsaved Hadd.
  unfold _load_token_from_file.
  rewrite (bind_returned _ _ _ _ _ _ (path_exists_run env _ w Hstat)), Hf.
  rewrite bool_decide_eq_true_2 by eauto. cbn [negb].
  pose proof (read_json_run (token_file_path self) w) as Hr. rewrite Hf in Hr.
  assert (Hall : Py.all_in required_fields (JDict d) = inr true).
  { apply all_in_present. intros f [<-|[<-|[<-|[<-|[]]]]]; eauto. }
  erewrite try_raised.
  2: { rewrite (bind_returned _ _ _ _ _ _ Hr), Hall.
    rewrite (bind_returned _ _ w true w [] eq_refl). cbn [negb].
    unfold Py.getitem, Py.get. rewrite H1, H2, H3, H4, H5, H6.
    rewrite (bind_returned _ _ w _ w [] eq_refl).
    rewrite (bind_returned _ _ w _ w [] eq_refl).
    rewrite (bind_returned _ _ w _ w [] eq_refl).
    rewrite (bind_returned _ _ w _ w [] eq_refl).
    rewrite (bind_returned _ _ w _ w [] eq_refl).
    rewrite (bind_returned _ _ w _ w [] eq_refl).
    unfold from_kwargs at 1. rewrite (token_response_rebuilt t Hb).
    rewrite (bind_returned _ _ w t w [] eq_refl).
    rewrite (bind_returned _ _ w _ (tick w) [] eq_refl).
    rewrite Hsaved, (bind_returned _ _ (tick w) _ (tick w) [] eq_refl).
    rewrite Hadd. rewrite (bind_raised _ _ (tick w) (Builtin cls) (tick w) [] eq_refl).
    reflexivity. }
  destruct (load_handler_run (Builtin cls) (tick w)) as (l & -> & Hl).
  eexists. split; [reflexivity|].
  cbn [app]. rewrite !network_requests_cons, Hl. reflexivity.
Qed.

(** The configuration file after a token was accepted. *)
Lemma handle_200_config w response d t :
  status_code response = 200%Z ->
  json_body response = Some (JDict d) ->
  TokenResponse_init d = Some t ->
  (Z.abs (expires_in t) < Py.float_limit)%Z ->
  exists w' evs,
    handle_auth_response env self response w = (Returned t, w', evs) /\
    files w' !! config_file_path self =
      match environment self with
      | PRODUCTION =>
          if can_write env (config_file_path self)
          then Some (JSONText (JDict (config_data self
                                        (time_time env (S (S (clock_reads w)))))))
          else files w !! config_file_path self
      | TRIAL => files w !! config_file_path self
      end.
Proof.
  intros Hs Hj Ht Hfit. rewrite (handle_200_unfold env self w response d t Hs Hj Ht).
  rewrite (float_add_int_fits _ _ Hfit).
  rewrite (bind_pure _ _ _ _ _ eq_refl).
  rewrite (bind_pure _ _ _ tt _ eq_refl).
  set (w3 := with_token_expires_at _ _).
  destruct (save_token_run env self t w3) as (evs1 & E1 & N1).
  rewrite (bind_returned _ _ _ _ _ _ E1).
  set (w4 := if can_write env (token_file_path self) then _ else _) in *.
  assert (C4 : clock_reads w4 = S (S (clock_reads w)) /\
               files w4 !! config_file_path self = files w !! config_file_path self).
  { subst w4 w3. destruct (can_write env (token_file_path self)); simpl;
      (split; [reflexivity|]); [|reflexivity].
    apply lookup_insert_ne. apply token_config_paths_differ. }
  clearbody w4. clear E1. destruct C4 as (K & F).
  destruct (environment self).
  - simpl. do 2 eexists. split; [reflexivity | exact F].
  - destruct (save_config_run env self w4) as (evs2 & E2 & N2).
    rewrite (bind_returned _ _ _ _ _ _ E2). simpl.
    do 2 eexists. split; [reflexivity|].
    destruct (can_write env (config_file_path self)); simpl; [|exact F].
    rewrite K. apply lookup_insert_eq.
Qed.

End AuthManagerRuns.

Section AuthManagerMoreRuns.
Context `{Pydantic} (env : Env) (self : AuthManager).

Lemma valid_now_without_cache w :
  _cached_token w = None -> valid_now env w None None = false.
Proof. intros Hc. unfold valid_now. now rewrite Hc. Qed.

Lemma after_check_without_cache w :
  _cached_token w = None -> after_check w None None = w.
Proof. intros Hc. unfold after_check. now rewrite Hc. Qed.

(** A successful exchange is a response that [handle_auth_response]
    accepted. *)
Lemma fetch_returned_state w t w' evs :
  fetch_new_token env self w = (Returned t, w', evs) ->
  exists response d evs1,
    session_post env = inr response /\ status_code response = 200%Z /\
    json_body response = Some (JDict d) /\ TokenResponse_init d = Some t /\
    (Z.abs (expires_in t) < Py.float_limit)%Z /\
    handle_auth_response env self response w = (Returned t, w', evs1).
Proof.
  intros Ef. destruct (fetch_returned_inv env self w t w' evs Ef)
    as (Hfit & response & d & Hp & Hs & Hj & Ht).
  exists response, d. rewrite fetch_unfold, Hp in Ef.
  destruct (handle_auth_response env self response w) as [[[t'|e] w1] evs1] eqn:E.
  - injection Ef as <- <- _. exists evs1. repeat split; assumption.
  - destruct (wrap_run env e w1) as [e' He']. rewrite He' in Ef. discriminate.
Qed.

(** A 200 whose body is no token. *)
Lemma fetch_invalid_body w response :
  session_post env = inr response ->
  status_code response = 200%Z ->
  (forall d, json_body response = Some (JDict d) -> TokenResponse_init d = None) ->
  exists msg cause,
    fetch_new_token env self w =
      (Raised (HTTPError 0 msg None (Some cause)), w, fetch_prefix self).
Proof.
  intros Hp Hs Hbad. rewrite fetch_unfold, Hp.
  assert (Hcause : exists cause,
             handle_auth_response env self response w = (Raised cause, w, []) /\
             (cause = RequestException "JSONDecodeError" None \/
              exists cls, cause = Builtin cls)).
  { unfold handle_auth_response. rewrite Hs, Z.eqb_refl. cbv iota.
    destruct (json_body response) as [v|] eqn:Hj.
    - rewrite (bind_pure _ _ w v w) by (unfold requests_json; now rewrite Hj).
      destruct v; try (eexists; split; [reflexivity | right; eexists; reflexivity]).
      exists (Builtin Py.ValidationError). split; [|right; eexists; reflexivity].
      apply bind_raised. unfold from_kwargs. now rewrite (Hbad d eq_refl).
    - eexists. split; [|left; reflexivity]. apply bind_raised. unfold requests_json.
      now rewrite Hj. }
  destruct Hcause as (cause & -> & [->|[cls ->]]); do 2 eexists; reflexivity.
Qed.

End AuthManagerMoreRuns.

(** ** [load_config] *)

Section LoadConfigFacts.
Context `{Pydantic} `{PydanticFloat} (env : Env) (install : Install).

Lemma saved_config_rebuilt (self : AuthManager) (saved_at : Q) :
  SavedAuthConfig_init (config_data self saved_at) =
    Some {| Saved.consumer_key := consumer_key (credentials self);
            Saved.consumer_secret := consumer_secret (credentials self);
            Saved.certificate_path := path (certificate self);
            Saved.certificate_password := password (certificate self);
            Saved.environment := Environment_value (environment self);
            Saved.saved_at := Some saved_at |}.
Proof.
  unfold SavedAuthConfig_init.
  assert (L : config_data self saved_at !! "consumer_key"
                = Some (JStr (consumer_key (credentials self))) /\
              config_data self saved_at !! "consumer_secret"
                = Some (JStr (consumer_secret (credentials self))) /\
              config_data self saved_at !! "certificate_path"
                = Some (JStr (path (certificate self))) /\
              config_data self saved_at !! "certificate_password"
                = Some (JStr (password (certificate self))) /\
              config_data self saved_at !! "environment"
                = Some (JStr (Environment_value (environment self))) /\
              Py.dict_get (config_data self saved_at) "saved_at" JNull = JFloat saved_at)
    by (repeat split).
  destruct L as (L1 & L2 & L3 & L4 & L5 & L6). rewrite L1, L2, L3, L4, L5, L6.
  rewrite !validate_str_str. unfold validate_opt_float.
  now rewrite validate_float_float.
Qed.

Lemma config_data_complete self saved_at :
  Py.all_in config_required_fields (JDict (config_data self saved_at)) = inr true.
Proof. reflexivity. Qed.

Lemma config_dir_given p w : config_dir_of env install (Some p) w = (Returned p, w, []).
Proof. reflexivity. Qed.

Lemma quiet_load_config p : quiet (load_config env install p).
Proof.
  unfold load_config, config_dir_of. repeat obeys_step.
Qed.

Lemma load_config_returns dir :
  can_stat env (dir +:+ "/config.json") = true ->
  returns (load_config env install (Some dir)).
Proof.
  intros Hs w. unfold load_config.
  rewrite (bind_pure _ _ _ _ _ (config_dir_given dir w)). revert w.
  match goal with
  | |- forall w, exists a, result (?m w) = Returned a => change (returns m)
  end.
  apply returns_bind; [now apply returns_path_exists|]. intros found.
  destruct found; simpl.
  - apply returns_try_except. intros e.
    destruct e as [[]| | | | | | | |];
      (apply returns_bind; [apply returns_log | intros; apply returns_ret]).
  - apply returns_bind; [apply returns_log | intros; apply returns_ret].
Qed.

(** When [stat] of the configuration file is refused, [exists()] raises
    before the [try]. *)
Lemma load_config_refused dir w :
  can_stat env (dir +:+ "/config.json") = false ->
  load_config env install (Some dir) w =
    (Raised (Builtin Py.OSError), w, [FileExists (dir +:+ "/config.json")]).
Proof.
  intros Hs. unfold load_config.
  rewrite (bind_returned _ _ _ _ _ _ (config_dir_given dir w)).
  now rewrite (bind_raised _ _ _ _ _ _ (path_exists_refused env _ w Hs)).
Qed.

(** What the [except] clauses of [load_config] do. *)
Lemma load_config_handler_run e w :
  exists l,
    match e with
    | Builtin Py.JSONDecodeError =>
        log WARNING "Invalid JSON in config file";; ret None
    | _ => log WARNING "Failed to load auth config from file";; ret None
    end w = (Returned (@None Saved.SavedAuthConfig), w, [l]).
Proof. destruct e as [[]| | | | | | | |]; eexists; reflexivity. Qed.

Lemma load_config_absent dir w :
  can_stat env (dir +:+ "/config.json") = true ->
  files w !! (dir +:+ "/config.json") = None ->
  load_config env install (Some dir) w =
    (Returned None, w,
     [FileExists (dir +:+ "/config.json"); Log DEBUG "No auth config file found"]).
Proof.
  intros Hs Hf. unfold load_config.
  rewrite (bind_returned _ _ _ _ _ _ (config_dir_given dir w)).
  rewrite (bind_returned _ _ _ _ _ _ (path_exists_run env _ w Hs)), Hf.
  rewrite bool_decide_eq_false_2; [reflexivity|]. intros [x Hx]. discriminate.
Qed.

Lemma load_config_malformed dir w c :
  can_stat env (dir +:+ "/config.json") = true ->
  files w !! (dir +:+ "/config.json") = Some c ->
  no_saved_config c ->
  exists evs, load_config env install (Some dir) w = (Returned None, w, evs).
Proof.
  intros Hs Hf Hc. unfold load_config.
  rewrite (bind_returned _ _ _ _ _ _ (config_dir_given dir w)).
  rewrite (bind_returned _ _ _ _ _ _ (path_exists_run env _ w Hs)), Hf.
  rewrite bool_decide_eq_true_2 by eauto. cbn [negb app].
  match goal with
  | |- context [try_except ?m ?h w] =>
      assert (Hb : exists evs,
                 m w = (Returned None, w, evs) \/ exists e, m w = (Raised e, w, evs))
  end.
  { pose proof (read_json_run (dir +:+ "/config.json") w) as Hr. rewrite Hf in Hr.
    destruct c as [| |v].
    - rewrite (bind_raised _ _ _ _ _ _ Hr). eauto.
    - rewrite (bind_raised _ _ _ _ _ _ Hr). eauto.
    - rewrite (bind_returned _ _ _ _ _ _ Hr).
      destruct (Py.all_in config_required_fields v) as [cls|[|]] eqn:Ha.
      + rewrite (bind_raised _ _ w (Builtin cls) w [] eq_refl). eauto.
      + rewrite (bind_returned _ _ w true w [] eq_refl). cbn [negb].
        destruct v;
          try (rewrite (bind_raised _ _ w (Builtin Py.TypeError) w [] eq_refl); eauto).
        destruct Hc as (f & Hin & Hf').
        rewrite (all_in_missing _ _ _ Hin Hf') in Ha. discriminate.
      + rewrite (bind_returned _ _ w false w [] eq_refl). cbn [negb].
        eexists. left. reflexivity. }
  destruct Hb as (evs & [Hb|[e Hb]]).
  - rewrite (try_returned _ _ _ _ _ _ Hb). eexists. reflexivity.
  - rewrite (try_raised _ _ _ _ _ _ Hb).
    destruct (load_config_handler_run e w) as (l & ->).
    eexists. reflexivity.
Qed.

Lemma load_config_saved dir w self saved_at :
  can_stat env (dir +:+ "/config.json") = true ->
  files w !! (dir +:+ "/config.json")
    = Some (JSONText (JDict (config_data self saved_at))) ->
  exists evs,
    load_config env install (Some dir) w =
      (Returned
         (Some {| Saved.consumer_key := consumer_key (credentials self);
                  Saved.consumer_secret := consumer_secret (credentials self);
                  Saved.certificate_path := path (certificate self);
                  Saved.certificate_password := password (certificate self);
                  Saved.environment := Environment_value (environment self);
                  Saved.saved_at := Some saved_at |}), w, evs).
Proof.
  intros Hs Hf. unfold load_config.
  rewrite (bind_returned _ _ _ _ _ _ (config_dir_given dir w)).
  rewrite (bind_returned _ _ _ _ _ _ (path_exists_run env _ w Hs)), Hf.
  rewrite bool_decide_eq_true_2 by eauto. cbn [negb app].
  pose proof (read_json_run (dir +:+ "/config.json") w) as Hr. rewrite Hf in Hr.
  erewrite try_returned.
  2: { rewrite (bind_returned _ _ _ _ _ _ Hr), config_data_complete.
    rewrite (bind_returned _ _ w true w [] eq_refl). cbn [negb].
    unfold from_kwargs at 1. rewrite (saved_config_rebuilt self saved_at).
    rewrite (bind_returned _ _ w _ w [] eq_refl).
    reflexivity. }
  eexists. reflexivity.
Qed.

End LoadConfigFacts.

Lemma Environment_of_value_value e : Environment_of_value (Environment_value e) = Some e.
Proof. now destruct e. Qed.

(** ** Base64 *)

Module Base64Facts.
Import Base64.

Lemma sextets_ok :
  forallb (fun i => N.eqb (index (char i)) i && negb (Ascii.eqb (char i) "="))
    (map N.of_nat (seq 0 64)) = true.
Proof. vm_compute. reflexivity. Qed.

Lemma char_index i : (i < 64)%N -> index (char i) = i /\ Ascii.eqb (char i) "=" = false.
Proof.
  intros Hi. pose proof sextets_ok as Hall. rewrite forallb_forall in Hall.
  specialize (Hall i). rewrite andb_true_iff, N.eqb_eq, negb_true_iff in Hall.
  apply Hall. apply in_map_iff. exists (N.to_nat i). split; [lia|].
  apply in_seq. lia.
Qed.

Lemma byte_bound c : (byte c < 256)%N.
Proof. unfold byte. apply N_ascii_bounded. Qed.

Lemma ascii_of_byte c : ascii_of_N (byte c) = c.
Proof. apply ascii_N_embedding. Qed.

Ltac euclid := zify; Z.to_euclidean_division_equations; lia.

Lemma decode_three a b c rest :
  decode (b64encode (String a (String b (String c rest)))) =
    String a (String b (String c (decode (b64encode rest)))).
Proof.
  pose proof (byte_bound a) as Ha. pose proof (byte_bound b) as Hb.
  pose proof (byte_bound c) as Hc.
  cbn [b64encode]. set (n := (byte a * 65536 + byte b * 256 + byte c)%N).
  cbn [decode].
  destruct (char_index (n / 262144)) as [I1 E1]; [subst n; euclid|].
  destruct (char_index ((n / 4096) mod 64)) as [I2 E2]; [euclid|].
  destruct (char_index ((n / 64) mod 64)) as [I3 E3]; [euclid|].
  destruct (char_index (n mod 64)) as [I4 E4]; [euclid|].
  rewrite E3, E4, I1, I2, I3, I4.
  replace (n / 262144 * 262144 + (n / 4096) mod 64 * 4096 + (n / 64) mod 64 * 64
           + n mod 64)%N with n by euclid.
  replace (n / 65536)%N with (byte a) by (subst n; euclid).
  replace ((n / 256) mod 256)%N with (byte b) by (subst n; euclid).
  replace (n mod 256)%N with (byte c) by (subst n; euclid).
  now rewrite !ascii_of_byte.
Qed.

Lemma decode_two a b :
  decode (b64encode (String a (String b EmptyString))) = String a (String b EmptyString).
Proof.
  pose proof (byte_bound a) as Ha. pose proof (byte_bound b) as Hb.
  cbn [b64encode]. set (n := ((byte a * 256 + byte b) * 4)%N).
  cbn [decode].
  destruct (char_index (n / 4096)) as [I1 E1]; [subst n; euclid|].
  destruct (char_index ((n / 64) mod 64)) as [I2 E2]; [euclid|].
  destruct (char_index (n mod 64)) as [I3 E3]; [euclid|].
  rewrite E3, I1, I2, I3. cbn [Ascii.eqb Bool.eqb].
  set (m := (n / 4096 * 262144 + (n / 64) mod 64 * 4096 + n mod 64 * 64 + 0)%N).
  replace (m / 65536)%N with (byte a) by (subst m n; euclid).
  replace ((m / 256) mod 256)%N with (byte b) by (subst m n; euclid).
  now rewrite !ascii_of_byte.
Qed.

Lemma decode_one a : decode (b64encode (String a EmptyString)) = String a EmptyString.
Proof.
  pose proof (byte_bound a) as Ha.
  cbn [b64encode]. set (n := (byte a * 16)%N).
  cbn [decode].
  destruct (char_index (n / 64)) as [I1 E1]; [subst n; euclid|].
  destruct (char_index (n mod 64)) as [I2 E2]; [euclid|].
  rewrite I1, I2. cbn [Ascii.eqb Bool.eqb].
  set (m := (n / 64 * 262144 + n mod 64 * 4096 + 0 * 64 + 0)%N).
  replace (m / 65536)%N with (byte a) by (subst m n; euclid).
  now rewrite !ascii_of_byte.
Qed.

Lemma string_ind3 (P : string -> Prop) :
  P EmptyString ->
  (forall a, P (String a EmptyString)) ->
  (forall a b, P (String a (String b EmptyString))) ->
  (forall a b c rest, P rest -> P (String a (String b (String c rest)))) ->
  forall s, P s.
Proof.
  intros H0 H1 H2 H3.
  fix IH 1. intros [|a [|b [|c rest]]].
  - exact H0.
  - apply H1.
  - apply H2.
  - apply H3. apply IH.
Qed.

(** Decoding what was encoded gives the bytes back. *)
Lemma decode_b64encode s : decode (b64encode s) = s.
Proof.
  induction s as [|a|a b|a b c rest IH] using string_ind3.
  - reflexivity.
  - apply decode_one.
  - apply decode_two.
  - now rewrite decode_three, IH.
Qed.

Lemma b64encode_inj s1 s2 : b64encode s1 = b64encode s2 -> s1 = s2.
Proof.
  intros E. rewrite <- (decode_b64encode s1), <- (decode_b64encode s2). now rewrite E.
Qed.

End Base64Facts.

(** The pair before and after the first colon. *)
Lemma colon_split k1 s1 k2 s2 :
  colon_free k1 = true -> colon_free k2 = true ->
  k1 +:+ ":" +:+ s1 = k2 +:+ ":" +:+ s2 -> k1 = k2 /\ s1 = s2.
Proof.
  revert k2. induction k1 as [|c k1 IH]; intros [|c2 k2] H1 H2 E.
  - change (String ":" s1 = String ":" s2) in E. injection E as ->.
    split; reflexivity.
  - change (String ":" s1 = String c2 (k2 +:+ ":" +:+ s2)) in E. injection E as <- _.
    cbn [colon_free] in H2. now rewrite Ascii.eqb_refl in H2.
  - change (String c (k1 +:+ ":" +:+ s1) = String ":" s2) in E. injection E as -> _.
    cbn [colon_free] in H1. now rewrite Ascii.eqb_refl in H1.
  - change (String c (k1 +:+ ":" +:+ s1) = String c2 (k2 +:+ ":" +:+ s2)) in E.
    injection E as -> E. cbn [colon_free] in H1, H2.
    apply andb_prop in H1 as [_ H1]. apply andb_prop in H2 as [_ H2].
    destruct (IH k2 H1 H2 E) as [-> ->]. split; reflexivity.
Qed.
(** * The claims *)

(** Names the value a closed computation evaluates to. *)
Ltac run_of term name :=
  let v := eval vm_compute in term in
  assert (name : term = v) by (vm_compute; reflexivity).



(** C2.  [_is_token_valid] never raises and changes neither the cache nor
    the files.  It answers true exactly when a token and an expiry are
    present (the arguments, or the cached ones for an argument that is
    [None]) and the current time is strictly less than the expiry minus
    60; given a token and an expiry this is [now < expiresAt - 60].
    Consequently, after [get_token] acquired a token from the identity
    provider, the expiry is the acquisition time plus [expires_in]; the
    check answers true when [expires_in > 60] and the clock still shows
    the acquisition time, and false once the clock reaches the expiry
    minus 60. *)
Theorem is_token_valid_sixty_second_buffer `{Pydantic} (env : Env) (self : AuthManager) :
  (forall w token expires_at,
     exists b w',
       _is_token_valid env token expires_at w = (Returned b, w', []) /\
       same_store w w' /\
       (b = true <->
        exists t e,
          or_else token (_cached_token w) = Some t /\
          or_else expires_at (_token_expires_at w) = Some e /\
          (time_time env (clock_reads w) < e - 60)%Q))
  /\
  (forall w (token : TokenResponse) (expiresAt : Q),
     result (_is_token_valid env (Some token) (Some expiresAt) w) = Returned true <->
     (time_time env (clock_reads w) < expiresAt - 60)%Q)
  /\
  (forall w0 t w1 evs,
     get_token env self w0 = (Returned t, w1, evs) ->
     network_requests evs <> 0%nat ->
     exists k,
       (clock_reads w0 <= k < clock_reads w1)%nat /\
       let acquired_at := time_time env k in
       _cached_token w1 = Some t /\
       _token_expires_at w1 = Some (acquired_at + inject_Z (expires_in t))%Q /\
       ((60 < expires_in t)%Z ->
        time_time env (clock_reads w1) == acquired_at ->
        result (_is_token_valid env None None w1) = Returned true) /\
       ((acquired_at + inject_Z (expires_in t) - 60 <= time_time env (clock_reads w1))%Q ->
        result (_is_token_valid env None None w1) = Returned false)).
Proof.
  split; [|split].
  - intros w token expires_at. rewrite is_token_valid_run.
    do 2 eexists. split; [reflexivity|]. split; [apply after_check_same_store|].
    unfold valid_now.
    destruct (or_else token (_cached_token w)) as [t|],
             (or_else expires_at (_token_expires_at w)) as [e|].
    + rewrite ltb_lt. split.
      * intros Hlt. exists t, e. auto.
      * intros (t' & e' & _ & [= <-] & Hlt). exact Hlt.
    + split; [discriminate|]. intros (t' & e' & _ & He & _). discriminate.
    + split; [discriminate|]. intros (t' & e' & Ht & _). discriminate.
    + split; [discriminate|]. intros (t' & e' & Ht & _). discriminate.
  - intros w token expiresAt. rewrite is_token_valid_run. unfold result, valid_now.
    cbn [fst or_else]. rewrite <- ltb_lt. split; [now intros [= ->] | now intros ->].
  - intros w0 t w1 evs Hrun Hposted.
    destruct (get_token_posted env self w0) as (w3 & evs0 & S3 & N0 & E).
    { rewrite Hrun. exact Hposted. }
    rewrite Hrun in E.
    destruct (fetch_new_token env self w3) as [[r w'] evs'] eqn:Ef.
    injection E as <- <- ->.
    destruct (fetch_returned_inv env self w3 t w1 evs' Ef)
      as (Hfit & response & d & Hp & Hs & Hj & Ht).
    destruct (fetch_success env self w3 response d t Hp Hs Hj Ht Hfit)
      as (w'' & evs'' & Ef' & Hc & Hx & Hk & _).
    rewrite Ef in Ef'. injection Ef' as <- <-.
    exists (clock_reads w3). destruct S3 as (_ & _ & _ & K3).
    split; [lia|]. cbv zeta. split; [assumption|]. split; [assumption|].
    rewrite is_token_valid_run. unfold result, valid_now. cbn [fst or_else].
    rewrite Hc, Hx. split.
    + intros Hlong Hsame. f_equal. apply ltb_lt.
      assert (60 < inject_Z (expires_in t))%Q
        by (change 60%Q with (inject_Z 60); now rewrite <- Zlt_Qlt).
      rewrite Hsame. lra.
    + intros Hlate. f_equal. now apply ltb_ge.
Qed.

(** C2 on sample data: [sample_token] lives 2000 seconds and is acquired
    at 1000 on a stopped clock, and the check that follows is true; a
    token that expires at 3000 is valid at 1000. *)
Lemma is_token_valid_sixty_second_buffer_witness :
  result (_is_token_valid frozen_env None None
            (final (get_token frozen_env sample_manager empty_world)))
    = Returned true /\
  result (_is_token_valid token_env (Some sample_token) (Some 3000%Q) empty_world)
    = Returned true.
Proof.
  split.
  - destruct (is_token_valid_sixty_second_buffer frozen_env sample_manager)
      as (_ & _ & Hacq).
    run_of (get_token frozen_env sample_manager empty_world) Erun.
    destruct (Hacq _ _ _ _ Erun) as (k & Hk & Hafter); [vm_compute; discriminate|].
    cbv zeta in Hafter. destruct Hafter as (_ & _ & Hsoon & _).
    rewrite Erun. apply Hsoon; reflexivity.
  - destruct (is_token_valid_sixty_second_buffer token_env sample_manager)
      as (_ & Hiff & _).
    apply Hiff. reflexivity.
Defined.

(** C3.  For a run of [get_token] that contacts the identity provider:
    a response with status 400 raises [CertificateError], 401 or 403
    raises [InvalidCredentialsError], any other status outside 2xx raises
    [AuthError]; each carries the status code of the response and its raw
    text (under ["response"] in [details]), and the provider's message or
    the branch's fallback.  When the exchange fails with a
    [RequestException] instead, [HTTPError] is raised from it, with the
    status of the exception's response, or 0 when it has none. *)
Theorem identity_provider_status_mapping `{Pydantic} (env : Env) (self : AuthManager)
    (w : World) :
  In (AuthPost (auth_url self)) (events (get_token env self w)) ->
  (forall response,
     session_post env = inr response ->
     let msg := provider_message response (fallback_message (status_code response)) in
     let raw : gmap string string := {["response" := text response]} in
     (status_code response = 400%Z ->
      result (get_token env self w) = Raised (CertificateError msg 400 raw)) /\
     (status_code response = 401%Z \/ status_code response = 403%Z ->
      result (get_token env self w) =
        Raised (InvalidCredentialsError msg (status_code response) raw)) /\
     (~ (200 <= status_code response < 300)%Z ->
      status_code response <> 400%Z ->
      status_code response <> 401%Z ->
      status_code response <> 403%Z ->
      result (get_token env self w) = Raised (AuthError msg (status_code response) raw)))
  /\
  (forall descr response_status,
     session_post env = inl (RequestException descr response_status) ->
     exists msg,
       result (get_token env self w) =
         Raised (HTTPError (match response_status with Some c => c | None => 0%Z end)
                   msg None (Some (RequestException descr response_status)))).
Proof.
  intros Hposted. apply posted_counts in Hposted.
  destruct (get_token_posted env self w Hposted) as (w3 & evs0 & _ & _ & E).
  rewrite E. clear E Hposted. split.
  - intros response Hp msg raw.
    assert (Herr : status_code response <> 200%Z ->
                   result (let '(r, w', evs') := fetch_new_token env self w3 in
                           (r, w', evs0 ++ evs')) = Raised (auth_error response)).
    { intros Hs. now rewrite (fetch_error env self w3 response Hp Hs). }
    split; [|split].
    + intros Hs. rewrite Herr by lia. unfold auth_error. fold msg raw.
      now rewrite Hs.
    + intros Hs. rewrite Herr by lia. unfold auth_error. fold msg raw.
      destruct Hs as [Hs|Hs]; now rewrite Hs.
    + intros H2xx H400 H401 H403. rewrite Herr by lia. unfold auth_error. fold msg raw.
      rewrite (proj2 (Z.eqb_neq _ _) H400), (proj2 (Z.eqb_neq _ _) H401),
        (proj2 (Z.eqb_neq _ _) H403). reflexivity.
  - intros descr response_status Hp.
    rewrite (fetch_transport_failure env self w3 descr response_status Hp).
    eexists. reflexivity.
Qed.

(** C3 on sample data: an empty manager, and an identity provider that
    answers 400, 403 and 500 with a body that is no error response, or
    cannot be reached. *)
Lemma identity_provider_status_mapping_witness :
  result (get_token (provider_env (inr (sample_response 400 "no certificate" None)))
            sample_manager empty_world)
    = Raised (CertificateError
                "Não foi possível identificar um certificado digital válido."
                400 {["response" := "no certificate"]}) /\
  result (get_token (provider_env (inr (sample_response 403 "forbidden" None)))
            sample_manager empty_world)
    = Raised (InvalidCredentialsError "Credenciais inválidas." 403
                {["response" := "forbidden"]}) /\
  result (get_token (provider_env (inr (sample_response 500 "oops" None)))
            sample_manager empty_world)
    = Raised (AuthError "Authentication failed with status 500" 500
                {["response" := "oops"]}) /\
  exists msg,
    result (get_token (provider_env (inl (RequestException "connection reset" None)))
              sample_manager empty_world)
      = Raised (HTTPError 0 msg None (Some (RequestException "connection reset" None))).
Proof.
  split; [|split; [|split]].
  - destruct (identity_provider_status_mapping
                (provider_env (inr (sample_response 400 "no certificate" None)))
                sample_manager empty_world) as [Hresp _]; [vm_compute; auto|].
    destruct (Hresp _ eq_refl) as (H400 & _). exact (H400 eq_refl).
  - destruct (identity_provider_status_mapping
                (provider_env (inr (sample_response 403 "forbidden" None)))
                sample_manager empty_world) as [Hresp _]; [vm_compute; auto|].
    destruct (Hresp _ eq_refl) as (_ & H403 & _). exact (H403 (or_intror eq_refl)).
  - destruct (identity_provider_status_mapping
                (provider_env (inr (sample_response 500 "oops" None)))
                sample_manager empty_world) as [Hresp _]; [vm_compute; auto|].
    destruct (Hresp _ eq_refl) as (_ & _ & H500).
    apply H500; cbn; lia.
  - destruct (identity_provider_status_mapping
                (provider_env (inl (RequestException "connection reset" None)))
                sample_manager empty_world) as [_ Hfail]; [vm_compute; auto|].
    exact (Hfail _ _ eq_refl).
Defined.

(** C10.  For a run of [get_token] that contacts the identity provider and
    receives a status in 2xx other than 200: [AuthError] is raised with
    that status code, whatever the body (a valid token included), and the
    cache and the files are left as they were. *)
Theorem success_status_other_than_200_is_auth_error `{Pydantic} (env : Env)
    (self : AuthManager) (w : World) (response : Response) :
  In (AuthPost (auth_url self)) (events (get_token env self w)) ->
  session_post env = inr response ->
  (200 <= status_code response < 300)%Z ->
  status_code response <> 200%Z ->
  result (get_token env self w) =
    Raised (AuthError
              (provider_message response
                 ("Authentication failed with status " +:+ pretty (status_code response)))
              (status_code response) {["response" := text response]}) /\
  same_store w (final (get_token env self w)).
Proof.
  intros Hposted Hp H2xx Hs. apply posted_counts in Hposted.
  destruct (get_token_posted env self w Hposted) as (w3 & evs0 & S3 & _ & E).
  rewrite E, (fetch_error env self w3 response Hp Hs).
  unfold result, final. cbn [fst snd]. split; [|exact S3].
  unfold auth_error, fallback_message.
  rewrite (proj2 (Z.eqb_neq (status_code response) 400)) by lia.
  rewrite (proj2 (Z.eqb_neq (status_code response) 401)) by lia.
  rewrite (proj2 (Z.eqb_neq (status_code response) 403)) by lia.
  reflexivity.
Qed.

(** C10 on sample data: the identity provider answers 201 with
    [sample_token] as its body. *)
Lemma success_status_other_than_200_is_auth_error_witness :
  result (get_token
            (provider_env (inr (sample_response 201 "{}" (Some (JDict sample_token_json)))))
            sample_manager empty_world)
    = Raised (AuthError "Authentication failed with status 201" 201
                {["response" := "{}"]}).
Proof.
  refine (proj1 (success_status_other_than_200_is_auth_error
                   (provider_env
                      (inr (sample_response 201 "{}" (Some (JDict sample_token_json)))))
                   sample_manager empty_world _ _ eq_refl _ _)).
  - vm_compute. auto.
  - cbn. lia.
  - discriminate.
Defined.

(** C4.  With [max_retries = N >= 0] and a client that fails with a
    timeout or a network error at every attempt, [request] raises the
    error of the last attempt, leaves the state alone, and its trace is
    attempt 0, a sleep, attempt 1, a sleep, ..., attempt N: exactly
    [N + 1] attempts, first and last event an attempt, and the [N] delays
    equal to [base, 2 base, 4 base, ...].  For [N = 3] the trace is four
    attempts separated by sleeps of [base], [base * 2] and
    [base * 2 * 2]. *)
Theorem request_retries_until_exhausted (env : Env) (self : HTTPSession)
    (req : Request) (w : World) :
  (0 <= max_retries self)%Z ->
  (forall k, (0 <= k <= max_retries self)%Z ->
     exists e, client_request env k = inl e /\ is_transport_error e = true) ->
  let N := Z.to_nat (max_retries self) in
  let base := retry_backoff self in
  exists last_error evs,
    client_request env (max_retries self) = inl last_error /\
    request env self req w = (Raised last_error, w, evs) /\
    evs = failing_trace req 0 base N /\
    attempts evs = S N /\
    Forall2 Qeq (delays evs) (backoff_delays base N) /\
    head evs = Some (ClientRequest 0 req) /\
    last evs = Some (ClientRequest (max_retries self) req) /\
    (max_retries self = 3%Z ->
     evs = [ClientRequest 0 req; Sleep base;
            ClientRequest 1 req; Sleep (base * 2)%Q;
            ClientRequest 2 req; Sleep (base * 2 * 2)%Q;
            ClientRequest 3 req]).
Proof.
  intros HN Hfail N base.
  destruct (request_loop_failing env self N 0%nat None base w req)
    as (e & He & Hrun).
  - subst N. lia.
  - intros j Hj. apply Hfail. lia.
  - exists e, (failing_trace req 0 base N).
    split; [assumption|]. split.
    + unfold request. rewrite range_retries by assumption. exact Hrun.
    + split; [reflexivity|]. split; [apply failing_trace_attempts|].
      split; [apply failing_trace_delays|].
      destruct (failing_trace_ends req 0 base N) as [Hh Hl].
      split; [assumption|]. split.
      * rewrite Hl. do 2 f_equal. subst N. lia.
      * intros H3. subst N. rewrite H3. reflexivity.
Qed.

(** C4 on sample data: three retries from a base delay of one second
    against a client that always times out. *)
Lemma request_retries_until_exhausted_witness :
  request token_env (sample_session 3) sample_request empty_world =
    (Raised timed_out, empty_world,
     [ClientRequest 0 sample_request; Sleep 1;
      ClientRequest 1 sample_request; Sleep (1 * 2);
      ClientRequest 2 sample_request; Sleep (1 * 2 * 2);
      ClientRequest 3 sample_request]).
Proof.
  destruct (request_retries_until_exhausted token_env (sample_session 3)
              sample_request empty_world)
    as (e & evs & He & Hrun & _ & _ & _ & _ & _ & H3).
  - cbn. lia.
  - intros k _. exists timed_out. split; reflexivity.
  - injection He as <-. rewrite Hrun, (H3 eq_refl). reflexivity.
Defined.

(** C5.  With [max_retries >= 0], a request whose first attempt receives
    a response makes that one attempt and returns the response, whatever
    its status.  In every run of [request]: an attempt after the first is
    made only when all the attempts before failed with a timeout or a
    network error; and an attempt that receives a response is the last
    one, its response the value returned. *)
Theorem request_never_retries_a_response (env : Env) (self : HTTPSession)
    (req : Request) (w : World) :
  (0 <= max_retries self)%Z ->
  (forall response,
     client_request env 0 = inr response ->
     request env self req w = (Returned (Some response), w, [ClientRequest 0 req]) /\
     attempts (events (request env self req w)) = 1%nat)
  /\
  (forall a req',
     In (ClientRequest a req') (events (request env self req w)) ->
     (forall j, (0 <= j < a)%Z ->
        exists e, client_request env j = inl e /\ is_transport_error e = true) /\
     (forall response,
        client_request env a = inr response ->
        result (request env self req w) = Returned (Some response) /\
        forall a' req'',
          In (ClientRequest a' req'') (events (request env self req w)) -> (a' <= a)%Z)).
Proof.
  intros HN. split.
  - intros response Hresp. unfold request. rewrite range_retries by assumption.
    change (map Z.of_nat (seq 0 (S (Z.to_nat (max_retries self)))))
      with (0%Z :: map Z.of_nat (seq 1 (Z.to_nat (max_retries self)))).
    rewrite request_loop_cons, Hresp. split; reflexivity.
  - intros a req' Hin. unfold request in *. rewrite range_retries in * by assumption.
    destruct (request_loop env self _ req None (retry_backoff self) w)
      as [[r w'] evs] eqn:Hrun.
    apply request_loop_sound in Hrun as [_ Hsound].
    destruct (Hsound a req' Hin) as (_ & _ & Hbefore & Hresp).
    split.
    + intros j Hj. apply Hbefore. simpl. lia.
    + exact Hresp.
Qed.

(** C5 on sample data: a client that answers 404 at once. *)
Lemma request_never_retries_a_response_witness :
  request (sample_env (inl timed_out) (fun _ => inr not_found) true true)
    (sample_session 3) sample_request empty_world =
    (Returned (Some not_found), empty_world, [ClientRequest 0 sample_request]).
Proof.
  destruct (request_never_retries_a_response
              (sample_env (inl timed_out) (fun _ => inr not_found) true true)
              (sample_session 3) sample_request empty_world) as [Hfirst _].
  - cbn. lia.
  - exact (proj1 (Hfirst not_found eq_refl)).
Defined.

(** C6, as the code has it.  When [execute] has its token and
    [HTTPSession.request] returns a response with status at least 400:
    for a status of 500 or more [HTTPError] is raised with the status code
    and the parsed JSON of the body, or its raw text when it is not JSON;
    for a status in 400-499 [APIError] is raised with the status code and
    the parsed JSON of the body when that is a JSON object, and with no
    body ([None]) otherwise. *)
Theorem execute_error_mapping `{Pydantic} (env : Env) (config : IntegraConfig)
    (session : HTTPSession) (endpoint : string) (body : json) (w : World)
    (tokens : string * option string) (w1 w2 : World) (evs1 evs2 : list Event)
    (response : Response) :
  bearer_tokens env config w = (Returned tokens, w1, evs1) ->
  request env session (api_request config endpoint body tokens) w1 =
    (Returned (Some response), w2, evs2) ->
  (400 <= status_code response)%Z ->
  ((500 <= status_code response)%Z ->
   result (execute env config session endpoint body w) =
     Raised (HTTPError (status_code response)
               ("Server error: " +:+ pretty (status_code response))
               (Some (body_of_response response)) None))
  /\
  ((status_code response < 500)%Z ->
   result (execute env config session endpoint body w) =
     Raised (APIError ("API error: " +:+ pretty (status_code response))
               (status_code response)
               (match json_body response with
                | Some (JDict d) => Some d
                | _ => None
                end))).
Proof.
  intros Ht Hr Hs.
  destruct (execute_on_response env config session endpoint body w tokens w1 evs1
              response w2 evs2 Ht Hr) as (evs & ->).
  rewrite (handle_api_error_run response w2 Hs). split.
  - intros H500. rewrite (proj2 (Z.leb_le _ _) H500). reflexivity.
  - intros H4xx. rewrite (proj2 (Z.leb_gt _ _) H4xx). reflexivity.
Qed.

(** The amended C6 on sample data: a 503 whose body is not JSON, and a 404
    whose body is a JSON object. *)
Lemma execute_error_mapping_witness :
  result (execute
            (sample_env (inl timed_out)
               (fun _ => inr (sample_response 503 "Service Unavailable" None)) true true)
            sample_config (sample_session 3) "Consultar" (JDict ∅) empty_world)
    = Raised (HTTPError 503 "Server error: 503"
                (Some (BodyText "Service Unavailable")) None) /\
  result (execute
            (sample_env (inl timed_out)
               (fun _ => inr (sample_response 404 "{}" (Some (JDict ∅)))) true true)
            sample_config (sample_session 3) "Consultar" (JDict ∅) empty_world)
    = Raised (APIError "API error: 404" 404 (Some ∅)).
Proof.
  split.
  - refine (proj1 (execute_error_mapping
                     (sample_env (inl timed_out)
                        (fun _ => inr (sample_response 503 "Service Unavailable" None))
                        true true)
                     sample_config (sample_session 3) "Consultar" (JDict ∅) empty_world
                     _ _ _ _ _ (sample_response 503 "Service Unavailable" None)
                     eq_refl eq_refl _) _); cbn; lia.
  - refine (proj2 (execute_error_mapping
                     (sample_env (inl timed_out)
                        (fun _ => inr (sample_response 404 "{}" (Some (JDict ∅))))
                        true true)
                     sample_config (sample_session 3) "Consultar" (JDict ∅) empty_world
                     _ _ _ _ _ (sample_response 404 "{}" (Some (JDict ∅)))
                     eq_refl eq_refl _) _); cbn; lia.
Defined.

(** C6 as stated fails: on a 404 whose body is the text "Not Found", not
    JSON, the [APIError] raised carries no body, where the claim has it
    carry the raw text. *)
Lemma api_error_drops_raw_text :
  result (execute
            (sample_env (inl timed_out) (fun _ => inr not_found) true true)
            sample_config (sample_session 3) "Consultar" (JDict ∅) empty_world)
    = Raised (APIError "API error: 404" 404 None) /\
  carried_body (APIError "API error: 404" 404 None) = None /\
  body_of_response not_found = BodyText "Not Found" /\
  carried_body (APIError "API error: 404" 404 None)
    <> Some (body_of_response not_found).
Proof.
  split; [vm_compute; reflexivity|]. split; [reflexivity|]. split; [reflexivity|].
  discriminate.
Qed.





(** C9.  [clear_cache] sets the cached token and its expiry to [None] and
    leaves the files as they are.  [clear_stored_token] never raises and
    sets both to [None] as well; the token file is left alone when it
    does not exist, removed when it exists and can be removed, and when
    it exists and cannot be removed the files stay as they are and the
    failure is logged as a warning. *)
Theorem clearing_the_cache (env : Env) (self : AuthManager) (w : World) :
  (exists w',
     clear_cache w = (Returned tt, w', []) /\
     _cached_token w' = None /\ _token_expires_at w' = None /\
     files w' = files w)
  /\
  (exists w' evs,
     clear_stored_token env self w = (Returned tt, w', evs) /\
     _cached_token w' = None /\ _token_expires_at w' = None /\
     (files w !! token_file_path self = None -> files w' = files w) /\
     (is_Some (files w !! token_file_path self) ->
      can_unlink env (token_file_path self) = true ->
      files w' = delete (token_file_path self) (files w) /\
      files w' !! token_file_path self = None) /\
     (is_Some (files w !! token_file_path self) ->
      can_unlink env (token_file_path self) = false ->
      files w' = files w /\
      In (Log WARNING "Failed to delete token file") evs)).
Proof.
  split.
  - eexists. rewrite clear_cache_run. repeat split.
  - pose proof (clear_stored_token_run env self w) as E. cbv zeta in E.
    destruct (can_stat env (token_file_path self)) eqn:Hstat.
    + destruct (files w !! token_file_path self) as [c|] eqn:Hf.
      * destruct (can_unlink env (token_file_path self)) eqn:Hu;
          do 2 eexists; (split; [exact E|]);
          (split; [reflexivity|]); (split; [reflexivity|]);
          (split; [discriminate|]); split.
        -- intros _ _. split; [reflexivity | apply lookup_delete_eq].
        -- intros _ Hfalse. discriminate Hfalse.
        -- intros _ Hfalse. discriminate Hfalse.
        -- intros _ _. split; [reflexivity | simpl; auto].
      * do 2 eexists. split; [exact E|].
        split; [reflexivity|]. split; [reflexivity|]. split; [reflexivity|].
        split; intros [x Hx]; discriminate Hx.
    + do 2 eexists. split; [exact E|].
      split; [reflexivity|]. split; [reflexivity|]. split; [reflexivity|]. split.
      * intros _ Hu. apply (can_unlink_stat env) in Hu. congruence.
      * intros _ _. split; [reflexivity | simpl; auto].
Qed.

(** C9 on sample data: a token file that cannot be removed stays, the
    cache is cleared, and the call returns. *)
Lemma clearing_the_cache_witness :
  exists w' evs,
    clear_stored_token (sample_env (inl timed_out) (fun _ => inl timed_out) true false)
      sample_manager (file_world NotJSON) = (Returned tt, w', evs) /\
    _cached_token w' = None /\
    files w' = files (file_world NotJSON) /\
    In (Log WARNING "Failed to delete token file") evs.
Proof.
  destruct (clearing_the_cache
              (sample_env (inl timed_out) (fun _ => inl timed_out) true false)
              sample_manager (file_world NotJSON))
    as (_ & w' & evs & E & Hc & _ & _ & _ & Hkept).
  destruct Hkept as [Hfiles Hlog]; [eexists; reflexivity | reflexivity |].
  exists w', evs. repeat split; assumption.
Defined.

(** * Further properties *)

(** X1.  When the first [k] attempts of [request] fail with a timeout or a
    network error, [k] is at most [max_retries], and attempt [k] receives
    a response, that response is returned: after exactly [k + 1] attempts
    and [k] sleeps of [base, 2 base, 4 base, ...], with the state left as
    it was. *)
Theorem request_recovers_after_transient_failures (env : Env) (self : HTTPSession)
    (req : Request) (w : World) (k : Z) (response : Response) :
  (0 <= k <= max_retries self)%Z ->
  transient_before env k ->
  client_request env k = inr response ->
  let run := request env self req w in
  result run = Returned (Some response) /\
  final run = w /\
  attempts (events run) = S (Z.to_nat k) /\
  Forall2 Qeq (delays (events run)) (backoff_delays (retry_backoff self) (Z.to_nat k)).
Proof.
  intros Hk Ht Hresp run.
  assert (E : request env self req w =
              (Returned (Some response), w,
               failing_trace req 0 (retry_backoff self) (Z.to_nat k))).
  { apply request_settles.
    - lia.
    - intros j Hj. apply (transient_settles_none env self k); [assumption | lia | lia].
    - rewrite Z2Nat.id by lia. unfold settles. now rewrite Hresp. }
  subst run. rewrite E. unfold result, final, events. cbn [fst snd].
  split; [reflexivity|]. split; [reflexivity|].
  split; [apply failing_trace_attempts | apply failing_trace_delays].
Qed.

(** X1 on sample data: two timeouts, then a 404, with three retries
    allowed. *)
Lemma request_recovers_after_transient_failures_witness :
  result (request (api_env (flaky_client 2 (inr not_found))) (sample_session 3)
            sample_request empty_world) = Returned (Some not_found) /\
  attempts (events (request (api_env (flaky_client 2 (inr not_found))) (sample_session 3)
                      sample_request empty_world)) = 3%nat.
Proof.
  destruct (request_recovers_after_transient_failures
              (api_env (flaky_client 2 (inr not_found))) (sample_session 3)
              sample_request empty_world 2 not_found) as (R & _ & A & _).
  - cbn. lia.
  - intros j Hj. exists timed_out. cbn. unfold flaky_client.
    rewrite (proj2 (Z.ltb_lt j 2)) by lia. split; reflexivity.
  - reflexivity.
  - split; [exact R | exact A].
Defined.

(** X2.  An exception of the client that is neither a timeout nor a
    network error ([httpx.HTTPStatusError] among them) is raised as it is
    at the attempt where it happens, also when retries are left: after
    [k] transient failures it ends the request at attempt [k], with no
    sleep after it. *)
Theorem request_raises_other_exceptions_at_once (env : Env) (self : HTTPSession)
    (req : Request) (w : World) (k : Z) (e : Exn) :
  (0 <= k <= max_retries self)%Z ->
  transient_before env k ->
  client_request env k = inl e ->
  is_transport_error e = false ->
  let run := request env self req w in
  result run = Raised e /\
  final run = w /\
  attempts (events run) = S (Z.to_nat k) /\
  Forall2 Qeq (delays (events run)) (backoff_delays (retry_backoff self) (Z.to_nat k)) /\
  last (events run) = Some (ClientRequest k req).
Proof.
  intros Hk Ht He Hte run.
  assert (E : request env self req w =
              (Raised e, w, failing_trace req 0 (retry_backoff self) (Z.to_nat k))).
  { apply request_settles.
    - lia.
    - intros j Hj. apply (transient_settles_none env self k); [assumption | lia | lia].
    - rewrite Z2Nat.id by lia. unfold settles. now rewrite He, Hte. }
  subst run. rewrite E. unfold result, final, events. cbn [fst snd].
  split; [reflexivity|]. split; [reflexivity|].
  split; [apply failing_trace_attempts|]. split; [apply failing_trace_delays|].
  destruct (failing_trace_ends req 0 (retry_backoff self) (Z.to_nat k)) as [_ Hl].
  rewrite Hl. do 2 f_equal. lia.
Qed.

(** X2 on sample data: a timeout, then a protocol error, with three
    retries allowed. *)
Lemma request_raises_other_exceptions_at_once_witness :
  request (api_env (flaky_client 1 (inl (HttpxError RequestError "protocol error" None))))
    (sample_session 3) sample_request empty_world =
  (Raised (HttpxError RequestError "protocol error" None), empty_world,
   [ClientRequest 0 sample_request; Sleep 1; ClientRequest 1 sample_request]).
Proof.
  pose proof (request_raises_other_exceptions_at_once
                (api_env (flaky_client 1 (inl (HttpxError RequestError "protocol error" None))))
                (sample_session 3) sample_request empty_world 1
                (HttpxError RequestError "protocol error" None)) as X.
  destruct X as (R & _).
  - cbn. lia.
  - intros j Hj. exists timed_out. cbn. unfold flaky_client.
    rewrite (proj2 (Z.ltb_lt j 1)) by lia. split; reflexivity.
  - reflexivity.
  - reflexivity.
  - reflexivity.
Defined.

(** X3.  Whatever the client does, a [request] with [max_retries = N >= 0]
    makes between one and [N + 1] attempts, sleeps exactly once between
    two attempts with the delays [base, 2 base, 4 base, ...], leaves the
    state as it was, touches neither the identity provider nor the disk,
    and never returns without a response. *)
Theorem request_is_bounded (env : Env) (self : HTTPSession) (req : Request) (w : World) :
  (0 <= max_retries self)%Z ->
  let run := request env self req w in
  exists n : nat,
    (Z.of_nat n <= max_retries self)%Z /\
    attempts (events run) = S n /\
    Forall2 Qeq (delays (events run)) (backoff_delays (retry_backoff self) n) /\
    final run = w /\
    network_requests (events run) = 0%nat /\
    disk_accesses (events run) = 0%nat /\
    result run <> Returned None.
Proof.
  intros HN run. destruct (request_run env self HN req w) as (n & r & Hn & _ & Hsome & E).
  exists n. subst run. rewrite E. unfold result, final, events. cbn [fst snd].
  split; [assumption|]. split; [apply failing_trace_attempts|].
  split; [apply failing_trace_delays|]. split; [reflexivity|].
  split; [apply failing_trace_no_post|]. split; [apply failing_trace_no_disk|].
  unfold settles in Hsome. destruct (client_request env (Z.of_nat n)) as [e|response].
  - destruct (is_transport_error e && (Z.of_nat n <? max_retries self)%Z);
      [discriminate|]. injection Hsome as <-. discriminate.
  - injection Hsome as <-. discriminate.
Qed.

(** X3 on sample data: a client that always times out, three retries. *)
Lemma request_is_bounded_witness :
  exists n : nat,
    (n <= 3)%nat /\
    attempts (events (request token_env (sample_session 3) sample_request empty_world))
      = S n.
Proof.
  destruct (request_is_bounded token_env (sample_session 3) sample_request empty_world)
    as (n & Hn & A & _).
  - cbn. lia.
  - exists n. split; [cbn in Hn; lia | exact A].
Defined.

(** X4.  With [max_retries = N >= 0] and a base delay that is not
    negative, a [request] sleeps at most [base * (2^N - 1)] seconds in
    all, whatever the client does; it sleeps exactly that long when every
    attempt fails with a timeout or a network error. *)
Theorem request_total_sleep_bound (env : Env) (self : HTTPSession) (req : Request)
    (w : World) :
  (0 <= max_retries self)%Z ->
  (0 <= retry_backoff self)%Q ->
  let run := request env self req w in
  let worst := (retry_backoff self * (2 ^ max_retries self - 1))%Q in
  (total_sleep (events run) <= worst)%Q /\
  (transient_before env (max_retries self + 1) -> (total_sleep (events run) == worst)%Q).
Proof.
  intros HN Hb run worst.
  destruct (request_run env self HN req w) as (n & r & Hn & _ & Hsome & E).
  subst run worst. rewrite E. unfold events. cbn [snd].
  rewrite failing_trace_total_sleep.
  rewrite <- (Z2Nat.id (max_retries self)) at 1 3 by assumption.
  split.
  - assert (Hm := Qpower_2_mono n (Z.to_nat (max_retries self)) ltac:(lia)).
    rewrite !(Qmult_comm (retry_backoff self)).
    apply Qmult_le_compat_r; [lra | assumption].
  - intros Hall.
    assert (Hlast : Z.of_nat n = max_retries self).
    { destruct (Z.eq_dec (Z.of_nat n) (max_retries self)) as [|Hne]; [assumption|].
      rewrite (transient_settles_none env self (Z.of_nat n + 1) (Z.of_nat n)) in Hsome;
        [discriminate | | lia | lia].
      intros j Hj. apply Hall. lia. }
    rewrite <- Hlast, Nat2Z.id. reflexivity.
Qed.

(** X4 on sample data: three retries from a base delay of one second
    against a client that always times out sleep seven seconds. *)
Lemma request_total_sleep_bound_witness :
  (total_sleep (events (request token_env (sample_session 3) sample_request empty_world))
     == 7)%Q.
Proof.
  destruct (request_total_sleep_bound token_env (sample_session 3) sample_request
              empty_world) as [_ Hworst].
  - cbn. lia.
  - cbn. lra.
  - rewrite Hworst; [reflexivity|].
    intros j Hj. exists timed_out. split; reflexivity.
Defined.

Section ExecuteTokens.
Context `{Pydantic} (env : Env) (config : IntegraConfig).

(** With a token available, [bearer_tokens] returns, from events of the
    manager alone. *)
Lemma bearer_tokens_returns w :
  token_available env config w ->
  exists tokens w1 evs1,
    bearer_tokens env config w = (Returned tokens, w1, evs1) /\
    forallb is_manager_event evs1 = true.
Proof.
  unfold token_available. destruct (auth_manager config) as [manager|] eqn:Hm.
  - intros [t Ht]. rewrite (bearer_tokens_manager env config manager w Hm).
    pose proof (get_token_manager_events env manager w) as Hev.
    unfold result, events in *.
    destruct (get_token env manager w) as [[r w1] evs1]. simpl in *. subst r.
    eauto.
  - intros _. rewrite (bearer_tokens_static env config w Hm). eauto.
Qed.

End ExecuteTokens.

(** X5.  When [execute] has its token and the session delivers a response
    whose status is below 400 (at the first attempt, or after transient
    failures), [execute] returns the parsed JSON of the body, whatever
    JSON value it is, and the object [{"text": body}] when the body is not
    JSON: no status below 400 is an error. *)
Theorem execute_returns_body_below_400 `{Pydantic} (env : Env) (config : IntegraConfig)
    (session : HTTPSession) (endpoint : string) (payload : json) (w : World)
    (k : Z) (response : Response) :
  token_available env config w ->
  (0 <= k <= max_retries session)%Z ->
  transient_before env k ->
  client_request env k = inr response ->
  (status_code response < 400)%Z ->
  result (execute env config session endpoint payload w) =
    Returned (match json_body response with
              | Some v => v
              | None => JDict {["text" := JStr (text response)]}
              end).
Proof.
  intros Hta Hk Ht Hresp Hs.
  destruct (bearer_tokens_returns env config w Hta) as (tokens & w1 & evs1 & Hb & _).
  rewrite execute_unfold, Hb.
  rewrite (request_settled_at env session _ w1 k _ Hk Ht
             (settles_response env session k response Hresp)).
  unfold result. cbn [fst]. unfold api_outcome.
  now rewrite (proj2 (Z.leb_gt _ _) Hs).
Qed.

(** X5 on sample data: a 204 with an empty body, received after one
    timeout. *)
Lemma execute_returns_body_below_400_witness :
  result (execute (api_env (flaky_client 1 (inr (sample_response 204 "" None))))
            sample_config (sample_session 3) "Emitir" (JDict ∅) empty_world)
    = Returned (JDict {["text" := JStr ""]}).
Proof.
  refine (execute_returns_body_below_400
            (api_env (flaky_client 1 (inr (sample_response 204 "" None))))
            sample_config (sample_session 3) "Emitir" (JDict ∅) empty_world
            1 (sample_response 204 "" None) I _ _ eq_refl _).
  - cbn. lia.
  - intros j Hj. exists timed_out. cbn. unfold flaky_client.
    rewrite (proj2 (Z.ltb_lt j 1)) by lia. split; reflexivity.
  - cbn. lia.
Defined.

(** X6.  Without an [auth_manager], every request [execute] sends is a
    POST of the given body to [api_base_url/v1/endpoint] with the headers
    [accept: text/plain], [Content-Type: application/json] and
    [Authorization: Bearer] followed by the configured token, and without
    a [jwt_token] header, in Production too. *)
Theorem execute_static_token_requests `{Pydantic} (env : Env) (config : IntegraConfig)
    (session : HTTPSession) (endpoint : string) (payload : json) (w : World)
    (a : Z) (req : Request) :
  auth_manager config = None ->
  In (ClientRequest a req) (events (execute env config session endpoint payload w)) ->
  method req = "POST" /\
  url req = api_base_url config +:+ "/v1/" +:+ endpoint /\
  body req = payload /\
  headers req !! "Authorization" = Some ("Bearer " +:+ token config) /\
  headers req !! "accept" = Some "text/plain" /\
  headers req !! "Content-Type" = Some "application/json" /\
  headers req !! "jwt_token" = None.
Proof.
  intros Hm Hin. rewrite execute_unfold, (bearer_tokens_static env config w Hm) in Hin.
  destruct (request_events env session
              (api_request config endpoint payload (token config, None)) w)
    as (_ & _ & Hreq).
  unfold events in *.
  destruct (request env session _ w) as [[r w2] evs2]. cbn [snd app] in *.
  apply in_app_or in Hin as [Hin|Hin].
  - pose proof (request_log_manager_events env config endpoint) as Hlog.
    apply no_attempt_among_manager_events in Hlog as [_ Hno]. now destruct (Hno a req).
  - rewrite (Hreq a req Hin). unfold api_request, request_headers. cbn [fst snd].
    cbn [method url body headers].
    destruct (config_environment config); repeat split; reflexivity.
Qed.

(** X6 on sample data: the one request of a call that is answered at
    once. *)
Lemma execute_static_token_requests_witness :
  let req := api_request sample_config "Consultar" (JDict ∅) ("static-token", None) in
  In (ClientRequest 0 req)
    (events (execute (api_env (fun _ => inr ok_response)) sample_config
               (sample_session 3) "Consultar" (JDict ∅) empty_world)) /\
  url req = "https://gateway.apiserpro.serpro.gov.br/integra-contador-trial/v1/Consultar" /\
  headers req !! "Authorization" = Some "Bearer static-token" /\
  headers req !! "jwt_token" = None.
Proof.
  intros req.
  assert (Hin : In (ClientRequest 0 req)
                  (events (execute (api_env (fun _ => inr ok_response)) sample_config
                             (sample_session 3) "Consultar" (JDict ∅) empty_world)))
    by (left; reflexivity).
  destruct (execute_static_token_requests (api_env (fun _ => inr ok_response))
              sample_config (sample_session 3) "Consultar" (JDict ∅) empty_world 0 req
              eq_refl Hin) as (_ & U & _ & A & _ & _ & J).
  split; [exact Hin|]. split; [exact U|]. split; [exact A | exact J].
Defined.

Section ExecuteRuns.
Context `{Pydantic} (env : Env) (config : IntegraConfig) (session : HTTPSession).

(** The run of [execute] after its token. *)
Lemma execute_after_token endpoint payload w tokens w1 evs1 :
  bearer_tokens env config w = (Returned tokens, w1, evs1) ->
  let sent := request env session (api_request config endpoint payload tokens) w1 in
  final (execute env config session endpoint payload w) = w1 /\
  events (execute env config session endpoint payload w) =
    evs1 ++ request_log env config endpoint ++ events sent /\
  network_requests (events (execute env config session endpoint payload w)) =
    network_requests evs1 /\
  disk_accesses (events (execute env config session endpoint payload w)) =
    disk_accesses evs1.
Proof.
  intros Hb sent. rewrite execute_unfold, Hb.
  destruct (request_events env session (api_request config endpoint payload tokens) w1)
    as (Hw & Hev & _).
  apply session_events_quiet in Hev as [Hn Hd].
  destruct (request_log_quiet env config endpoint) as [Ln Ld].
  subst sent. unfold final, events in *.
  destruct (request env session _ w1) as [[r w2] evs2]. cbn [fst snd] in *.
  split; [assumption|]. split; [reflexivity|].
  rewrite !network_requests_app, !disk_accesses_app, Hn, Hd, Ln, Ld. split; lia.
Qed.

End ExecuteRuns.

(** X7.  Without an [auth_manager], [execute] sends nothing to the
    identity provider, does not touch the disk, and leaves the state as
    it was, whatever the business API answers. *)
Theorem execute_static_token_skips_auth `{Pydantic} (env : Env) (config : IntegraConfig)
    (session : HTTPSession) (endpoint : string) (payload : json) (w : World) :
  auth_manager config = None ->
  let run := execute env config session endpoint payload w in
  network_requests (events run) = 0%nat /\
  disk_accesses (events run) = 0%nat /\
  final run = w.
Proof.
  intros Hm run.
  destruct (execute_after_token env config session endpoint payload w _ _ _
              (bearer_tokens_static env config w Hm)) as (Hw & _ & Hn & Hd).
  subst run. rewrite Hw, Hn, Hd. repeat split.
Qed.

(** X7 on sample data: a call that is answered with a 404. *)
Lemma execute_static_token_skips_auth_witness :
  network_requests
    (events (execute (api_env (fun _ => inr not_found)) sample_config (sample_session 3)
               "Consultar" (JDict ∅) (cached_world 5000))) = 0%nat /\
  final (execute (api_env (fun _ => inr not_found)) sample_config (sample_session 3)
           "Consultar" (JDict ∅) (cached_world 5000)) = cached_world 5000.
Proof.
  destruct (execute_static_token_skips_auth (api_env (fun _ => inr not_found))
              sample_config (sample_session 3) "Consultar" (JDict ∅) (cached_world 5000)
              eq_refl) as (N & _ & W).
  split; [exact N | exact W].
Defined.

(** X8.  With an [auth_manager] whose [get_token] returns a token, every
    request [execute] sends carries [Authorization: Bearer] followed by
    that token's [access_token]; it carries the token's [jwt_token] in a
    [jwt_token] header exactly when the configuration is for Production
    and the [jwt_token] is not empty. *)
Theorem execute_uses_manager_token `{Pydantic} (env : Env) (config : IntegraConfig)
    (session : HTTPSession) (manager : AuthManager) (endpoint : string)
    (payload : json) (w : World) (t : TokenResponse) (a : Z) (req : Request) :
  auth_manager config = Some manager ->
  result (get_token env manager w) = Returned t ->
  In (ClientRequest a req) (events (execute env config session endpoint payload w)) ->
  url req = api_base_url config +:+ "/v1/" +:+ endpoint /\
  body req = payload /\
  headers req !! "Authorization" = Some ("Bearer " +:+ access_token t) /\
  headers req !! "jwt_token" = jwt_header config t.
Proof.
  intros Hm Ht Hin.
  pose proof (bearer_tokens_manager env config manager w Hm) as Hb.
  pose proof (get_token_manager_events env manager w) as Hev.
  unfold result, events in Ht, Hev.
  destruct (get_token env manager w) as [[r w1] evs1]. cbn [fst snd] in *. subst r.
  destruct (execute_after_token env config session endpoint payload w _ _ _ Hb)
    as (_ & E & _). rewrite E in Hin. clear E.
  destruct (request_events env session
              (api_request config endpoint payload (access_token t, Some (jwt_token t))) w1)
    as (_ & _ & Hreq).
  apply in_app_or in Hin as [Hin|Hin];
    [apply no_attempt_among_manager_events in Hev as [_ Hno]; now destruct (Hno a req)|].
  apply in_app_or in Hin as [Hin|Hin].
  - pose proof (request_log_manager_events env config endpoint) as Hlog.
    apply no_attempt_among_manager_events in Hlog as [_ Hno]. now destruct (Hno a req).
  - rewrite (Hreq a req Hin). unfold api_request, request_headers, jwt_header.
    cbn [fst snd method url body headers].
    destruct (jwt_token t) as [|c rest], (config_environment config);
      repeat split; reflexivity.
Qed.

(** X8 on sample data: a Production call whose token is acquired from the
    identity provider. *)
Lemma execute_uses_manager_token_witness :
  let req :=
    api_request manager_config "Consultar" (JDict ∅) ("tok1", Some "jwt1") in
  In (ClientRequest 0 req)
    (events (execute full_env manager_config (sample_session 3) "Consultar" (JDict ∅)
               empty_world)) /\
  headers req !! "Authorization" = Some "Bearer tok1" /\
  headers req !! "jwt_token" = Some "jwt1".
Proof.
  intros req.
  assert (Hin : In (ClientRequest 0 req)
                  (events (execute full_env manager_config (sample_session 3)
                             "Consultar" (JDict ∅) empty_world))).
  { vm_compute. do 12 (try (left; reflexivity); right). }
  assert (Ht : result (get_token full_env sample_manager empty_world)
               = Returned sample_token) by (vm_compute; reflexivity).
  destruct (execute_uses_manager_token full_env manager_config (sample_session 3)
              sample_manager "Consultar" (JDict ∅) empty_world sample_token 0 req
              eq_refl Ht Hin) as (_ & _ & A & J).
  split; [exact Hin|]. split; [exact A | exact J].
Defined.

(** X9.  With an [auth_manager] whose [get_token] raises, [execute] raises
    that exception as it is (it is not wrapped in [HTTPError]) and sends
    no request to the business API: its run is the run of [get_token]. *)
Theorem execute_auth_failure_sends_nothing `{Pydantic} (env : Env)
    (config : IntegraConfig) (session : HTTPSession) (manager : AuthManager)
    (endpoint : string) (payload : json) (w : World) (e : Exn) :
  auth_manager config = Some manager ->
  result (get_token env manager w) = Raised e ->
  let run := execute env config session endpoint payload w in
  result run = Raised e /\
  attempts (events run) = 0%nat /\
  events run = events (get_token env manager w) /\
  final run = final (get_token env manager w).
Proof.
  intros Hm He run. subst run.
  pose proof (bearer_tokens_manager env config manager w Hm) as Hb.
  pose proof (get_token_manager_events env manager w) as Hev.
  rewrite execute_unfold, Hb. unfold result, events, final in *.
  destruct (get_token env manager w) as [[r w1] evs1]. cbn [fst snd] in *. subst r.
  cbn [fst snd]. split; [reflexivity|].
  split; [now apply no_attempt_among_manager_events|]. split; reflexivity.
Qed.

(** X9 on sample data: the identity provider answers 401. *)
Lemma execute_auth_failure_sends_nothing_witness :
  result (execute (provider_env (inr (sample_response 401 "denied" None)))
            manager_config (sample_session 3) "Consultar" (JDict ∅) empty_world)
    = Raised (InvalidCredentialsError "Credenciais inválidas." 401
                {["response" := "denied"]}) /\
  attempts (events (execute (provider_env (inr (sample_response 401 "denied" None)))
                      manager_config (sample_session 3) "Consultar" (JDict ∅)
                      empty_world)) = 0%nat.
Proof.
  destruct (execute_auth_failure_sends_nothing
              (provider_env (inr (sample_response 401 "denied" None)))
              manager_config (sample_session 3) sample_manager "Consultar" (JDict ∅)
              empty_world
              (InvalidCredentialsError "Credenciais inválidas." 401
                 {["response" := "denied"]}) eq_refl)
    as (R & A & _).
  - vm_compute. reflexivity.
  - split; [exact R | exact A].
Defined.

(** X10.  When [execute] has its token, [max_retries = N >= 0], and every
    attempt fails with a timeout or a network error, [execute] raises
    [HTTPError] with status code 0, the message ["Request failed: "]
    followed by the text of the last error, and no body, after exactly
    [N + 1] attempts. *)
Theorem execute_wraps_transport_exhaustion `{Pydantic} (env : Env)
    (config : IntegraConfig) (session : HTTPSession) (endpoint : string)
    (payload : json) (w : World) :
  token_available env config w ->
  (0 <= max_retries session)%Z ->
  transient_before env (max_retries session + 1) ->
  let run := execute env config session endpoint payload w in
  exists e,
    client_request env (max_retries session) = inl e /\
    result run = Raised (HTTPError 0 ("Request failed: " +:+ str_exn env e) None None) /\
    attempts (events run) = S (Z.to_nat (max_retries session)).
Proof.
  intros Hta HN Hall run. subst run.
  destruct (bearer_tokens_returns env config w Hta) as (tokens & w1 & evs1 & Hb & Hev).
  destruct (settles_exhausted env session Hall HN) as (e & He & Hte & Hs).
  exists e. split; [assumption|].
  assert (Hbefore : transient_before env (max_retries session))
    by (intros j Hj; apply Hall; lia).
  rewrite execute_unfold, Hb.
  rewrite (request_settled_at env session _ w1 (max_retries session) _
             ltac:(lia) Hbefore Hs).
  unfold result, events. cbn [fst snd]. split.
  - destruct e as [| |[] ? ?| | | | | |]; try discriminate Hte; reflexivity.
  - apply no_attempt_among_manager_events in Hev as [Ha _].
    pose proof (request_log_manager_events env config endpoint) as Hlog.
    apply no_attempt_among_manager_events in Hlog as [La _].
    rewrite !attempts_app, Ha, La, failing_trace_attempts. reflexivity.
Qed.

(** X10 on sample data: three retries against a business API that always
    times out. *)
Lemma execute_wraps_transport_exhaustion_witness :
  result (execute token_env sample_config (sample_session 3) "Consultar" (JDict ∅)
            empty_world)
    = Raised (HTTPError 0 "Request failed: " None None) /\
  attempts (events (execute token_env sample_config (sample_session 3) "Consultar"
                      (JDict ∅) empty_world)) = 4%nat.
Proof.
  destruct (execute_wraps_transport_exhaustion token_env sample_config (sample_session 3)
              "Consultar" (JDict ∅) empty_world I)
    as (e & He & R & A).
  - cbn. lia.
  - intros j Hj. exists timed_out. split; reflexivity.
  - injection He as <-. split; [exact R | exact A].
Defined.

(** X11.  A session whose [max_retries] is negative makes no attempt:
    [request] returns [None] at once, and [execute], once it has its
    token, raises the [AttributeError] of reading the status of [None],
    which none of its [except] clauses turns into an error of the SDK. *)
Theorem execute_with_negative_retries `{Pydantic} (env : Env) (config : IntegraConfig)
    (session : HTTPSession) (endpoint : string) (payload : json) (w : World)
    (req : Request) :
  (max_retries session < 0)%Z ->
  request env session req w = (Returned None, w, []) /\
  (token_available env config w ->
   result (execute env config session endpoint payload w)
     = Raised (Builtin Py.AttributeError) /\
   attempts (events (execute env config session endpoint payload w)) = 0%nat).
Proof.
  intros Hneg. split; [now apply request_without_attempts|].
  intros Hta.
  destruct (bearer_tokens_returns env config w Hta) as (tokens & w1 & evs1 & Hb & Hev).
  rewrite execute_unfold, Hb, (request_without_attempts env session _ w1 Hneg).
  unfold result, events. cbn [fst snd]. split; [reflexivity|].
  apply no_attempt_among_manager_events in Hev as [Ha _].
  pose proof (request_log_manager_events env config endpoint) as Hlog.
  apply no_attempt_among_manager_events in Hlog as [La _].
  rewrite !attempts_app, Ha, La. reflexivity.
Qed.

(** X11 on sample data: [max_retries = -1]. *)
Lemma execute_with_negative_retries_witness :
  result (execute full_env sample_config (sample_session (-1)) "Consultar" (JDict ∅)
            empty_world) = Raised (Builtin Py.AttributeError).
Proof.
  destruct (execute_with_negative_retries full_env sample_config (sample_session (-1))
              "Consultar" (JDict ∅) empty_world sample_request) as [_ Hexec].
  - cbn. lia.
  - exact (proj1 (Hexec I)).
Defined.

(** X12.  With an [auth_manager] whose in-memory token is valid at call
    time, [execute] sends nothing to the identity provider and does not
    touch the disk: the call authenticates from memory. *)
Theorem execute_reuses_cached_token `{Pydantic} (env : Env) (config : IntegraConfig)
    (session : HTTPSession) (manager : AuthManager) (endpoint : string)
    (payload : json) (w : World) :
  auth_manager config = Some manager ->
  result (_is_token_valid env None None w) = Returned true ->
  let run := execute env config session endpoint payload w in
  network_requests (events run) = 0%nat /\
  disk_accesses (events run) = 0%nat /\
  exists cached,
    _cached_token w = Some cached /\
    forall a req, In (ClientRequest a req) (events run) ->
      headers req !! "Authorization" = Some ("Bearer " +:+ access_token cached).
Proof.
  intros Hm Hv run. subst run. rewrite is_token_valid_run in Hv.
  unfold result in Hv. cbn [fst] in Hv. injection Hv as Hv.
  destruct (get_token_memory env manager w Hv) as (cached & Hc & Hg).
  pose proof (bearer_tokens_manager env config manager w Hm) as Hb. rewrite Hg in Hb.
  destruct (execute_after_token env config session endpoint payload w _ _ _ Hb)
    as (_ & E & Hn & Hd).
  split; [now rewrite Hn|]. split; [now rewrite Hd|].
  exists cached. split; [assumption|]. intros a req Hin. rewrite E in Hin.
  destruct (request_events env session
              (api_request config endpoint payload
                 (access_token cached, Some (jwt_token cached))) (tick w))
    as (_ & _ & Hreq).
  destruct Hin as [Hin|Hin]; [discriminate|]. cbn [app] in Hin.
  apply in_app_or in Hin as [Hin|Hin].
  - pose proof (request_log_manager_events env config endpoint) as Hlog.
    apply no_attempt_among_manager_events in Hlog as [_ Hno]. now destruct (Hno a req).
  - rewrite (Hreq a req Hin). unfold api_request, request_headers.
    cbn [fst snd headers].
    destruct (jwt_token cached) as [|c rest], (config_environment config); reflexivity.
Qed.

(** X12 on sample data: a manager that holds [sample_token] until 5000,
    called at 1000. *)
Lemma execute_reuses_cached_token_witness :
  network_requests
    (events (execute full_env manager_config (sample_session 3) "Consultar" (JDict ∅)
               (cached_world 5000))) = 0%nat /\
  disk_accesses
    (events (execute full_env manager_config (sample_session 3) "Consultar" (JDict ∅)
               (cached_world 5000))) = 0%nat.
Proof.
  destruct (execute_reuses_cached_token full_env manager_config (sample_session 3)
              sample_manager "Consultar" (JDict ∅) (cached_world 5000) eq_refl eq_refl)
    as (N & D & _).
  split; [exact N | exact D].
Defined.

(** X29.  [execute] changes the state of the manager only through
    [get_token], and never contacts the identity provider on its own:
    whatever the business API answers, a 401 included, the in-memory
    token, its expiry and the files are those [get_token] left, and the
    requests to the identity provider are those of [get_token].  A token
    the API has rejected stays cached. *)
Theorem execute_never_invalidates_token `{Pydantic} (env : Env) (config : IntegraConfig)
    (session : HTTPSession) (manager : AuthManager) (endpoint : string)
    (payload : json) (w : World) :
  auth_manager config = Some manager ->
  let run := execute env config session endpoint payload w in
  final run = final (get_token env manager w) /\
  network_requests (events run) = network_requests (events (get_token env manager w)) /\
  disk_accesses (events run) = disk_accesses (events (get_token env manager w)).
Proof.
  intros Hm run. subst run.
  pose proof (bearer_tokens_manager env config manager w Hm) as Hb.
  destruct (get_token env manager w) as [[[t|e] w1] evs1] eqn:Eg.
  - destruct (execute_after_token env config session endpoint payload w _ _ _ Hb)
      as (Hw & _ & Hn & Hd).
    rewrite Hw, Hn, Hd. repeat split.
  - rewrite execute_unfold, Hb. repeat split.
Qed.

(** X29 on sample data: a token acquired from the identity provider and
    rejected by the business API with a 401. *)
Lemma execute_never_invalidates_token_witness :
  let env :=
    sample_env (inr (sample_response 200 "{}" (Some (JDict sample_token_json))))
      (fun _ => inr (sample_response 401 "expired" None)) true true in
  result (execute env manager_config (sample_session 3) "Consultar" (JDict ∅) empty_world)
    = Raised (APIError "API error: 401" 401 None) /\
  _cached_token
    (final (execute env manager_config (sample_session 3) "Consultar" (JDict ∅)
              empty_world)) = Some sample_token.
Proof.
  intros env.
  destruct (execute_never_invalidates_token env manager_config (sample_session 3)
              sample_manager "Consultar" (JDict ∅) empty_world eq_refl) as (Hw & _).
  split; [vm_compute; reflexivity|].
  rewrite Hw. vm_compute. reflexivity.
Defined.

(** X13.  The token a [get_token] returns is the in-memory token
    afterwards, with an expiry, whichever way it was obtained; and a next
    [get_token] that finds it valid returns the same token from memory,
    logging one line and nothing else. *)
Theorem get_token_result_is_reused `{Pydantic} (env : Env) (self : AuthManager)
    (w : World) (t : TokenResponse) :
  result (get_token env self w) = Returned t ->
  let w1 := final (get_token env self w) in
  _cached_token w1 = Some t /\
  (exists expires_at, _token_expires_at w1 = Some expires_at) /\
  (result (_is_token_valid env None None w1) = Returned true ->
   get_token env self w1 =
     (Returned t, tick w1, [Log DEBUG "Using cached token from memory"])).
Proof.
  intros Hr w1. subst w1. unfold result, final in *.
  destruct (get_token env self w) as [[r w1] evs] eqn:E. cbn [fst snd] in *. subst r.
  destruct (get_token_returned env self w t w1 evs E) as (Hc & Hx & _).
  split; [exact Hc|]. split; [exact Hx|].
  rewrite is_token_valid_run. cbn [fst]. intros [= V].
  destruct (get_token_memory env self w1 V) as (t' & Hc' & E').
  rewrite Hc in Hc'. injection Hc' as <-. exact E'.
Qed.

(** X13 on sample data: a token acquired at 1000 for 2000 seconds is
    returned from memory by the next call. *)
Lemma get_token_result_is_reused_witness :
  get_token token_env sample_manager
    (final (get_token token_env sample_manager empty_world)) =
  (Returned sample_token,
   tick (final (get_token token_env sample_manager empty_world)),
   [Log DEBUG "Using cached token from memory"]).
Proof.
  assert (Hr : result (get_token token_env sample_manager empty_world)
               = Returned sample_token) by (vm_compute; reflexivity).
  destruct (get_token_result_is_reused token_env sample_manager empty_world
              sample_token Hr) as (_ & _ & Hnext).
  apply Hnext. vm_compute. reflexivity.
Defined.

(** X14.  [get_token] keeps tokens that passed validation: when the
    in-memory token, if there is one, has a [token_type] that is
    ["bearer"] up to case, so has the in-memory token afterwards, and so
    has the token returned. *)
Theorem get_token_hands_out_bearer_tokens `{Pydantic} (env : Env)
    (self : AuthManager) (w : World) :
  cache_ok w ->
  cache_ok (final (get_token env self w)) /\
  forall t, result (get_token env self w) = Returned t -> bearer t.
Proof.
  intros Hok. unfold result, final.
  destruct (get_token env self w) as [[[t|e] w1] evs] eqn:E; cbn [fst snd].
  - destruct (get_token_returned env self w t w1 evs E) as (Hc & _ & Hb).
    split.
    + intros cached Hc'. rewrite Hc in Hc'. injection Hc' as <-. now apply Hb.
    + intros t' [= <-]. now apply Hb.
  - destruct (get_token_raised env self w e w1 evs E)
      as (_ & _ & _ & [Hc|(response & d & t & msg & _ & _ & _ & Ht & _ & _ & Hc)]).
    + split; [|discriminate]. intros cached Hc'. apply Hok. congruence.
    + split; [|discriminate]. intros cached Hc'. rewrite Hc in Hc'.
      injection Hc' as <-. exact (token_init_bearer d t Ht).
Qed.

(** X14 on sample data: the token an empty manager acquires. *)
Lemma get_token_hands_out_bearer_tokens_witness :
  result (get_token token_env sample_manager empty_world) = Returned sample_token /\
  bearer sample_token.
Proof.
  assert (Hr : result (get_token token_env sample_manager empty_world)
               = Returned sample_token) by (vm_compute; reflexivity).
  destruct (get_token_hands_out_bearer_tokens token_env sample_manager empty_world)
    as [_ Hb]; [intros cached; discriminate|].
  split; [exact Hr | exact (Hb sample_token Hr)].
Defined.

(** X15.  After [clear_stored_token] with a token file that can be
    removed, the next [get_token] goes to the identity provider: it sends
    exactly one request. *)
Theorem clear_stored_token_forces_acquisition `{Pydantic} (env : Env)
    (self : AuthManager) (w : World) :
  can_unlink env (token_file_path self) = true ->
  let w1 := final (clear_stored_token env self w) in
  _cached_token w1 = None /\
  files w1 !! token_file_path self = None /\
  network_requests (events (get_token env self w1)) = 1%nat.
Proof.
  intros Hu w1. pose proof (can_unlink_stat env _ Hu) as Hstat.
  assert (Hw1 : _cached_token w1 = None /\ files w1 !! token_file_path self = None).
  { subst w1. pose proof (clear_stored_token_run env self w) as E. cbv zeta in E.
    rewrite E, Hstat. destruct (files w !! token_file_path self) eqn:Hf.
    - rewrite Hu. unfold final. cbn [fst snd]. split; [reflexivity|].
      apply lookup_delete_eq.
    - unfold final. cbn [fst snd]. split; [reflexivity | exact Hf]. }
  clearbody w1. destruct Hw1 as [Hc Hf]. split; [exact Hc|]. split; [exact Hf|].
  destruct (get_token_cases env self w1)
    as [(cached & V & _)
       |[(ft & fe & w2 & evs2 & V & El & _)
        |[(w3 & evs2 & V & S3 & N2 & ->)|(_ & Hno & _)]]].
  - rewrite (valid_now_without_cache env w1 Hc) in V. discriminate.
  - rewrite (after_check_without_cache w1 Hc), (load_absent env self w1 Hstat Hf) in El.
    discriminate.
  - pose proof (fetch_posts_once env self w3) as Hone. unfold events in *.
    destruct (fetch_new_token env self w3) as [[r w'] evs']. cbn [snd] in *.
    rewrite network_requests_app, N2, Hone. reflexivity.
  - congruence.
Qed.

(** X15 on sample data: a manager with a valid in-memory token and a
    token file. *)
Lemma clear_stored_token_forces_acquisition_witness :
  network_requests
    (events (get_token token_env sample_manager
               (final (clear_stored_token token_env sample_manager
                         (with_files {[token_file_path sample_manager :=
                                         JSONText (JDict (token_data sample_token 990))]}
                            (cached_world 5000))))))
    = 1%nat.
Proof.
  destruct (clear_stored_token_forces_acquisition token_env sample_manager
              (with_files {[token_file_path sample_manager :=
                              JSONText (JDict (token_data sample_token 990))]}
                 (cached_world 5000)) eq_refl) as (_ & _ & N).
  exact N.
Defined.

(** X16.  [clear_cache] alone does not force a new acquisition: when the
    token file can be reached and holds a token as [_save_token_to_file]
    wrote it, with an [expires_in] that a float holds, and the token is
    still valid, the next [get_token] returns that token from the file,
    makes it the in-memory token again, and sends nothing to the identity
    provider.  A saved token whose [expires_in] no float holds is never
    taken from the file: the sum of [saved_at] and [expires_in] raises in
    the loader, and the next [get_token] sends a request to the identity
    provider. *)
Theorem clear_cache_falls_back_to_file `{Pydantic} (env : Env) (self : AuthManager)
    (w : World) (t : TokenResponse) (saved_at : Q) :
  can_stat env (token_file_path self) = true ->
  bearer t ->
  files w !! token_file_path self = Some (JSONText (JDict (token_data t saved_at))) ->
  let run := get_token env self (final (clear_cache w)) in
  ((Z.abs (expires_in t) < Py.float_limit)%Z ->
   (time_time env (S (clock_reads w)) < saved_at + inject_Z (expires_in t) - 60)%Q ->
   result run = Returned t /\
   _cached_token (final run) = Some t /\
   _token_expires_at (final run) = Some (saved_at + inject_Z (expires_in t))%Q /\
   network_requests (events run) = 0%nat)
  /\
  ((Py.float_limit <= Z.abs (expires_in t))%Z ->
   network_requests (events run) = 1%nat).
Proof.
  intros Hstat Hb Hf run. subst run.
  set (w0 := final (clear_cache w)).
  assert (Hc0 : _cached_token w0 = None) by reflexivity.
  assert (Hf0 : files w0 !! token_file_path self =
                Some (JSONText (JDict (token_data t saved_at)))) by exact Hf.
  assert (Hk0 : clock_reads w0 = clock_reads w) by reflexivity.
  clearbody w0.
  rewrite (get_token_miss env self w0 (valid_now_without_cache env w0 Hc0)).
  rewrite (after_check_without_cache w0 Hc0).
  destruct (from_file_or_api_cases env self w0 Hstat)
    as (loaded & w2 & evs2 & El' & S2 & N2 & Hcases).
  split.
  - intros Hfit Hfresh.
    destruct (load_saved env self w0 t saved_at Hstat Hb Hfit Hf0) as (evs & El & N).
    rewrite El in El'. injection El' as <- <- <-. cbn [fst snd] in *.
    destruct Hcases as [(ft & Hft & Hv & ->)|(Hinv & _)].
    + injection Hft as <-. unfold result, final, events. cbn [fst snd].
      split; [reflexivity|]. split; [reflexivity|]. split; [reflexivity|].
      rewrite network_requests_app, N. reflexivity.
    + specialize (Hinv t eq_refl). unfold valid_now in Hinv. cbn [or_else] in Hinv.
      apply ltb_ge in Hinv. cbn [tick clock_reads] in Hinv.
      rewrite Hk0 in Hinv. lra.
  - intros Hbig.
    destruct (load_holding_raises env self w0 (token_data t saved_at) t
                (JFloat saved_at) Py.OverflowError Hstat Hf0 (token_data_holds t saved_at)
                Hb eq_refl) as (evs & El & N).
    { cbn [Py.add_int]. now apply float_add_int_overflow. }
    rewrite El in El'. injection El' as <- <- <-. cbn [fst snd] in *.
    destruct Hcases as [(ft & Hft & _)|(_ & w3 & _ & _ & ->)]; [discriminate|].
    pose proof (fetch_posts_once env self w3) as Hone. unfold events in *.
    destruct (fetch_new_token env self w3) as [[r w'] evs']. cbn [snd] in *.
    rewrite network_requests_app, N, Hone. reflexivity.
Qed.

(** X16 on sample data: [disk_token] saved at 990 for 3000 seconds, and a
    cache cleared at 1000; [eternal_token] saved at 990. *)
Lemma clear_cache_falls_back_to_file_witness :
  (result (get_token token_env sample_manager
             (final (clear_cache
                       (with_files {[token_file_path sample_manager :=
                                       JSONText (JDict (token_data disk_token 990))]}
                          (cached_world 5000)))))
     = Returned disk_token /\
   network_requests
     (events (get_token token_env sample_manager
                (final (clear_cache
                          (with_files {[token_file_path sample_manager :=
                                          JSONText (JDict (token_data disk_token 990))]}
                             (cached_world 5000))))))
     = 0%nat) /\
  network_requests
    (events (get_token token_env sample_manager
               (final (clear_cache
                         (with_files {[token_file_path sample_manager :=
                                         JSONText (JDict (token_data eternal_token 990))]}
                            (cached_world 5000))))))
    = 1%nat.
Proof.
  split.
  - destruct (clear_cache_falls_back_to_file token_env sample_manager
                (with_files {[token_file_path sample_manager :=
                                JSONText (JDict (token_data disk_token 990))]}
                   (cached_world 5000)) disk_token 990)
      as [Hfile _]; [reflexivity | reflexivity | vm_compute; reflexivity |].
    destruct Hfile as (R & _ & _ & N); [reflexivity | vm_compute; reflexivity|].
    split; [exact R | exact N].
  - destruct (clear_cache_falls_back_to_file token_env sample_manager
                (with_files {[token_file_path sample_manager :=
                                JSONText (JDict (token_data eternal_token 990))]}
                   (cached_world 5000)) eternal_token 990)
      as [_ Hbig]; [reflexivity | reflexivity | vm_compute; reflexivity |].
    apply Hbig. vm_compute. discriminate.
Defined.

(** X17.  A [get_token] that raises leaves the expiry and the files as
    they were.  What it raises is an error of the SDK
    ([CertificateError], [InvalidCredentialsError], [AuthError] or
    [HTTPError]), except when [stat] of the token file is refused: the
    [OSError] of [exists()] then leaves [get_token] as it is, before
    anything is sent.  The in-memory token is as it was too, except when
    the identity provider answered 200 with a token whose [expires_in]
    no float holds: the sum with the clock reading raises after the
    token was put in the cache, so the token stays there, without its
    expiry, and [HTTPError] with status code 0 is raised from the
    [OverflowError]. *)
Theorem failed_get_token_effects `{Pydantic} (env : Env) (self : AuthManager)
    (w : World) (e : Exn) :
  result (get_token env self w) = Raised e ->
  let run := get_token env self w in
  _token_expires_at (final run) = _token_expires_at w /\
  files (final run) = files w /\
  (is_sdk_error e = true \/
   e = Builtin Py.OSError /\
   can_stat env (token_file_path self) = false /\
   network_requests (events run) = 0%nat) /\
  (_cached_token (final run) = _cached_token w \/
   exists response d t msg,
     session_post env = inr response /\
     status_code response = 200%Z /\
     json_body response = Some (JDict d) /\
     TokenResponse_init d = Some t /\
     (Py.float_limit <= Z.abs (expires_in t))%Z /\
     e = HTTPError 0 msg None (Some (Builtin Py.OverflowError)) /\
     _cached_token (final run) = Some t).
Proof.
  cbv zeta. unfold result, final, events.
  destruct (get_token env self w) as [[r w1] evs] eqn:E. cbn [fst snd]. intros ->.
  exact (get_token_raised env self w e w1 evs E).
Qed.

(** X17 on sample data: an identity provider that cannot be reached, and
    a manager whose in-memory token has expired; a storage directory
    that cannot be searched; an identity provider that answers with
    [eternal_token]. *)
Lemma failed_get_token_effects_witness :
  _cached_token
    (final (get_token (provider_env (inl (OtherException "no route to host")))
              sample_manager (cached_world 1010)))
    = Some sample_token /\
  result (get_token (locked_env (inl timed_out)) sample_manager empty_world)
    = Raised (Builtin Py.OSError) /\
  (result (get_token
             (provider_env (inr (sample_response 200 "{}" (Some (JDict eternal_token_json)))))
             sample_manager empty_world)
     = Raised (HTTPError 0 "Unexpected error during authentication: " None
                 (Some (Builtin Py.OverflowError))) /\
   _cached_token
     (final (get_token
               (provider_env
                  (inr (sample_response 200 "{}" (Some (JDict eternal_token_json)))))
               sample_manager empty_world))
     = Some eternal_token).
Proof.
  split; [|split; [|split]]; [|vm_compute; reflexivity..].
  destruct (failed_get_token_effects
              (provider_env (inl (OtherException "no route to host")))
              sample_manager (cached_world 1010)
              (HTTPError 0 "Unexpected error during authentication: " None
                 (Some (OtherException "no route to host"))))
    as (_ & _ & _ & [Hc|(response & d & t & msg & Hp & _)]).
  - vm_compute. reflexivity.
  - exact Hc.
  - discriminate Hp.
Defined.

(** X18.  When the identity provider answers 200 with a body that is not
    a token response (not JSON, not a JSON object, or an object that
    fails validation), a [get_token] that contacted it raises
    [HTTPError] with status code 0 and no body, raised from the
    underlying exception, and caches nothing. *)
Theorem invalid_token_body_is_http_error `{Pydantic} (env : Env) (self : AuthManager)
    (w : World) (response : Response) :
  In (AuthPost (auth_url self)) (events (get_token env self w)) ->
  session_post env = inr response ->
  status_code response = 200%Z ->
  (forall d, json_body response = Some (JDict d) -> TokenResponse_init d = None) ->
  (exists msg cause,
     result (get_token env self w) = Raised (HTTPError 0 msg None (Some cause))) /\
  same_store w (final (get_token env self w)).
Proof.
  intros Hposted Hp Hs Hbad. apply posted_counts in Hposted.
  destruct (get_token_posted env self w Hposted) as (w3 & evs0 & S3 & _ & E).
  destruct (fetch_invalid_body env self w3 response Hp Hs Hbad) as (msg & cause & Ef).
  rewrite E, Ef. unfold result, final. cbn [fst snd]. split; [eauto | exact S3].
Qed.

(** X18 on sample data: a 200 whose body is the JSON object of a token
    without [access_token]. *)
Lemma invalid_token_body_is_http_error_witness :
  exists msg cause,
    result (get_token
              (provider_env
                 (inr (sample_response 200 "{}"
                         (Some (JDict (delete "access_token" sample_token_json))))))
              sample_manager empty_world)
      = Raised (HTTPError 0 msg None (Some cause)).
Proof.
  refine (proj1 (invalid_token_body_is_http_error
                   (provider_env
                      (inr (sample_response 200 "{}"
                              (Some (JDict (delete "access_token" sample_token_json))))))
                   sample_manager empty_world _ _ eq_refl eq_refl _)).
  - vm_compute. auto.
  - intros d [= <-]. vm_compute. reflexivity.
Defined.

(** X19.  A token file without [saved_at] is taken as saved at the moment
    it is read, whenever that is: when it can be reached and holds the
    fields of a token whose [expires_in] a float holds, and two
    successive readings of the clock are less than [expires_in - 60]
    seconds apart, a [get_token] without a valid in-memory token returns
    the token of the file, with an expiry [expires_in] after the time of
    the call, and sends nothing to the identity provider. *)
Theorem token_file_without_saved_at_never_expires `{Pydantic} (env : Env)
    (self : AuthManager) (w : World) (d : gmap string json) (t : TokenResponse) :
  can_stat env (token_file_path self) = true ->
  files w !! token_file_path self = Some (JSONText (JDict d)) ->
  holds_token d t ->
  bearer t ->
  (Z.abs (expires_in t) < Py.float_limit)%Z ->
  d !! "saved_at" = None ->
  (forall n, time_time env (S n) - time_time env n < inject_Z (expires_in t) - 60)%Q ->
  result (_is_token_valid env None None w) = Returned false ->
  let run := get_token env self w in
  result run = Returned t /\
  network_requests (events run) = 0%nat /\
  exists k, (clock_reads w <= k)%nat /\
    _token_expires_at (final run) = Some (time_time env k + inject_Z (expires_in t))%Q.
Proof.
  intros Hstat Hf Hd Hb Hfit Hnone Hclock Hv run. subst run.
  rewrite is_token_valid_run in Hv. unfold result in Hv. cbn [fst] in Hv.
  injection Hv as V. rewrite (get_token_miss env self w V).
  set (w1 := after_check w None None).
  pose proof (after_check_same_store w None None) as (_ & _ & F1 & K1). fold w1 in F1, K1.
  assert (Hf1 : files w1 !! token_file_path self = Some (JSONText (JDict d)))
    by now rewrite F1.
  clearbody w1.
  destruct (load_holding env self w1 d t (JFloat (time_time env (clock_reads w1)))
              (time_time env (clock_reads w1) + inject_Z (expires_in t))%Q
              Hstat Hf1 Hd Hb)
    as (evs & El & N & _).
  { unfold Py.dict_get. now rewrite Hnone. }
  { cbn [Py.add_int]. now apply float_add_int_fits. }
  destruct (from_file_or_api_cases env self w1 Hstat)
    as (loaded & w2 & evs2 & El' & S2 & N2 & [(ft & Hft & _ & ->)|(Hinv & _)]).
  - rewrite El in El'. injection El' as <- <- <-. cbn [fst snd] in *.
    injection Hft as <-. unfold result, final, events. cbn [fst snd].
    split; [reflexivity|]. split; [rewrite network_requests_app, N; reflexivity|].
    exists (clock_reads w1). split; [exact K1 | reflexivity].
  - rewrite El in El'. injection El' as <- <- <-. cbn [fst snd] in *.
    specialize (Hinv t eq_refl). unfold valid_now in Hinv. cbn [or_else] in Hinv.
    apply ltb_ge in Hinv. cbn [tick clock_reads] in Hinv.
    specialize (Hclock (clock_reads w1)). lra.
Qed.

(** X19 on sample data: the fields of [sample_token] without [saved_at],
    read by an empty manager whose identity provider cannot be
    reached. *)
Lemma token_file_without_saved_at_never_expires_witness :
  result (get_token (provider_env (inl (OtherException "unreachable"))) sample_manager
            (file_world (JSONText (JDict sample_token_json)))) = Returned sample_token /\
  network_requests
    (events (get_token (provider_env (inl (OtherException "unreachable"))) sample_manager
               (file_world (JSONText (JDict sample_token_json))))) = 0%nat.
Proof.
  destruct (token_file_without_saved_at_never_expires
              (provider_env (inl (OtherException "unreachable"))) sample_manager
              (file_world (JSONText (JDict sample_token_json))) sample_token_json
              sample_token eq_refl eq_refl) as (R & N & _).
  - repeat split.
  - reflexivity.
  - reflexivity.
  - reflexivity.
  - intros n. cbn. unfold Qminus, Qlt. cbn. lia.
  - reflexivity.
  - split; [exact R | exact N].
Defined.

(** X20.  A [get_token] that acquires a token from the identity provider
    in the Production environment writes the credentials to the
    configuration file when that file can be opened for writing: consumer
    key, consumer secret, certificate path and certificate password, as
    they are, with the environment name.  In the Trial environment it
    leaves the configuration file as it was. *)
Theorem acquisition_persists_credentials `{Pydantic} (env : Env) (self : AuthManager)
    (w : World) (t : TokenResponse) :
  result (get_token env self w) = Returned t ->
  In (AuthPost (auth_url self)) (events (get_token env self w)) ->
  let stored := files (final (get_token env self w)) !! config_file_path self in
  match environment self with
  | PRODUCTION =>
      can_write env (config_file_path self) = true ->
      exists d,
        stored = Some (JSONText (JDict d)) /\
        d !! "consumer_key" = Some (JStr (consumer_key (credentials self))) /\
        d !! "consumer_secret" = Some (JStr (consumer_secret (credentials self))) /\
        d !! "certificate_path" = Some (JStr (path (certificate self))) /\
        d !! "certificate_password" = Some (JStr (password (certificate self))) /\
        d !! "environment" = Some (JStr "Production")
  | TRIAL => stored = files w !! config_file_path self
  end.
Proof.
  intros Hr Hposted stored. subst stored. apply posted_counts in Hposted.
  destruct (get_token_posted env self w Hposted) as (w3 & evs0 & (_ & _ & F3 & _) & _ & E).
  rewrite E in *. clear E. unfold result, final in *.
  destruct (fetch_new_token env self w3) as [[r w'] evs'] eqn:Ef. cbn [fst snd] in *.
  subst r.
  destruct (fetch_returned_state env self w3 t w' evs' Ef)
    as (response & d0 & evs1 & Hp & Hs & Hj & Ht & Hfit & Eh).
  destruct (handle_200_config env self w3 response d0 t Hs Hj Ht Hfit)
    as (w'' & evs'' & Eh' & Hcfg).
  rewrite Eh in Eh'. injection Eh' as <- _. rewrite Hcfg, F3.
  destruct (environment self) eqn:Henv; [reflexivity|].
  intros Hw. rewrite Hw. eexists. split; [reflexivity|].
  unfold config_data. rewrite Henv. repeat split.
Qed.

(** X20 on sample data: the first token of a Production manager. *)
Lemma acquisition_persists_credentials_witness :
  exists d,
    files (final (get_token token_env sample_manager empty_world))
      !! config_file_path sample_manager = Some (JSONText (JDict d)) /\
    d !! "certificate_password" = Some (JStr "changeit").
Proof.
  assert (Hr : result (get_token token_env sample_manager empty_world)
               = Returned sample_token) by (vm_compute; reflexivity).
  assert (Hposted : In (AuthPost (auth_url sample_manager))
                      (events (get_token token_env sample_manager empty_world)))
    by (vm_compute; auto).
  destruct (acquisition_persists_credentials token_env sample_manager empty_world
              sample_token Hr Hposted eq_refl) as (d & Hd & _ & _ & _ & Hpw & _).
  exists d. split; [exact Hd | exact Hpw].
Defined.

(** X21.  Of the best-effort steps, [_save_token_to_file], [save_config]
    and [clear_stored_token] never raise, whatever the disk does: their
    whole body is in a [try].  [_load_token_from_file] calls [exists()]
    before its [try]: it raises exactly when [stat] of the token file is
    refused, with the [OSError] of [exists()] and nothing changed, and
    returns in every other case, whatever the file holds.  The first two
    leave the in-memory token alone. *)
Theorem best_effort_steps_raise_only_on_stat `{Pydantic} (env : Env)
    (self : AuthManager) (t : TokenResponse) :
  returns (_save_token_to_file env self t) /\
  returns (save_config env self) /\
  returns (clear_stored_token env self) /\
  (can_stat env (token_file_path self) = true ->
   returns (_load_token_from_file env self)) /\
  (can_stat env (token_file_path self) = false ->
   forall w,
     _load_token_from_file env self w =
       (Raised (Builtin Py.OSError), w, [FileExists (token_file_path self)])) /\
  (forall w,
     _cached_token (final (_save_token_to_file env self t w)) = _cached_token w /\
     _cached_token (final (save_config env self w)) = _cached_token w).
Proof.
  split; [|split; [|split; [|split; [|split]]]].
  - intros w. destruct (save_token_run env self t w) as (evs & -> & _). now exists tt.
  - intros w. destruct (save_config_run env self w) as (evs & -> & _). now exists tt.
  - intros w. pose proof (clear_stored_token_run env self w) as E. cbv zeta in E.
    rewrite E. destruct (can_stat env (token_file_path self)); [|now exists tt].
    destruct (files w !! token_file_path self);
      [destruct (can_unlink env (token_file_path self))|]; now exists tt.
  - apply load_returns.
  - intros Hstat w. now apply load_refused.
  - intros w. split.
    + destruct (save_token_run env self t w) as (evs & -> & _). unfold final. cbn [fst snd].
      now destruct (can_write env (token_file_path self)).
    + destruct (save_config_run env self w) as (evs & -> & _). unfold final. cbn [fst snd].
      now destruct (can_write env (token_file_path self)),
        (can_write env (config_file_path self)).
Qed.

(** X21 on sample data: a storage directory that cannot be searched. *)
Lemma best_effort_steps_raise_only_on_stat_witness :
  result (_load_token_from_file (locked_env (inl timed_out)) sample_manager empty_world)
    = Raised (Builtin Py.OSError) /\
  result (clear_stored_token (locked_env (inl timed_out)) sample_manager empty_world)
    = Returned tt.
Proof.
  destruct (best_effort_steps_raise_only_on_stat (locked_env (inl timed_out))
              sample_manager sample_token) as (_ & _ & Hclear & _ & Hload & _).
  split.
  - now rewrite (Hload eq_refl empty_world).
  - destruct (Hclear empty_world) as [[] E]. exact E.
Defined.

(** X22.  A token whose [expires_in] is 60 seconds or less is never
    reused: with a clock that does not go backwards and a token file
    that can be written, the [get_token] that follows its acquisition
    finds it valid neither in memory nor in the file, and sends a request
    to the identity provider again. *)
Theorem short_lived_token_is_fetched_again `{Pydantic} (env : Env)
    (self : AuthManager) (w : World) (t : TokenResponse) :
  (expires_in t <= 60)%Z ->
  (forall n m, (n <= m)%nat -> (time_time env n <= time_time env m)%Q) ->
  can_write env (token_file_path self) = true ->
  result (get_token env self w) = Returned t ->
  In (AuthPost (auth_url self)) (events (get_token env self w)) ->
  let w1 := final (get_token env self w) in
  result (_is_token_valid env None None w1) = Returned false /\
  network_requests (events (get_token env self w1)) = 1%nat.
Proof.
  intros Hshort Hmono Hw Hr Hposted w1. subst w1. apply posted_counts in Hposted.
  destruct (get_token_posted env self w Hposted) as (w3 & evs0 & _ & _ & E).
  rewrite E in *. clear E. unfold result, final in *.
  destruct (fetch_new_token env self w3) as [[r w1] evs1] eqn:Ef. cbn [fst snd] in *.
  subst r.
  destruct (fetch_returned_inv env self w3 t w1 evs1 Ef)
    as (Hfit & response & d & Hp & Hs & Hj & Ht).
  destruct (fetch_success env self w3 response d t Hp Hs Hj Ht Hfit)
    as (w' & evs' & Ef' & Hc & Hx & Hk & Hfile).
  pose proof (can_write_stat env _ Hw) as Hstat.
  rewrite Ef in Ef'. injection Ef' as <- _. rewrite Hw in Hfile. clear Ef.
  pose proof (token_init_bearer d t Ht) as Hb.
  assert (Hexp : (inject_Z (expires_in t) <= 60)%Q).
  { change 60%Q with (inject_Z 60). now rewrite <- Zle_Qle. }
  assert (V : valid_now env w1 None None = false).
  { unfold valid_now. rewrite Hc, Hx. cbn [or_else]. apply ltb_ge.
    pose proof (Hmono (clock_reads w3) (clock_reads w1) ltac:(lia)). lra. }
  split; [now rewrite is_token_valid_run, V|].
  rewrite (get_token_miss env self w1 V).
  set (w2 := after_check w1 None None).
  pose proof (after_check_same_store w1 None None) as (_ & _ & F2 & K2).
  fold w2 in F2, K2.
  assert (Hf2 : files w2 !! token_file_path self =
                Some (JSONText (JDict (token_data t (time_time env (S (clock_reads w3)))))))
    by now rewrite F2.
  clearbody w2.
  destruct (load_saved env self w2 t _ Hstat Hb Hfit Hf2) as (evs & El & N).
  destruct (from_file_or_api_cases env self w2 Hstat)
    as (loaded & w4 & evs4 & El' & S4 & N4 & [(ft & Hft & Hv & _)|(_ & w5 & _ & _ & ->)]).
  - rewrite El in El'. injection El' as <- <- <-. cbn [fst snd] in *.
    injection Hft as <-. unfold valid_now in Hv. cbn [or_else] in Hv.
    apply ltb_lt in Hv. cbn [tick clock_reads] in Hv.
    pose proof (Hmono (S (clock_reads w3)) (S (clock_reads w2)) ltac:(lia)). lra.
  - pose proof (fetch_posts_once env self w5) as Hone. unfold events in *.
    destruct (fetch_new_token env self w5) as [[r w6] evs6]. cbn [snd] in *.
    rewrite network_requests_app, N4, Hone. reflexivity.
Qed.

(** X22 on sample data: an identity provider whose tokens live thirty
    seconds. *)
Lemma short_lived_token_is_fetched_again_witness :
  let env := provider_env (inr (sample_response 200 "{}" (Some (JDict brief_token_json)))) in
  network_requests
    (events (get_token env sample_manager
               (final (get_token env sample_manager empty_world)))) = 1%nat.
Proof.
  intros env.
  assert (Hr : result (get_token env sample_manager empty_world) = Returned brief_token)
    by (vm_compute; reflexivity).
  assert (Hposted : In (AuthPost (auth_url sample_manager))
                      (events (get_token env sample_manager empty_world)))
    by (vm_compute; auto).
  destruct (short_lived_token_is_fetched_again env sample_manager empty_world
              brief_token) as [_ N]; [| | |exact Hr|exact Hposted|exact N].
  - cbn. lia.
  - intros n m Hnm. cbn. rewrite <- Zle_Qle. lia.
  - reflexivity.
Defined.

(** X23.  The saved configuration survives a round trip through the
    disk: after a [save_config] whose file can be opened for writing,
    [load_config] on the manager's storage directory returns the
    manager's consumer key, consumer secret, certificate path and
    certificate password, the time of the save, and an environment name
    that [Environment] maps back to the manager's environment; it
    changes nothing. *)
Theorem saved_config_round_trip `{Pydantic} `{PydanticFloat} (env : Env)
    (install : Install) (self : AuthManager) (w : World) :
  can_write env (config_file_path self) = true ->
  let saved := final (save_config env self w) in
  exists cfg evs,
    load_config env install (Some (token_storage_dir self)) saved
      = (Returned (Some cfg), saved, evs) /\
    Saved.consumer_key cfg = consumer_key (credentials self) /\
    Saved.consumer_secret cfg = consumer_secret (credentials self) /\
    Saved.certificate_path cfg = path (certificate self) /\
    Saved.certificate_password cfg = password (certificate self) /\
    Environment_of_value (Saved.environment cfg) = Some (environment self) /\
    Saved.saved_at cfg = Some (time_time env (clock_reads w)).
Proof.
  intros Hw saved. subst saved.
  pose proof (can_write_stat env _ Hw) as Hstat.
  destruct (save_config_run env self w) as (evs0 & Es & _). rewrite Hw in Es.
  rewrite Es. unfold final. cbn [fst snd].
  set (w1 := with_files _ (tick w)).
  assert (Hf : files w1 !! (token_storage_dir self +:+ "/config.json") =
               Some (JSONText (JDict (config_data self (time_time env (clock_reads w)))))).
  { subst w1. cbn [files with_files]. apply lookup_insert_eq. }
  destruct (load_config_saved env install (token_storage_dir self) w1 self _ Hstat Hf)
    as (evs & El).
  eexists. exists evs. split; [exact El|]. cbn.
  repeat split. apply Environment_of_value_value.
Qed.

(** X23 on sample data: the configuration of [sample_manager] saved at
    1000. *)
Lemma saved_config_round_trip_witness :
  result (load_config token_env sample_install (Some "/var/integra/.auth")
            (final (save_config token_env sample_manager empty_world)))
    = Returned (Some {| Saved.consumer_key := "key";
                        Saved.consumer_secret := "secret";
                        Saved.certificate_path := "/certs/client.p12";
                        Saved.certificate_password := "changeit";
                        Saved.environment := "Production";
                        Saved.saved_at := Some 1000%Q |}).
Proof.
  destruct (saved_config_round_trip token_env sample_install sample_manager empty_world
              eq_refl) as (cfg & evs & El & K & S & P & PW & E & A).
  change (token_storage_dir sample_manager) with "/var/integra/.auth" in El.
  rewrite El. unfold result. cbn [fst]. do 2 f_equal.
  destruct cfg as [k s p pw e a]. cbn in *. subst.
  assert (e = "Production") as ->.
  { unfold Environment_of_value in E.
    destruct (String.eqb_spec e "Trial"); [discriminate|].
    destruct (String.eqb_spec e "Production"); [assumption | discriminate]. }
  reflexivity.
Defined.

(** X24.  [load_config] on a given storage directory changes neither the
    in-memory token nor the files and sends nothing to the identity
    provider.  It calls [exists()] before its [try]: when [stat] of the
    configuration file is refused it raises the [OSError] of [exists()];
    in every other case it returns, and returns [None] when the
    configuration file does not exist, cannot be read, is not JSON, is
    not a JSON object, or lacks one of [consumer_key], [consumer_secret],
    [certificate_path], [certificate_password] and [environment]. *)
Theorem load_config_raises_only_on_stat `{Pydantic} `{PydanticFloat} (env : Env)
    (install : Install) (dir : string) :
  quiet (load_config env install (Some dir)) /\
  (can_stat env (dir +:+ "/config.json") = false ->
   forall w,
     load_config env install (Some dir) w =
       (Raised (Builtin Py.OSError), w, [FileExists (dir +:+ "/config.json")])) /\
  (can_stat env (dir +:+ "/config.json") = true ->
   returns (load_config env install (Some dir)) /\
   (forall w,
      files w !! (dir +:+ "/config.json") = None ->
      result (load_config env install (Some dir) w) = Returned None) /\
   (forall w c,
      files w !! (dir +:+ "/config.json") = Some c ->
      no_saved_config c ->
      result (load_config env install (Some dir) w) = Returned None)).
Proof.
  split; [apply quiet_load_config|]. split.
  - intros Hstat w. now apply load_config_refused.
  - intros Hstat. split; [now apply load_config_returns|]. split.
    + intros w Hf. now rewrite (load_config_absent env install dir w Hstat Hf).
    + intros w c Hf Hc.
      destruct (load_config_malformed env install dir w c Hstat Hf Hc) as (evs & ->).
      reflexivity.
Qed.

(** X24 on sample data: a storage directory that cannot be searched, and
    one without a configuration file. *)
Lemma load_config_raises_only_on_stat_witness :
  result (load_config (locked_env (inl timed_out)) sample_install
            (Some "/var/integra/.auth") empty_world)
    = Raised (Builtin Py.OSError) /\
  result (load_config token_env sample_install (Some "/var/integra/.auth") empty_world)
    = Returned None.
Proof.
  split.
  - destruct (load_config_raises_only_on_stat (locked_env (inl timed_out))
                sample_install "/var/integra/.auth") as (_ & Hrefused & _).
    now rewrite (Hrefused eq_refl empty_world).
  - destruct (load_config_raises_only_on_stat token_env sample_install
                "/var/integra/.auth") as (_ & _ & Hok).
    destruct (Hok eq_refl) as (_ & Habsent & _). now apply Habsent.
Defined.

(** [b64encode] on the test vectors of RFC 4648. *)
Example b64encode_test_vectors :
  Base64.b64encode "" = "" /\
  Base64.b64encode "f" = "Zg==" /\
  Base64.b64encode "fo" = "Zm8=" /\
  Base64.b64encode "foo" = "Zm9v" /\
  Base64.b64encode "foob" = "Zm9vYg==" /\
  Base64.b64encode "fooba" = "Zm9vYmE=" /\
  Base64.b64encode "foobar" = "Zm9vYmFy" /\
  _get_basic_auth_header sample_manager = "Basic a2V5OnNlY3JldA==".
Proof. repeat split. Qed.

(** X25.  The [Authorization] header of the request for a token
    identifies the credentials: two managers with the same Basic header
    have the same [consumer_key:consumer_secret] string, and the same
    consumer key and consumer secret when neither key contains a colon
    (the code does not check that it does not). *)
Theorem basic_auth_header_identifies_credentials (self other : AuthManager) :
  _get_basic_auth_header self = _get_basic_auth_header other ->
  consumer_key (credentials self) +:+ ":" +:+ consumer_secret (credentials self) =
    consumer_key (credentials other) +:+ ":" +:+ consumer_secret (credentials other) /\
  (colon_free (consumer_key (credentials self)) = true ->
   colon_free (consumer_key (credentials other)) = true ->
   credentials self = credentials other).
Proof.
  unfold _get_basic_auth_header. intros E. apply append_inj_r in E.
  apply Base64Facts.b64encode_inj in E. split; [exact E|].
  intros H1 H2. destruct (colon_split _ _ _ _ H1 H2 E) as [Hk Hs].
  destruct (credentials self), (credentials other). cbn in *. congruence.
Qed.

(** X25 on sample data: the Production and the Trial manager of the same
    credentials. *)
Lemma basic_auth_header_identifies_credentials_witness :
  let trial :=
    {| credentials := {| consumer_key := "key"; consumer_secret := "secret" |};
       certificate := {| path := "/certs/other.p12"; password := "other" |};
       environment := TRIAL;
       token_storage_dir := "/tmp/.auth" |} in
  _get_basic_auth_header sample_manager = _get_basic_auth_header trial /\
  credentials sample_manager = credentials trial.
Proof.
  intros trial.
  assert (E : _get_basic_auth_header sample_manager = _get_basic_auth_header trial)
    by reflexivity.
  destruct (basic_auth_header_identifies_credentials sample_manager trial E) as [_ Hc].
  split; [exact E | apply Hc; reflexivity].
Defined.

(** X26.  [ResponseBuilder.build] returns the response of the API as it
    is, but for the field [dados]: on a JSON object it gives an object
    with the same keys and, under every key other than [dados], the same
    value; [dados] is replaced by the value [json.loads] gives for it
    when it is a string that is not blank and parses, and the object is
    returned unchanged when [dados] is absent, is not a string, is blank,
    or does not parse.  Only an exception of [json.loads] other than
    [JSONDecodeError] and [TypeError] escapes. *)
Theorem response_builder_touches_only_dados (lib : PyLib) (id_sistema id_servico : string)
    (d : gmap string json) :
  match ResponseBuilder.build lib id_sistema id_servico (JDict d) with
  | inr built =>
      exists d',
        built = JDict d' /\
        (forall k, is_Some (d' !! k) <-> is_Some (d !! k)) /\
        (forall k, k <> "dados" -> d' !! k = d !! k) /\
        (d' = d \/
         exists s v,
           d !! "dados" = Some (JStr s) /\ str_strip lib s <> "" /\
           json_loads lib s = inr v /\ d' = <["dados" := v]> d)
  | inl e =>
      exists s,
        d !! "dados" = Some (JStr s) /\ json_loads lib s = inl e /\
        e <> Builtin Py.JSONDecodeError /\ e <> Builtin Py.TypeError
  end
  /\
  ((forall s, d !! "dados" = Some (JStr s) ->
      str_strip lib s = "" \/ json_loads lib s = inl (Builtin Py.JSONDecodeError)) ->
   ResponseBuilder.build lib id_sistema id_servico (JDict d) = inr (JDict d)).
Proof.
  unfold ResponseBuilder.build, Py.dict_get.
  destruct (d !! "dados") as [dados|] eqn:Hd.
  2: { split; [|reflexivity]. exists d. split; [reflexivity|]. split; [reflexivity|].
       split; [reflexivity | now left]. }
  destruct dados as [| | | |s| |];
    try (split; [|reflexivity]; exists d; split; [reflexivity|]; split; [reflexivity|];
         split; [reflexivity | now left]).
  destruct (String.eqb_spec (str_strip lib s) "") as [Hblank|Hblank]; cbn [negb].
  { split; [|reflexivity]. exists d. split; [reflexivity|]. split; [reflexivity|].
    split; [reflexivity | now left]. }
  assert (Hkeep : <["dados" := JStr s]> d = d) by now apply insert_id.
  destruct (json_loads lib s) as [e|v] eqn:Hl.
  - split.
    + destruct e as [[]| | | | | | | |];
        try (exists s; split; [reflexivity|]; split; [exact Hl|]; split; discriminate);
        rewrite Hkeep; exists d; (split; [reflexivity|]); (split; [reflexivity|]);
        (split; [reflexivity | now left]).
    + intros Hno. destruct (Hno s eq_refl) as [Hb|Hj]; [contradiction|].
      rewrite Hl in Hj. injection Hj as ->. now rewrite Hkeep.
  - split.
    + exists (<["dados" := v]> d). split; [reflexivity|]. split; [|split].
      * intros k. destruct (decide (k = "dados")) as [->|Hk].
        -- rewrite lookup_insert_eq, Hd. split; eauto.
        -- now rewrite lookup_insert_ne.
      * intros k Hk. now rewrite lookup_insert_ne.
      * right. exists s, v. auto.
    + intros Hno. destruct (Hno s eq_refl) as [Hb|Hj]; [contradiction|].
      rewrite Hl in Hj. discriminate.
Qed.

(** X26 on sample data: a response whose [dados] is not JSON comes back
    as it is. *)
Lemma response_builder_touches_only_dados_witness :
  let response : gmap string json :=
    <["status" := JInt 200]> (<["dados" := JStr "PDF"]> ∅) in
  ResponseBuilder.build sample_lib "PGMEI" "GERARDASPDF21" (JDict response)
    = inr (JDict response).
Proof.
  intros response.
  apply (proj2 (response_builder_touches_only_dados sample_lib "PGMEI" "GERARDASPDF21"
                  response)).
  intros s Hs. right.
  assert (Hd : response !! "dados" = Some (JStr "PDF")) by reflexivity.
  rewrite Hd in Hs. injection Hs as <-. reflexivity.
Defined.

(** ** The client of a session *)

Lemma live_app evs1 evs2 open :
  Lifecycle.live (evs1 ++ evs2) open = Lifecycle.live evs2 (Lifecycle.live evs1 open).
Proof.
  revert open. induction evs1 as [|[c|c] evs1 IH]; intros open; simpl; auto.
Qed.

Lemma run_keeps_one_client calls : forall s,
  Lifecycle.enters_fresh calls s = true ->
  Lifecycle.live (snd (Lifecycle.run calls s)) (Lifecycle.held s)
    = Lifecycle.held (fst (Lifecycle.run calls s)).
Proof.
  induction calls as [|call rest IH]; intros s Hfresh; [reflexivity|].
  cbn [Lifecycle.run Lifecycle.enters_fresh] in *.
  assert (Hstep : Lifecycle.live (snd (Lifecycle.step call s)) (Lifecycle.held s)
                    = Lifecycle.held (fst (Lifecycle.step call s)) /\
                  Lifecycle.enters_fresh rest (fst (Lifecycle.step call s)) = true).
  { unfold Lifecycle.held, Lifecycle.step, Lifecycle.__aenter__, Lifecycle.__aexit__,
      Lifecycle.client, Lifecycle.close, Lifecycle.new_client in *.
    destruct call, s as [[c|] n]; cbn in *; try discriminate;
      rewrite ?Nat.eqb_refl; auto. }
  destruct Hstep as [Hlive Hrest]. specialize (IH _ Hrest).
  destruct (Lifecycle.step call s) as [s1 evs1]. cbn [fst snd] in *.
  destruct (Lifecycle.run rest s1) as [s2 evs2]. cbn [fst snd] in *.
  now rewrite live_app, Hlive.
Qed.

(** [__aenter__] on a session that holds a client replaces the client
    without closing it. *)
Lemma aenter_replaces_client s c :
  Lifecycle._client s = Some c ->
  Lifecycle.__aenter__ s =
    ({| Lifecycle._client := Some (Lifecycle.created s);
        Lifecycle.created := S (Lifecycle.created s) |},
     [Lifecycle.Create (Lifecycle.created s)]).
Proof. reflexivity. Qed.

(** X27.  A session on which [__aenter__] is never called while it holds
    a client has at most one [httpx.AsyncClient] open at any time, the one
    it holds; [close] and [__aexit__] leave none open, and calling
    [close] again closes nothing. *)
Theorem session_holds_one_client (calls : list Lifecycle.Call) :
  Lifecycle.enters_fresh calls Lifecycle.init = true ->
  let '(s, evs) := Lifecycle.run calls Lifecycle.init in
  Lifecycle.live evs [] = Lifecycle.held s /\
  Lifecycle.live (evs ++ snd (Lifecycle.close s)) [] = [] /\
  Lifecycle.live (evs ++ snd (Lifecycle.__aexit__ s)) [] = [] /\
  snd (Lifecycle.close (fst (Lifecycle.close s))) = [].
Proof.
  intros Hfresh. pose proof (run_keeps_one_client calls Lifecycle.init Hfresh) as Hone.
  destruct (Lifecycle.run calls Lifecycle.init) as [s evs]. cbn [fst snd] in Hone.
  change (Lifecycle.held Lifecycle.init) with (@nil nat) in Hone.
  split; [exact Hone|]. rewrite !live_app, Hone.
  unfold Lifecycle.held, Lifecycle.close, Lifecycle.__aexit__.
  destruct s as [[c|] n]; cbn; rewrite ?Nat.eqb_refl; auto.
Qed.

(** X27 on sample data: a request outside of [async with], a [close], and
    a use as a context manager. *)
Lemma session_holds_one_client_witness :
  Lifecycle.run [Lifecycle.Client; Lifecycle.Client; Lifecycle.Close;
                 Lifecycle.Enter; Lifecycle.Client; Lifecycle.Exit] Lifecycle.init
    = ({| Lifecycle._client := None; Lifecycle.created := 2 |},
       [Lifecycle.Create 0; Lifecycle.AClose 0; Lifecycle.Create 1; Lifecycle.AClose 1]) /\
  Lifecycle.live [Lifecycle.Create 0; Lifecycle.AClose 0;
                  Lifecycle.Create 1; Lifecycle.AClose 1] [] = [].
Proof.
  pose proof (session_holds_one_client
                [Lifecycle.Client; Lifecycle.Client; Lifecycle.Close;
                 Lifecycle.Enter; Lifecycle.Client; Lifecycle.Exit] eq_refl) as X.
  cbn in X. destruct X as (L & _). split; [reflexivity | exact L].
Defined.

(** X28.  An executor built without a session uses three retries from a
    base delay of one second: whatever the business API does, an
    [execute] that has its token makes at most four attempts and sleeps
    at most seven seconds in all. *)
Theorem default_executor_is_bounded `{Pydantic} (env : Env) (config : IntegraConfig)
    (endpoint : string) (payload : json) (w : World) :
  token_available env config w ->
  let run := execute env config (HTTPExecutor_session None) endpoint payload w in
  (1 <= attempts (events run) <= 4)%nat /\
  (total_sleep (events run) <= 7)%Q.
Proof.
  intros Hta run. subst run.
  destruct (bearer_tokens_returns env config w Hta) as (tokens & w1 & evs1 & Hb & Hev).
  destruct (request_run env HTTPSession_default ltac:(cbn; lia)
              (api_request config endpoint payload tokens) w1)
    as (n & r & Hn & _ & _ & E).
  rewrite execute_unfold, Hb. cbn [HTTPExecutor_session]. rewrite E.
  unfold events. cbn [snd].
  pose proof (request_log_manager_events env config endpoint) as Hlog.
  assert (Hq : forall evs, forallb is_manager_event evs = true ->
                 forall rest, attempts (evs ++ rest) = attempts rest /\
                              delays (evs ++ rest) = delays rest).
  { induction evs as [|ev evs IH]; [split; reflexivity|].
    simpl. intros Hall rest. apply andb_prop in Hall as [Hev' Hall].
    destruct (IH Hall rest) as [IHa IHd].
    destruct ev; try discriminate Hev'; split; assumption. }
  destruct (Hq evs1 Hev (request_log env config endpoint
                           ++ failing_trace (api_request config endpoint payload tokens)
                                0 (retry_backoff HTTPSession_default) n))
    as [A1 D1].
  destruct (Hq _ Hlog (failing_trace (api_request config endpoint payload tokens)
                         0 (retry_backoff HTTPSession_default) n)) as [A2 D2].
  unfold total_sleep. rewrite A1, A2, D1, D2, failing_trace_attempts.
  cbn [max_retries HTTPSession_default] in Hn. split; [lia|].
  fold (total_sleep (failing_trace (api_request config endpoint payload tokens) 0
                       (retry_backoff HTTPSession_default) n)).
  rewrite failing_trace_total_sleep. cbn [retry_backoff HTTPSession_default].
  assert (Hm := Qpower_2_mono n 3 ltac:(lia)).
  change (2 ^ Z.of_nat 3)%Q with 8%Q in Hm. lra.
Qed.

(** X28 on sample data: a business API that always times out. *)
Lemma default_executor_is_bounded_witness :
  attempts (events (execute token_env sample_config (HTTPExecutor_session None)
                      "Consultar" (JDict ∅) empty_world)) = 4%nat.
Proof.
  destruct (default_executor_is_bounded token_env sample_config "Consultar" (JDict ∅)
              empty_world I) as [[_ Hle] _].
  assert (Hge : (4 <= attempts (events (execute token_env sample_config
                                          (HTTPExecutor_session None) "Consultar"
                                          (JDict ∅) empty_world)))%nat)
    by (vm_compute; lia).
  lia.
Defined.

(** ** The template registry *)

Section RegistryFacts.
Context (upper : string -> string) {Template : Type}.

Lemma get_register (reg : TemplateRegistry.Registry (Template := Template))
    s v cls a b :
  TemplateRegistry.get upper (TemplateRegistry.register upper reg s v cls) a b =
    if registers upper a b (s, v, cls) then Some cls
    else TemplateRegistry.get upper reg a b.
Proof.
  unfold TemplateRegistry.get, TemplateRegistry.register, registers,
    TemplateRegistry.Registry in *. cbn [fst snd].
  destruct (String.eqb_spec (upper s) (upper a)) as [Hs|Hs];
    destruct (String.eqb_spec (upper v) (upper b)) as [Hv|Hv]; cbn [andb].
  - rewrite Hs, Hv. now rewrite lookup_insert_eq.
  - now rewrite lookup_insert_ne by congruence.
  - now rewrite lookup_insert_ne by congruence.
  - now rewrite lookup_insert_ne by congruence.
Qed.

Lemma get_registered regs : forall (reg : TemplateRegistry.Registry (Template := Template)) a b,
  TemplateRegistry.get upper (registered upper regs reg) a b =
    match List.find (registers upper a b) (rev regs) with
    | Some found => Some (snd found)
    | None => TemplateRegistry.get upper reg a b
    end.
Proof.
  induction regs as [|[[s v] cls] regs IH]; intros reg a b; [reflexivity|].
  cbn [registered fold_left fst snd rev].
  change (fold_left _ regs ?r) with (registered upper regs r).
  rewrite IH, get_register.
  assert (Hfind : forall l,
             List.find (registers upper a b) (l ++ [(s, v, cls)]) =
               match List.find (registers upper a b) l with
               | Some found => Some found
               | None => if registers upper a b (s, v, cls) then Some (s, v, cls) else None
               end).
  { induction l as [|x l IHl]; [reflexivity|]. simpl.
    destruct (registers upper a b x); [reflexivity | exact IHl]. }
  rewrite Hfind. destruct (List.find (registers upper a b) (rev regs)); [reflexivity|].
  now destruct (registers upper a b (s, v, cls)).
Qed.

End RegistryFacts.

(** X30.  After any sequence of registrations, the registry gives for
    two ids the template class of the last registration whose ids are
    the same up to [upper], and what it gave before when there is none:
    a later registration replaces an earlier one, and ids are matched
    without regard to case.  [is_registered] and [load_template] follow
    [get]: [load_template] builds a template of that class, and raises
    [RequestNotFoundError] with the ids as they were given when there is
    none; after [clear] nothing is registered. *)
Theorem registry_gives_last_registration (upper : string -> string) {Template : Type}
    (regs : list (string * string * (unit -> Template)))
    (_registry : TemplateRegistry.Registry) (id_sistema id_servico : string) :
  let after := registered upper regs _registry in
  TemplateRegistry.get upper after id_sistema id_servico =
    match List.find (registers upper id_sistema id_servico) (rev regs) with
    | Some found => Some (snd found)
    | None => TemplateRegistry.get upper _registry id_sistema id_servico
    end /\
  (forall other_sistema other_servico,
     upper other_sistema = upper id_sistema ->
     upper other_servico = upper id_servico ->
     get_template_class upper after other_sistema other_servico =
       get_template_class upper after id_sistema id_servico) /\
  (is_template_available upper after id_sistema id_servico = true <->
   exists template_class,
     TemplateRegistry.get upper after id_sistema id_servico = Some template_class /\
     load_template upper after id_sistema id_servico = inr (template_class tt)) /\
  (is_template_available upper after id_sistema id_servico = false ->
   load_template upper after id_sistema id_servico =
     inl (RequestNotFoundError id_sistema id_servico)) /\
  TemplateRegistry.get upper (TemplateRegistry.clear after) id_sistema id_servico = None.
Proof.
  intros after. split; [apply get_registered|]. split; [|split; [|split]].
  - intros a' b' Ha Hb. unfold get_template_class, TemplateRegistry.get.
    now rewrite Ha, Hb.
  - unfold is_template_available, TemplateRegistry.is_registered, load_template,
      get_template_class, TemplateRegistry.get.
    rewrite bool_decide_eq_true. split.
    + intros [cls Hcls]. exists cls. now rewrite Hcls.
    + intros (cls & Hcls & _). eauto.
  - unfold is_template_available, TemplateRegistry.is_registered, load_template,
      get_template_class, TemplateRegistry.get.
    rewrite bool_decide_eq_false. intros Hnone.
    destruct (after !! _) as [cls|]; [|reflexivity]. destruct Hnone. eauto.
  - reflexivity.
Qed.

(** X30 on sample data: of two registrations of one service written in
    different case the second is the one loaded, whatever the case of the
    ids asked for; a service never registered is not found. *)
Lemma registry_gives_last_registration_witness :
  load_template ascii_upper (registered ascii_upper sample_registrations ∅)
    "PgMei" "GerarDas21" = inr "second" /\
  load_template ascii_upper (registered ascii_upper sample_registrations ∅)
    "PGMEI" "OTHER" = inl (RequestNotFoundError "PGMEI" "OTHER").
Proof.
  destruct (registry_gives_last_registration ascii_upper sample_registrations ∅
              "PgMei" "GerarDas21") as (Hget & _ & Havail & _).
  destruct (registry_gives_last_registration ascii_upper sample_registrations ∅
              "PGMEI" "OTHER") as (_ & _ & _ & Hnone & _).
  split; [|apply Hnone; vm_compute; reflexivity].
  destruct (proj1 Havail) as (template_class & Hc & Hl); [vm_compute; reflexivity|].
  rewrite Hl. rewrite Hget in Hc. injection Hc as <-. reflexivity.
Defined.
